(** * auto-wall-companion: wall import/export and tile compositing

    A shallow embedding of [WallUtils] (src/ts/module.ts): the wall
    import/export pipeline ([processWallImport], [getWallsJson],
    [exportWallsToClipboard], [exportWallsToFile]) and the tile
    compositor ([exportSceneTilesAsImage]).

    The host application (scene documents, notifications, dialogs,
    clipboard, canvas, image loading) is a collaborator of the module:
    its operations are an interface ([Host], [Platform]) and every call
    the module makes is recorded, in program order, in an event log.

    Numbers are IEEE 754 binary64 values, with the rounding of sums and
    differences written out; strings are held as the bytes of their
    UTF-8 encoding.

    Part I translates the source.  Part II names what the claims speak
    of.  Part III is a small host to run the program against.  Part IV
    states and proves the claims C1 to C10.  Part V proves further
    properties of the code. *)

From Stdlib Require Import Ascii QArith Qround Qabs Lqa.
From stdpp Require Import gmap strings list pretty.
From Equations Require Import Equations.

Set Warnings "-register-all".
Set Default Proof Using "Type".

(** * Part I: the program *)

(** ** JavaScript values *)

(** A JavaScript number: an IEEE 754 binary64 value.  A finite value is
    the rational it denotes; the two zeros are one value (the module
    never divides, and no operation it uses tells them apart).  The
    numbers the host hands over are binary64 values; the results of
    arithmetic are rounded to binary64 by [round64]. *)
Inductive number := NaN | NegInf | Fin (q : Q) | PosInf.

(** A whole number as a [number]: exact up to [2^53], which array
    lengths, counters and the results of [Math.ceil] stay within or are
    binary64 values already. *)
Definition ofZ (z : Z) : number := Fin (inject_Z z).
Definition ofNat (n : nat) : number := ofZ (Z.of_nat n).

(** [num / den] rounded to the nearest integer, a tie going to the even
    neighbour; for [0 <= num] and [0 < den]. *)
Definition roundHalfEven (num den : Z) : Z :=
  let q := (num / den)%Z in
  match (2 * (num mod den) ?= den)%Z with
  | Lt => q
  | Gt => (q + 1)%Z
  | Eq => if Z.even q then q else (q + 1)%Z
  end.

(** [floor (log2 (a / d))] for positive [a] and [d]. *)
Definition ilog2 (a d : Z) : Z :=
  let k := (Z.log2 a - Z.log2 d)%Z in
  if (d * 2 ^ Z.max k 0 <=? a * 2 ^ Z.max (- k) 0)%Z then k else (k - 1)%Z.

(** The magnitude [a / d] rounded to binary64: 53 significant bits, the
    unit in the last place never below [2^-1074] (gradual underflow),
    infinite from [2^1024] on. *)
Definition roundMagnitude (negative : bool) (a d : Z) : number :=
  let e := Z.max (ilog2 a d - 52) (-1074) in
  let m := roundHalfEven (a * 2 ^ Z.max (- e) 0) (d * 2 ^ Z.max e 0) in
  if (2 ^ 1024 <=? m * 2 ^ Z.max e 0)%Z
  then (if negative then NegInf else PosInf)
  else Fin (Qred ((if negative then - m else m) * 2 ^ Z.max e 0
                  # Z.to_pos (2 ^ Z.max (- e) 0))).

(** The binary64 value nearest to a rational, ties to even: how every
    arithmetic operation of the language rounds its exact result. *)
Definition round64 (q : Q) : number :=
  let '(n # d) := Qred q in
  if (n =? 0)%Z then Fin 0
  else roundMagnitude (n <? 0)%Z (Z.abs n) (Zpos d).

(** [a + b] *)
Definition jsAdd (a b : number) : number :=
  match a, b with
  | NaN, _ | _, NaN => NaN
  | PosInf, NegInf | NegInf, PosInf => NaN
  | PosInf, _ | _, PosInf => PosInf
  | NegInf, _ | _, NegInf => NegInf
  | Fin x, Fin y => round64 (x + y)
  end.

(** [a - b] *)
Definition jsSub (a b : number) : number :=
  match a, b with
  | NaN, _ | _, NaN => NaN
  | PosInf, PosInf | NegInf, NegInf => NaN
  | PosInf, _ | _, NegInf => PosInf
  | NegInf, _ | _, PosInf => NegInf
  | Fin x, Fin y => round64 (x - y)
  end.

(** [a <= b]; every comparison with [NaN] is false. *)
Definition jsLe (a b : number) : bool :=
  match a, b with
  | NaN, _ | _, NaN => false
  | NegInf, _ | _, PosInf => true
  | PosInf, _ | _, NegInf => false
  | Fin x, Fin y => Qle_bool x y
  end.

(** [a > b] *)
Definition jsGt (a b : number) : bool :=
  match a, b with
  | NaN, _ | _, NaN => false
  | _, PosInf | NegInf, _ => false
  | PosInf, _ | _, NegInf => true
  | Fin x, Fin y => negb (Qle_bool x y)
  end.

(** [Math.min(a, b)] *)
Definition Math_min (a b : number) : number :=
  match a, b with
  | NaN, _ | _, NaN => NaN
  | NegInf, _ | _, NegInf => NegInf
  | PosInf, c | c, PosInf => c
  | Fin x, Fin y => if Qle_bool x y then Fin x else Fin y
  end.

(** [Math.max(a, b)] *)
Definition Math_max (a b : number) : number :=
  match a, b with
  | NaN, _ | _, NaN => NaN
  | PosInf, _ | _, PosInf => PosInf
  | NegInf, c | c, NegInf => c
  | Fin x, Fin y => if Qle_bool x y then Fin y else Fin x
  end.

(** [Math.ceil(a)] *)
Definition Math_ceil (a : number) : number :=
  match a with
  | Fin q => ofZ (Qceiling q)
  | other => other
  end.

(** Values as [JSON.parse] and the host's [toObject] produce them. *)
Inductive jsval :=
| JNull
| JUndefined
| JBool (b : bool)
| JNum (n : number)
| JStr (s : string)
| JArr (l : list jsval)
| JObj (m : gmap string jsval).

(** A plain object: property name to value. *)
Abbreviation record := (gmap string jsval).

(** [v !== 0] *)
Definition strictNeqZero (v : jsval) : bool :=
  match v with
  | JNum (Fin q) => negb (Qeq_bool q 0)
  | _ => true
  end.

(** A thrown value: an [Error] instance with its [message], or anything
    else, kept as [String(error)]. *)
Inductive Thrown :=
| ErrorObj (name message : string)
| NonError (asString : string).

(** [error instanceof Error ? error.message : String(error)] *)
Definition errorText (e : Thrown) : string :=
  match e with
  | ErrorObj _ m => m
  | NonError s => s
  end.

(** [String(error)], as a template literal interpolates it. *)
Definition thrownToString (e : Thrown) : string :=
  match e with
  | ErrorObj name EmptyString => name
  | ErrorObj EmptyString m => m
  | ErrorObj name m => name +:+ ": " +:+ m
  | NonError s => s
  end.

(** A template literal: literal text interleaved with interpolated
    values (number formatting is left to the host). *)
Inductive Frag :=
| Lit (s : string)
| Num (n : number)
| Str (s : string).

Abbreviation Message := (list Frag).

Inductive Level := Info | Warn | Error.

(** ** Tiles *)

(** [tile.texture] *)
Record Texture := { src : option string }.

(** [tile.document]: the nested document of a tile placeable. *)
Record TileDocument := {
  doc_width : option Q;
  doc_height : option Q;
  doc_x : option Q;
  doc_y : option Q;
  doc_texture : option Texture;
  doc_img : option string;
}.

(** One element of [scene.tiles.contents].  An absent property is [None];
    numeric properties hold finite numbers, as the host persists them. *)
Record Tile := {
  tile_width : option Q;
  tile_height : option Q;
  tile_x : option Q;
  tile_y : option Q;
  tile_texture : option Texture;
  tile_img : option string;
  tile_document : option TileDocument;
}.

(** A decoded image, as handed to [img.onload]. *)
Record Image := { img_src : string; img_width : Q; img_height : Q }.

(** ** Effects *)

(** Every call the module makes on a collaborator, in program order
    ([ui.notifications] is taken to be there; [ModuleLogger.warn] is
    recorded as the call, whatever the log level lets through). *)
Inductive Event :=
| Notify (level : Level) (msg : Message)
| ConsoleError (label : string) (err : Thrown)
| LoggerWarn (msg : Message)
| PaddingWarning (operation : string) (answer : bool)
| CreateEmbeddedDocuments (type : string) (batch : list record)
    (failure : option Thrown)
| ClipboardWriteText (text : string)
| SaveDataToFile (data mime filename : string)
| CreateCanvas
| SetCanvasSize (w h : number)
| ClearRect (x y w h : number)
| DrawImage (img : Image) (sx sy sw sh dx dy dw dh : number)
| SaveAs (fileName : string).

(** The host's scene documents.  [Scene] is the state of one scene. *)
Class Host (Scene : Type) := {
  (** [scene.padding] *)
  scene_padding : Scene -> jsval;
  (** [scene.name] *)
  scene_name : Scene -> option string;
  (** [scene.walls.map(wall => wall.toObject())] *)
  scene_walls : Scene -> list record;
  (** [scene.tiles.contents] *)
  scene_tiles : Scene -> option (list Tile);
  (** [scene.createEmbeddedDocuments(type, batch)]: the scene afterwards,
      and the error the call raised, if any. *)
  createEmbeddedDocuments :
    string -> list record -> Scene -> option Thrown * Scene;
}.

(** What an image load ends in: [onload] (and whether [drawImage] then
    throws), [onerror], or an exception while the tile is processed. *)
Inductive ImageEvent :=
| OnLoad (img : Image) (drawThrows : option Thrown)
| OnError
| Raises (err : Thrown).

(** The browser and the user. *)
Class Platform := {
  JSON_parse : string -> Thrown + jsval;
  (** [JSON.stringify(v, null, 2)] *)
  JSON_stringify : jsval -> string;
  (** The button the user picks in the padding dialog of an operation:
      [true] for "Continue anyway", [false] for "Cancel". *)
  dialogAnswer : string -> bool;
  clipboard_readText : Thrown + string;
  clipboard_writeText : string -> option Thrown;
  (** whether [canvas.getContext('2d')] yields a context *)
  getContext2d : bool;
  (** the outcome of loading the image of the [n]-th tile from a source *)
  loadImage : nat -> string -> ImageEvent;
  (** whether [canvas.toBlob] yields a blob *)
  toBlob : bool;
  (** [await import('file-saver')] and [saveAs] *)
  fileSaver : option Thrown;
  (** The message of the TypeError that destructuring [null] or
      [undefined] throws: the text is the engine's own. *)
  destructureMessage : jsval -> string;
}.

(** The mutable state an operation runs in: the host's current scene
    ([game.scenes?.current]) and the event log. *)
Record World (Scene : Type) := mkWorld {
  current : option Scene;
  log : list Event;
}.
Arguments mkWorld {Scene}.
Arguments current {Scene}.
Arguments log {Scene}.

Definition emit {Scene} (e : Event) (w : World Scene) : World Scene :=
  mkWorld (current w) (log w ++ [e]).

Definition notify {Scene} (l : Level) (m : Message) (w : World Scene) :=
  emit (Notify l m) w.

(** ** Wall import and export *)

(** The own enumerable properties of an array or a string, keyed by
    index. *)
Definition indexedProps (l : list jsval) : record :=
  list_to_map (imap (fun i v => (pretty i, v)) l).

(** A surrogate code unit, held as the three bytes of its own value. *)
Definition unitBytes (u : N) : string :=
  String (ascii_of_N (0xE0 + u / 0x1000))
    (String (ascii_of_N (0x80 + (u / 0x40) mod 0x40))
       (String (ascii_of_N (0x80 + u mod 0x40)) EmptyString)).

(** The UTF-16 code units of a string, which is held as the bytes of its
    UTF-8 encoding.  A sequence of one, two or three bytes is one code
    unit; a sequence of four bytes is a code point above U+FFFF: two
    code units, a high and a low surrogate.  (A sequence cut short does
    not come from a string; what is left of it is kept as one unit.) *)
Fixpoint codeUnits (s : string) : list string :=
  match s with
  | EmptyString => []
  | String a rest =>
      let lead := N_of_ascii a in
      if (lead <? 0xC0)%N then String a "" :: codeUnits rest
      else
        match rest with
        | EmptyString => [String a ""]
        | String b rest =>
            if (lead <? 0xE0)%N
            then String a (String b "") :: codeUnits rest
            else
              match rest with
              | EmptyString => [String a (String b "")]
              | String c rest =>
                  if (lead <? 0xF0)%N
                  then String a (String b (String c "")) :: codeUnits rest
                  else
                    match rest with
                    | EmptyString => [String a (String b (String c ""))]
                    | String d rest =>
                        let cp :=
                          ((lead - 0xF0) * 0x40000
                           + (N_of_ascii b - 0x80) * 0x1000
                           + (N_of_ascii c - 0x80) * 0x40
                           + (N_of_ascii d - 0x80))%N in
                        let v := (cp - 0x10000)%N in
                        unitBytes (0xD800 + v / 0x400)
                        :: unitBytes (0xDC00 + v mod 0x400)
                        :: codeUnits rest
                    end
              end
        end
  end.

(** [const { _id, ...wallData } = wall; return wallData;]
    Destructuring [null] or [undefined] throws a TypeError; a primitive
    is boxed first, and a boxed string has its code units as indexed
    properties. *)
Definition stripIdentity {browser : Platform} (wall : jsval)
  : Thrown + record :=
  match wall with
  | JNull | JUndefined =>
      inl (ErrorObj "TypeError" (destructureMessage wall))
  | JObj m => inr (delete "_id" m)
  | JArr l => inr (delete "_id" (indexedProps l))
  | JStr s => inr (delete "_id" (indexedProps (JStr <$> codeUnits s)))
  | JBool _ | JNum _ => inr ∅
  end.

(** [walls.map(wall => ...)]: stops at the first element that throws. *)
Fixpoint stripAll {browser : Platform} (walls : list jsval)
  : Thrown + list record :=
  match walls with
  | [] => inr []
  | wall :: rest =>
      match stripIdentity wall with
      | inl e => inl e
      | inr wallData =>
          match stripAll rest with
          | inl e => inl e
          | inr more => inr (wallData :: more)
          end
      end
  end.

(** [array.slice(from, to)] for [from <= to] *)
Definition Array_slice {A} (from to : nat) (l : list A) : list A :=
  take (to - from) (drop from l).

Definition BATCH_SIZE : nat := 100.

(** A string property when it is truthy: present and not empty. *)
Definition truthyString (s : option string) : option string :=
  match s with
  | Some EmptyString | None => None
  | Some s => Some s
  end.

(** How the batch loop of [processWallImport] ends: the error that left
    it, if any, and the local [createdCount] at that point. *)
Record LoopExit (Scene : Type) := mkLoopExit {
  thrown : option Thrown;
  createdCount : nat;
  sceneAfter : Scene;
  logAfter : list Event;
}.
Arguments mkLoopExit {Scene}.
Arguments thrown {Scene}.
Arguments createdCount {Scene}.
Arguments sceneAfter {Scene}.
Arguments logAfter {Scene}.

Section WallSync.
Context {Scene : Type} {host : Host Scene} {browser : Platform}.

(** [showPaddingWarning(operation)]: opens the dialog and resolves with
    the user's choice. *)
Definition showPaddingWarning (operation : string) (w : World Scene)
  : bool * World Scene :=
  let answer := dialogAnswer operation in
  (answer, emit (PaddingWarning operation answer) w).

(** [for (let i = 0; i < wallData.length; i += BATCH_SIZE) { ... }] *)
Equations batchLoop (wallData : list record) (totalWalls : nat)
    (i count : nat) (scene : Scene) (lg : list Event)
  : LoopExit Scene by wf (length wallData - i) lt :=
batchLoop wallData totalWalls i count scene lg
  with decide (i < length wallData) := {
  | right _ := mkLoopExit None count scene lg
  | left _
      with createEmbeddedDocuments "Wall"
             (Array_slice i (i + BATCH_SIZE) wallData) scene := {
      | (Some e, scene') :=
          mkLoopExit (Some e) count scene'
            (lg ++ [CreateEmbeddedDocuments "Wall"
                      (Array_slice i (i + BATCH_SIZE) wallData) (Some e)])
      | (None, scene') :=
          batchLoop wallData totalWalls (i + BATCH_SIZE)
            (count + length (Array_slice i (i + BATCH_SIZE) wallData))
            scene'
            (lg ++ [CreateEmbeddedDocuments "Wall"
                      (Array_slice i (i + BATCH_SIZE) wallData) None]
                ++ (if decide (i + BATCH_SIZE < length wallData)
                    then [Notify Info
                            [Lit "Created ";
                             Num (ofNat (count + length (Array_slice i (i + BATCH_SIZE) wallData)));
                             Lit " of "; Num (ofNat totalWalls);
                             Lit " walls..."]]
                    else []))
    }
  }.
Next Obligation. unfold BATCH_SIZE. lia. Qed.

(** The [try] block of [processWallImport]: the error it throws, if
    any, and the world it leaves. *)
Definition processWallImport_try (text : string) (w : World Scene)
  : option Thrown * World Scene :=
  match JSON_parse text with
  | inl e => (Some e, w)
  | inr (JArr walls) =>
      match current w with
      | None => (None, notify Error [Lit "No active scene"] w)
      | Some scene =>
          let '(confirmImport, w) :=
            if strictNeqZero (scene_padding scene)
            then showPaddingWarning "import" w
            else (true, w) in
          if negb confirmImport then (None, w) else
          match stripAll walls with
          | inl e => (Some e, w)
          | inr wallData =>
              let totalWalls := length wallData in
              let w :=
                notify Info [Lit "Creating "; Num (ofNat totalWalls);
                             Lit " walls..."] w in
              let out := batchLoop wallData totalWalls 0 0 scene (log w) in
              let w := mkWorld (Some (sceneAfter out)) (logAfter out) in
              match thrown out with
              | Some e => (Some e, w)
              | None =>
                  (None,
                   notify Info [Lit "Successfully created ";
                                Num (ofNat (createdCount out));
                                Lit " walls!"] w)
              end
          end
      end
  | inr _ =>
      (None,
       notify Error
         [Lit "Invalid wall data format. Expected an array of walls."] w)
  end.

(** [processWallImport(text)]: the [catch] turns any error into a
    notification and a console line. *)
Definition processWallImport (text : string) (w : World Scene)
  : World Scene :=
  match processWallImport_try text w with
  | (None, w) => w
  | (Some error, w) =>
      emit (ConsoleError "Wall import error:" error)
        (notify Error [Lit "Error processing walls:";
                       Str (errorText error)] w)
  end.

(** [importWallsFromClipboard()] *)
Definition importWallsFromClipboard (w : World Scene) : World Scene :=
  let w := notify Info [Lit "Reading wall data from clipboard..."] w in
  match clipboard_readText with
  | inr text => processWallImport text w
  | inl error =>
      emit (ConsoleError "Clipboard read error:" error)
        (notify Error [Lit "Failed to read clipboard: ";
                       Str (errorText error)] w)
  end.

(** [scene.walls.map(wall => wall.toObject())], the array that is
    serialized *)
Definition exportedWalls (scene : Scene) : list jsval :=
  JObj <$> scene_walls scene.

(** [getWallsJson()]: the JSON text, or the error it throws. *)
Definition getWallsJson (w : World Scene) : (Thrown + string) * World Scene :=
  match current w with
  | None => (inl (ErrorObj "Error" "No active scene found."), w)
  | Some scene =>
      let '(confirmExport, w) :=
        if strictNeqZero (scene_padding scene)
        then showPaddingWarning "export" w
        else (true, w) in
      if negb confirmExport
      then (inl (ErrorObj "Error" "Wall export cancelled."), w)
      else
        let walls := exportedWalls scene in
        (inr (JSON_stringify (JArr walls)), w)
  end.

(** [exportWallsToClipboard()] *)
Definition exportWallsToClipboard (w : World Scene) : World Scene :=
  let failed err w :=
    notify Error [Lit "Failed to copy walls to clipboard."]
      (emit (ConsoleError "Clipboard write error:" err) w) in
  match getWallsJson w with
  | (inl err, w) => failed err w
  | (inr json, w) =>
      match clipboard_writeText json with
      | Some err => failed err w
      | None =>
          notify Info [Lit "Walls copied to clipboard successfully."]
            (emit (ClipboardWriteText json) w)
      end
  end.

(** A string is held as the bytes of its UTF-8 encoding.  [/\s/] matches
    one character: one of the six of ASCII (tab, line feed, vertical
    tab, form feed, carriage return, space), or one of the white space
    characters and line terminators beyond, which take two or three
    bytes. *)
Definition isWhitespace1 (a : Ascii.ascii) : bool :=
  existsb (Ascii.eqb a) ["009"; "010"; "011"; "012"; "013"; " "]%char.

(** U+00A0 *)
Definition isWhitespace2 (a b : Ascii.ascii) : bool :=
  (Ascii.eqb a "194" && Ascii.eqb b "160")%char.

(** U+1680; U+2000 to U+200A; U+2028, U+2029, U+202F; U+205F; U+3000;
    U+FEFF *)
Definition isWhitespace3 (a b c : Ascii.ascii) : bool :=
  existsb (fun '(x, y, z) => Ascii.eqb a x && Ascii.eqb b y && Ascii.eqb c z)
    [("225", "154", "128");
     ("226", "128", "128"); ("226", "128", "129"); ("226", "128", "130");
     ("226", "128", "131"); ("226", "128", "132"); ("226", "128", "133");
     ("226", "128", "134"); ("226", "128", "135"); ("226", "128", "136");
     ("226", "128", "137"); ("226", "128", "138");
     ("226", "128", "168"); ("226", "128", "169"); ("226", "128", "175");
     ("226", "129", "159");
     ("227", "128", "128");
     ("239", "187", "191")]%char.

(** The number of bytes of the white space character at the head of a
    string; [0] when the string does not start with one. *)
Definition whitespaceLength (s : string) : nat :=
  match s with
  | EmptyString => 0
  | String a rest =>
      if isWhitespace1 a then 1
      else
        match rest with
        | EmptyString => 0
        | String b rest =>
            if isWhitespace2 a b then 2
            else
              match rest with
              | EmptyString => 0
              | String c _ => if isWhitespace3 a b c then 3 else 0
              end
        end
  end.

(** The scan of [name.replace(/\s+/g, "_")]: [skip] counts the bytes
    left of the white space character the scan is in, [inRun] tells
    whether the previous character was white space. *)
Fixpoint replaceFrom (skip : nat) (inRun : bool) (name : string) : string :=
  match name with
  | EmptyString => EmptyString
  | String c rest =>
      match skip with
      | S k => replaceFrom k inRun rest
      | 0 =>
          match whitespaceLength name with
          | S k =>
              if inRun then replaceFrom k true rest
              else String "_" (replaceFrom k true rest)
          | 0 => String c (replaceFrom 0 false rest)
          end
      end
  end.

(** [name.replace(/\s+/g, "_")] *)
Definition replaceWhitespace (inRun : bool) (name : string) : string :=
  replaceFrom 0 inRun name.

(** [exportWallsToFile()] *)
Definition exportWallsToFile (w : World Scene) : World Scene :=
  match current w with
  | None => notify Error [Lit "No active scene found."] w
  | Some scene =>
      match truthyString (scene_name scene) with
      | None => notify Error [Lit "No active scene found."] w
      | Some name =>
          match getWallsJson w with
          | (inl err, w) =>
              notify Error [Lit "Failed to export walls."]
                (emit (ConsoleError "Wall export error:" err) w)
          | (inr json, w) =>
              notify Info [Lit "Walls exported successfully."]
                (emit (SaveDataToFile json "application/json"
                         (replaceWhitespace false name +:+ "_walls.json")) w)
          end
      end
  end.

End WallSync.

(** ** Tile compositing *)

(** Truthiness of an optional number: [undefined], [null] and [0] are
    falsy. *)
Definition truthy (v : option Q) : bool :=
  match v with
  | Some q => negb (Qeq_bool q 0)
  | None => false
  end.

(** [a || b] *)
Definition jsOr (a b : option Q) : option Q := if truthy a then a else b.

(** [direct || nested || 0], with [nested] the property read through
    [tileData.document?.] *)
Definition orNestedOrZero (direct nested : option Q) : Q :=
  default 0%Q (jsOr (jsOr direct nested) (Some 0%Q)).

(** [tileData.document?.prop] *)
Definition nested {A} (prop : TileDocument -> option A) (tileData : Tile)
  : option A :=
  match tile_document tileData with
  | Some document => prop document
  | None => None
  end.

(** [texture?.src] *)
Definition texture_src (texture : option Texture) : option string :=
  match texture with
  | Some t => src t
  | None => None
  end.

Definition tileWidth (tileData : Tile) : Q :=
  orNestedOrZero (tile_width tileData) (nested doc_width tileData).
Definition tileHeight (tileData : Tile) : Q :=
  orNestedOrZero (tile_height tileData) (nested doc_height tileData).
Definition tileX (tileData : Tile) : Q :=
  orNestedOrZero (tile_x tileData) (nested doc_x tileData).
Definition tileY (tileData : Tile) : Q :=
  orNestedOrZero (tile_y tileData) (nested doc_y tileData).

Record Bounds := mkBounds {
  minX : number;
  minY : number;
  maxX : number;
  maxY : number;
}.

(** [let minX = Infinity, minY = Infinity, maxX = -Infinity, maxY = -Infinity] *)
Definition initialBounds : Bounds := mkBounds PosInf PosInf NegInf NegInf.

(** The body of the first pass over the tiles. *)
Definition extendBounds (b : Bounds) (tile : Tile) : Bounds :=
  mkBounds
    (Math_min (minX b) (Fin (tileX tile)))
    (Math_min (minY b) (Fin (tileY tile)))
    (Math_max (maxX b) (jsAdd (Fin (tileX tile)) (Fin (tileWidth tile))))
    (Math_max (maxY b) (jsAdd (Fin (tileY tile)) (Fin (tileHeight tile)))).

(** [for (const tile of tiles) { ... }], first pass *)
Definition firstPass (tiles : list Tile) : Bounds :=
  fold_left extendBounds tiles initialBounds.

(** [if (maxX <= minX) maxX = minX + 1; if (maxY <= minY) maxY = minY + 1;] *)
Definition ensureValid (b : Bounds) : Bounds :=
  mkBounds (minX b) (minY b)
    (if jsLe (maxX b) (minX b) then jsAdd (minX b) (Fin 1) else maxX b)
    (if jsLe (maxY b) (minY b) then jsAdd (minY b) (Fin 1) else maxY b).

(** The bounds the canvas is sized from. *)
Definition computeBounds (tiles : list Tile) : Bounds :=
  ensureValid (firstPass tiles).

Definition canvasWidth (b : Bounds) : number :=
  Math_ceil (jsSub (maxX b) (minX b)).
Definition canvasHeight (b : Bounds) : number :=
  Math_ceil (jsSub (maxY b) (minY b)).

Definition MAX_DIMENSION : number := ofZ 16384.

(** The texture path of a tile: the [if ... else if ...] chain. *)
Definition textureSrc (tileData : Tile) : option string :=
  if truthyString (texture_src (tile_texture tileData)) is Some s
  then Some s
  else if truthyString (texture_src (nested doc_texture tileData)) is Some s
  then Some s
  else if truthyString (tile_img tileData) is Some s
  then Some s
  else if truthyString (nested doc_img tileData) is Some s
  then Some s
  else None.

(** The counters and the log while the tiles are drawn. *)
Record DrawState := mkDrawState {
  loadedCount : nat;
  failedCount : nat;
  drawLog : list Event;
}.

Section TileCompositor.
Context {Scene : Type} {host : Host Scene} {browser : Platform}.

(** One iteration of the second pass: the [n]-th tile is resolved,
    loaded and drawn, and exactly one counter moves. *)
Definition drawTile (b : Bounds) (n : nat) (tile : Tile) (st : DrawState)
  : DrawState :=
  let fail (line : Message) :=
    mkDrawState (loadedCount st) (S (failedCount st))
      (drawLog st ++ [LoggerWarn line]) in
  match textureSrc tile with
  | None => fail [Lit "Tile doesn't have a valid texture source"]
  | Some textureSrc =>
      match loadImage n textureSrc with
      | OnLoad img None =>
          mkDrawState (S (loadedCount st)) (failedCount st)
            (drawLog st ++
               [DrawImage img
                  (Fin 0) (Fin 0) (Fin (img_width img)) (Fin (img_height img))
                  (jsSub (Fin (tileX tile)) (minX b))
                  (jsSub (Fin (tileY tile)) (minY b))
                  (Fin (tileWidth tile)) (Fin (tileHeight tile))])
      | OnLoad img (Some err) =>
          fail [Lit "Error drawing tile image: "; Str (thrownToString err)]
      | OnError =>
          fail [Lit "Failed to load tile image: "; Str textureSrc]
      | Raises err =>
          fail [Lit "Error processing tile: "; Str (thrownToString err)]
      end
  end.

(** [for (const tile of tiles) { try { ... } catch (err) { ... } }],
    second pass; [n] is the position of the first tile of [tiles]. *)
Fixpoint drawTiles (b : Bounds) (n : nat) (tiles : list Tile)
    (st : DrawState) : DrawState :=
  match tiles with
  | [] => st
  | tile :: rest => drawTiles b (S n) rest (drawTile b n tile st)
  end.

(** [scene.name?.replace(/\s+/g, "_") || "scene"] *)
Definition sceneFileStem (name : option string) : string :=
  match name with
  | Some name =>
      default "scene" (truthyString (Some (replaceWhitespace false name)))
  | None => "scene"
  end.

(** The encoding and download step, with its own [try]/[catch]. *)
Definition saveComposite (scene : Scene) (loaded : nat) (lg : list Event)
  : list Event :=
  if negb toBlob
  then lg ++ [Notify Error [Lit "Failed to create image blob."]]
  else
    let fileName := sceneFileStem (scene_name scene) +:+ "_tiles.png" in
    match fileSaver with
    | Some exportErr =>
        lg ++ [ConsoleError "Image export error:" exportErr;
               Notify Error [Lit "Failed to export image: ";
                             Str (errorText exportErr)]]
    | None =>
        lg ++ [SaveAs fileName;
               Notify Info [Lit "Scene tiles exported successfully (";
                            Num (ofNat loaded); Lit " tiles)."]]
    end.

(** [exportSceneTilesAsImage()] *)
Definition exportSceneTilesAsImage (w : World Scene) : World Scene :=
  match current w with
  | None => notify Error [Lit "No active scene found."] w
  | Some scene =>
      match scene_tiles scene with
      | None | Some [] =>
          notify Warn [Lit "The current scene has no tiles to export."] w
      | Some tiles =>
          let w := emit CreateCanvas w in
          if negb getContext2d
          then notify Error
                 [Lit "Unable to create canvas context for tile export."] w
          else
            let w :=
              notify Info [Lit "Preparing to export ";
                           Num (ofNat (length tiles)); Lit " tiles..."] w in
            let b := computeBounds tiles in
            let canvasWidth := canvasWidth b in
            let canvasHeight := canvasHeight b in
            if jsGt canvasWidth MAX_DIMENSION
               || jsGt canvasHeight MAX_DIMENSION
            then
              notify Error
                [Lit "Canvas size too large ("; Num canvasWidth; Lit "x";
                 Num canvasHeight;
                 Lit "). Maximum supported dimensions are ";
                 Num MAX_DIMENSION; Lit "x"; Num MAX_DIMENSION; Lit "."] w
            else
              let w := emit (SetCanvasSize canvasWidth canvasHeight) w in
              let w :=
                emit (ClearRect (Fin 0) (Fin 0) canvasWidth canvasHeight) w in
              let w := notify Info [Lit "Loading tile images..."] w in
              let st := drawTiles b 0 tiles (mkDrawState 0 0 (log w)) in
              let lg :=
                if decide (0 < failedCount st)
                then drawLog st ++
                       [Notify Warn [Num (ofNat (failedCount st));
                                     Lit " tiles could not be loaded or drawn."]]
                else drawLog st in
              mkWorld (current w) (saveComposite scene (loadedCount st) lg)
      end
  end.

End TileCompositor.

(** ** The module logger *)

(** [a < b] *)
Definition jsLt (a b : number) : bool :=
  match a, b with
  | NaN, _ | _, NaN => false
  | PosInf, _ | _, NegInf => false
  | NegInf, _ | _, PosInf => true
  | Fin x, Fin y => negb (Qle_bool y x)
  end.

(** A line on the browser console: the text and the further arguments. *)
Inductive ConsoleLine :=
| Console_log (text : string) (args : list jsval)
| Console_warn (text : string) (args : list jsval)
| Console_error (text : string) (args : list jsval).

Module ModuleLogger.
Section Logger.
(** [moduleId] comes from [constants.ts]; [logLevel] is what
    [game.settings.get(moduleId, "logLevel")] returns, or what it throws
    while the setting is not registered. *)
Variable moduleId : string.
Variable logLevel : Thrown + number.

(** [debugLevel()]: the level, and what the call prints. *)
Definition debugLevel : number * list ConsoleLine :=
  match logLevel with
  | inr level => (level, [])
  | inl _ =>
      (ofZ 2,
       [Console_warn
          (moduleId +:+ " | Settings not ready, using default log level") []])
  end.

(** The text of a line: the module id, a bar, the message. *)
Definition prefixed (message : string) : string :=
  moduleId +:+ " | " +:+ message.

Definition debug (message : string) (args : list jsval) : list ConsoleLine :=
  let '(level, out) := debugLevel in
  if jsLt level (ofZ 1) then out ++ [Console_log (prefixed message) args]
  else out.

Definition info (message : string) (args : list jsval) : list ConsoleLine :=
  let '(level, out) := debugLevel in
  if jsLt level (ofZ 2) then out ++ [Console_log (prefixed message) args]
  else out.

Definition warn (message : string) (args : list jsval) : list ConsoleLine :=
  let '(level, out) := debugLevel in
  if jsLt level (ofZ 3) then out ++ [Console_warn (prefixed message) args]
  else out.

Definition error (message : string) (args : list jsval) : list ConsoleLine :=
  let '(level, out) := debugLevel in
  if jsLt level (ofZ 4) then out ++ [Console_error (prefixed message) args]
  else out.

End Logger.
End ModuleLogger.

(** ** Scene control buttons *)

(** What a tool does when it is clicked: one of the three handlers the
    module installs, or a handler of the host's own. *)
Inductive Action :=
| RenderWallManagementDialog
| CopySceneImageUrl
| ExportSceneTilesAsImage
| HostAction (id : string).

Record Tool := mkTool {
  tool_name : string;
  tool_title : string;
  tool_icon : string;
  tool_onClick : Action;
  tool_button : bool;
}.

(** A control group of the scene controls; [tools] may be missing. *)
Record Control := mkControl {
  control_name : string;
  control_tools : option (list Tool);
}.

(** [tools.some(t => t.name === name)] *)
Definition hasTool (name : string) (tools : list Tool) : bool :=
  existsb (fun t => bool_decide (tool_name t = name)) tools.

Definition wallManagementTool : Tool :=
  mkTool "wall-management" "Wall Import/Export" "fas fa-exchange-alt"
    RenderWallManagementDialog true.

Definition copySceneImageTool : Tool :=
  mkTool "copy-scene-image" "Copy Scene Image URL" "fas fa-image"
    CopySceneImageUrl true.

Definition exportTilesTool : Tool :=
  mkTool "export-tiles" "Export Tiles as Image" "fas fa-th-large"
    ExportSceneTilesAsImage true.

(** The body of the hook on the tools of the walls group: the first two
    checks are made before anything is pushed, the third after. *)
Definition addWallTools (tools : list Tool) : list Tool :=
  let hasWallManagement := hasTool "wall-management" tools in
  let hasCopyImage := hasTool "copy-scene-image" tools in
  let tools :=
    if negb hasWallManagement then tools ++ [wallManagementTool] else tools in
  let tools :=
    if negb hasCopyImage then tools ++ [copySceneImageTool] else tools in
  let hasExportTiles := hasTool "export-tiles" tools in
  if negb hasExportTiles then tools ++ [exportTilesTool] else tools.

(** The [getSceneControlButtons] hook: [controls.find] stops at the first
    group named "walls", and the group is extended in place when it has
    tools. *)
Fixpoint getSceneControlButtons (controls : list Control) : list Control :=
  match controls with
  | [] => []
  | c :: rest =>
      if bool_decide (control_name c = "walls")
      then match control_tools c with
           | Some tools =>
               mkControl (control_name c) (Some (addWallTools tools)) :: rest
           | None => c :: rest
           end
      else c :: getSceneControlButtons rest
  end.

(** * Part II: what the claims speak of *)

(** ** Batches *)

(** [ceil(n / BATCH_SIZE)] *)
Definition batchCount (n : nat) : nat := (n + (BATCH_SIZE - 1)) / BATCH_SIZE.

(** The [j]-th batch of the loop started at index [i]. *)
Definition batchAt (wallData : list record) (i j : nat) : list record :=
  Array_slice (i + j * BATCH_SIZE) (i + j * BATCH_SIZE + BATCH_SIZE) wallData.

Definition batchesFrom (i : nat) (wallData : list record) : list (list record) :=
  batchAt wallData i <$> seq 0 (batchCount (length wallData - i)).

(** The partition of the payload into consecutive batches. *)
Definition batches (wallData : list record) : list (list record) :=
  batchesFrom 0 wallData.

(** ** Reading the event log *)

Definition createCall (e : Event) : option (list record * option Thrown) :=
  match e with
  | CreateEmbeddedDocuments _ batch failure => Some (batch, failure)
  | _ => None
  end.

(** The bulk-create calls of a log, in order, each with its outcome. *)
Definition createCalls (lg : list Event) : list (list record * option Thrown) :=
  omap createCall lg.

Definition succeeded (batch : list record) : list record * option Thrown :=
  (batch, None).

Definition isPaddingWarning (e : Event) : bool :=
  match e with
  | PaddingWarning _ _ => true
  | _ => false
  end.

(** Host document creation and exported output: a bulk create, a
    clipboard write, a saved file. *)
Definition isOutput (e : Event) : bool :=
  match e with
  | CreateEmbeddedDocuments _ _ _ | ClipboardWriteText _
  | SaveDataToFile _ _ _ => true
  | _ => false
  end.

(** ** Records and rectangles *)

(** Two records agree on every field but the identity. *)
Definition sameGeometry (doc orig : record) : Prop :=
  forall field, field <> "_id" -> doc !! field = orig !! field.

(** [m] is the least of the values [f] takes on the tiles. *)
Definition isMinOf (m : Q) (f : Tile -> Q) (tiles : list Tile) : Prop :=
  (forall t, t ∈ tiles -> (m <= f t)%Q)
  /\ exists t, t ∈ tiles /\ (m == f t)%Q.

(** Two numbers are the same value. *)
Definition sameNumber (a b : number) : Prop :=
  match a, b with
  | Fin x, Fin y => (x == y)%Q
  | NaN, NaN | NegInf, NegInf | PosInf, PosInf => True
  | _, _ => False
  end.

(** [m] is the greatest of the values [f] takes on the tiles, in the
    order of the language's [<=]. *)
Definition isMaxOf (m : number) (f : Tile -> number) (tiles : list Tile)
  : Prop :=
  (forall t, t ∈ tiles -> jsLe (f t) m = true)
  /\ exists t, t ∈ tiles /\ sameNumber m (f t).

(** The right and the bottom edge of a tile, as the first pass computes
    them: binary64 sums. *)
Definition tileRight (t : Tile) : number :=
  jsAdd (Fin (tileX t)) (Fin (tileWidth t)).
Definition tileBottom (t : Tile) : number :=
  jsAdd (Fin (tileY t)) (Fin (tileHeight t)).

(** The tightest rectangle around the tiles. *)
Definition tightest (b : Bounds) (tiles : list Tile) : Prop :=
  exists (x0 y0 : Q) (x1 y1 : number),
    b = mkBounds (Fin x0) (Fin y0) x1 y1
    /\ isMinOf x0 tileX tiles /\ isMinOf y0 tileY tiles
    /\ isMaxOf x1 tileRight tiles /\ isMaxOf y1 tileBottom tiles.

(** A rational that is a binary64 value: rounding leaves it as it is. *)
Definition isDouble (q : Q) : Prop :=
  exists v, round64 q = Fin v /\ (v == q)%Q.

(** The binary64 value a decimal literal denotes. *)
Definition double (q : Q) : Q :=
  match round64 q with
  | Fin v => v
  | _ => 0
  end.

(** A canvas dimension strictly greater than 16384. *)
Definition exceedsLimit (n : number) : Prop :=
  match n with
  | PosInf => True
  | Fin q => (16384 < q)%Q
  | NaN | NegInf => False
  end.

(** ** Padding *)

(** The padding of a scene is the number zero. *)
Definition isZeroPadding (v : jsval) : Prop :=
  exists q, v = JNum (Fin q) /\ (q == 0)%Q.

(** ** Image sources *)

(** The four places of a tile record a source can be in; [None] when
    the place, or the record that holds it, is missing. *)
Definition directTexture (t : Tile) : option string :=
  match tile_texture t with
  | Some texture => src texture
  | None => None
  end.

Definition nestedTexture (t : Tile) : option string :=
  match tile_document t with
  | Some document =>
      match doc_texture document with
      | Some texture => src texture
      | None => None
      end
  | None => None
  end.

Definition directImage (t : Tile) : option string := tile_img t.

Definition nestedImage (t : Tile) : option string :=
  match tile_document t with
  | Some document => doc_img document
  | None => None
  end.

(** The candidate sources of a tile, in the order of the priority list:
    direct texture, nested document texture, direct image, nested
    document image. *)
Definition sourceCandidates (t : Tile) : list (option string) :=
  [directTexture t; nestedTexture t; directImage t; nestedImage t].

(** The first candidate that is there and is not the empty string. *)
Fixpoint firstNonEmpty (candidates : list (option string)) : option string :=
  match candidates with
  | [] => None
  | None :: rest => firstNonEmpty rest
  | Some s :: rest => if decide (s = EmptyString) then firstNonEmpty rest
                      else Some s
  end.

(** ** Runs against a host *)

Section Vocabulary.
Context {Scene : Type} {host : Host Scene} {browser : Platform}.

(** One bulk-create call per batch, in order, stopping at the first
    call that raises; a progress line follows every batch but the
    last. *)
Fixpoint createAll (totalWalls : nat) (bs : list (list record))
    (count : nat) (scene : Scene) (lg : list Event) : LoopExit Scene :=
  match bs with
  | [] => mkLoopExit None count scene lg
  | batch :: rest =>
      match createEmbeddedDocuments "Wall" batch scene with
      | (Some e, scene') =>
          mkLoopExit (Some e) count scene'
            (lg ++ [CreateEmbeddedDocuments "Wall" batch (Some e)])
      | (None, scene') =>
          createAll totalWalls rest (count + length batch) scene'
            (lg ++ [CreateEmbeddedDocuments "Wall" batch None]
                ++ (if rest is [] then []
                    else [Notify Info
                            [Lit "Created ";
                             Num (ofNat (count + length batch));
                             Lit " of "; Num (ofNat totalWalls);
                             Lit " walls..."]]))
      end
  end.

(** The scene after a sequence of bulk-create calls, each one run on the
    scene the previous call left. *)
Definition afterCalls (bs : list (list record)) (scene : Scene) : Scene :=
  foldl (fun s batch => (createEmbeddedDocuments "Wall" batch s).2) scene bs.

(** Whether an operation gets past the padding check of a scene: the
    padding is zero, or the user chooses to continue. *)
Definition gatePasses (operation : string) (scene : Scene) : bool :=
  negb (strictNeqZero (scene_padding scene)) || dialogAnswer operation.

(** What the padding check adds to the log. *)
Definition gateEvents (operation : string) (scene : Scene) : list Event :=
  if strictNeqZero (scene_padding scene)
  then [PaddingWarning operation (dialogAnswer operation)]
  else [].

(** How [processWallImport] ends once the batch loop is left. *)
Definition finishImport (out : LoopExit Scene) : World Scene :=
  match thrown out with
  | None =>
      mkWorld (Some (sceneAfter out))
        (logAfter out ++
           [Notify Info [Lit "Successfully created ";
                         Num (ofNat (createdCount out)); Lit " walls!"]])
  | Some error =>
      mkWorld (Some (sceneAfter out))
        (logAfter out ++
           [Notify Error [Lit "Error processing walls:";
                          Str (errorText error)];
            ConsoleError "Wall import error:" error])
  end.

(** The host's side of the round trip: a bulk create of records it
    accepts raises nothing and appends one document per record, in order,
    that differs from the record in the identity only. *)
Definition createsFaithfully (wellFormed : record -> Prop) : Prop :=
  forall batch scene, Forall wellFormed batch ->
    exists scene' docs,
      createEmbeddedDocuments "Wall" batch scene = (None, scene')
      /\ scene_walls scene' = scene_walls scene ++ docs
      /\ Forall2 sameGeometry docs batch.

(** Whether the [n]-th tile ends up drawn: its source resolves, the image
    loads, and [drawImage] does not throw. *)
Definition tileSucceeds (n : nat) (tile : Tile) : bool :=
  match textureSrc tile with
  | Some s =>
      match loadImage n s with
      | OnLoad _ None => true
      | _ => false
      end
  | None => false
  end.

(** How many of the tiles, the first at position [n], end up drawn. *)
Fixpoint countSucceeding (n : nat) (tiles : list Tile) : nat :=
  match tiles with
  | [] => 0
  | tile :: rest =>
      (if tileSucceeds n tile then 1 else 0) + countSucceeding (S n) rest
  end.

End Vocabulary.

(** ** More of the event log *)

(** The count and the total of a progress line of the import. *)
Definition progressLine (e : Event) : option (number * number) :=
  match e with
  | Notify Info [Lit "Created "; Num count; Lit " of "; Num total;
                 Lit " walls..."] => Some (count, total)
  | _ => None
  end.

Definition progressLines (lg : list Event) : list (number * number) :=
  omap progressLine lg.

Definition isDrawImage (e : Event) : bool :=
  match e with
  | DrawImage _ _ _ _ _ _ _ _ _ => true
  | _ => false
  end.

Definition isLoggerWarn (e : Event) : bool :=
  match e with
  | LoggerWarn _ => true
  | _ => false
  end.

Definition isSaveAs (e : Event) : bool :=
  match e with
  | SaveAs _ => true
  | _ => false
  end.

(** The code points [\s] matches: the WhiteSpace and LineTerminator
    characters of the language. *)
Definition whiteSpaceCodePoints : list N :=
  [0x0009; 0x000A; 0x000B; 0x000C; 0x000D; 0x0020; 0x00A0; 0x1680;
   0x2000; 0x2001; 0x2002; 0x2003; 0x2004; 0x2005; 0x2006; 0x2007;
   0x2008; 0x2009; 0x200A; 0x2028; 0x2029; 0x202F; 0x205F; 0x3000;
   0xFEFF]%N.

(** The UTF-8 encoding of a code point below [0x10000]. *)
Definition utf8 (cp : N) : string :=
  if (cp <? 0x80)%N then String (ascii_of_N cp) EmptyString
  else if (cp <? 0x800)%N
  then String (ascii_of_N (0xC0 + cp / 0x40))
         (String (ascii_of_N (0x80 + cp mod 0x40)) EmptyString)
  else String (ascii_of_N (0xE0 + cp / 0x1000))
         (String (ascii_of_N (0x80 + (cp / 0x40) mod 0x40))
            (String (ascii_of_N (0x80 + cp mod 0x40)) EmptyString)).

(** The string has a white space character in it. *)
Definition hasWhitespace (s : string) : Prop :=
  exists cp before after,
    cp ∈ whiteSpaceCodePoints /\ s = before +:+ utf8 cp +:+ after.

(** No white space character starts anywhere in the string. *)
Fixpoint noWhitespace (s : string) : bool :=
  match s with
  | EmptyString => true
  | String c rest =>
      bool_decide (whitespaceLength s = 0) && noWhitespace rest
  end.

(** The records the successful calls of a list of calls created. *)
Definition createdBy (calls : list (list record * option Thrown))
  : list record :=
  concat (omap (fun call => if call.2 is None then Some call.1 else None)
            calls).

Section MoreVocabulary.
Context {Scene : Type} {host : Host Scene} {browser : Platform}.

(** The [drawImage] call the [n]-th tile leads to, if it is drawn. *)
Definition drawEvent (b : Bounds) (n : nat) (tile : Tile) : option Event :=
  match textureSrc tile with
  | Some s =>
      match loadImage n s with
      | OnLoad img None =>
          Some (DrawImage img
                  (Fin 0) (Fin 0) (Fin (img_width img)) (Fin (img_height img))
                  (jsSub (Fin (tileX tile)) (minX b))
                  (jsSub (Fin (tileY tile)) (minY b))
                  (Fin (tileWidth tile)) (Fin (tileHeight tile)))
      | _ => None
      end
  | None => None
  end.

(** The [drawImage] calls of a list of tiles, the first at position
    [n], in the order of the list. *)
Fixpoint drawEvents (b : Bounds) (n : nat) (tiles : list Tile) : list Event :=
  match tiles with
  | [] => []
  | tile :: rest =>
      match drawEvent b n tile with
      | Some e => e :: drawEvents b (S n) rest
      | None => drawEvents b (S n) rest
      end
  end.

(** The tile export gets as far as the download: a scene with tiles is
    current, the canvas has a 2d context and is within the size limit,
    the canvas encodes to a blob and the file saver does not throw. *)
Definition reachesDownload (w : World Scene) (scene : Scene)
    (tiles : list Tile) : Prop :=
  current w = Some scene
  /\ scene_tiles scene = Some tiles /\ tiles <> []
  /\ getContext2d = true
  /\ ~ exceedsLimit (canvasWidth (computeBounds tiles))
  /\ ~ exceedsLimit (canvasHeight (computeBounds tiles))
  /\ toBlob = true /\ fileSaver = None.

End MoreVocabulary.

(** * Part III: a reference host and sample data *)

(** Modelled from the spec: the host scene collaborator (section 6), which
    is not part of this repository.  A scene keeps its wall documents in
    creation order; a bulk create validates the whole batch, raises
    without creating anything when a record is rejected, and otherwise
    appends every record under a new [_id]. *)
Record RefScene := mkRefScene {
  ref_padding : jsval;
  ref_name : option string;
  ref_walls : list record;
  ref_tiles : option (list Tile);
  ref_nextId : nat;
}.

(** The reference host accepts a wall record that has coordinates [c]. *)
Definition refValid (r : record) : bool := bool_decide (is_Some (r !! "c")).

Definition refAssignId (first : nat) (i : nat) (r : record) : record :=
  <["_id" := JStr ("wall" +:+ pretty (first + i))]> r.

Definition refCreate (type : string) (batch : list record) (s : RefScene)
  : option Thrown * RefScene :=
  if forallb refValid batch
  then (None,
        mkRefScene (ref_padding s) (ref_name s)
          (ref_walls s ++ imap (refAssignId (ref_nextId s)) batch)
          (ref_tiles s) (ref_nextId s + length batch))
  else (Some (ErrorObj "DataModelValidationError" "Wall validation errors"), s).

#[export] Instance refHost : Host RefScene := {|
  scene_padding := ref_padding;
  scene_name := ref_name;
  scene_walls := ref_walls;
  scene_tiles := ref_tiles;
  createEmbeddedDocuments := refCreate;
|}.

(** A browser session in which the imported text parses to [payload], the
    user answers every padding dialog with [answer], and the image of a
    tile loads according to [images].  The TypeError of a destructuring
    has the text V8 gives it. *)
Definition session (payload : Thrown + jsval) (answer : bool)
    (images : nat -> string -> ImageEvent) : Platform := {|
  JSON_parse := fun _ => payload;
  JSON_stringify := fun _ => "[...]";
  dialogAnswer := fun _ => answer;
  clipboard_readText := inr "[...]";
  clipboard_writeText := fun _ => None;
  getContext2d := true;
  loadImage := images;
  toBlob := true;
  fileSaver := None;
  destructureMessage := fun wall =>
    "Cannot destructure property '_id' of 'wall' as it is "
    +:+ (if wall is JNull then "null" else "undefined") +:+ ".";
|}.

(** A tile with the given direct position and size and a nested document
    with the given position; nothing else is set. *)
Definition tileOver (x y width height : option Q) (docX docY : option Q)
  : Tile :=
  {| tile_width := width; tile_height := height;
     tile_x := x; tile_y := y;
     tile_texture := None; tile_img := None;
     tile_document :=
       Some {| doc_width := None; doc_height := None;
               doc_x := docX; doc_y := docY;
               doc_texture := None; doc_img := None |} |}.

(** A tile with a direct position, size and image, and no nested
    document. *)
Definition plainTile (x y width height : Q) (image : string) : Tile :=
  {| tile_width := Some width; tile_height := Some height;
     tile_x := Some x; tile_y := Some y;
     tile_texture := None; tile_img := Some image;
     tile_document := None |}.

(** A wall segment as the host exports it. *)
Definition sampleWall (id : string) (length : Z) : record :=
  <["_id" := JStr id]>
    (<["c" := JArr [JNum (ofZ 0); JNum (ofZ 0); JNum (ofZ length); JNum (ofZ 0)]]>
       (<["door" := JNum (ofZ 0)]> ∅)).

(** A record without coordinates, which the reference host rejects. *)
Definition rejectedWall : record := <["door" := JNum (ofZ 1)]> ∅.

Definition emptyScene : RefScene :=
  mkRefScene (JNum (Fin 0)) (Some "Cellar") [] None 0.

(** A scene that already has a wall. *)
Definition furnishedScene : RefScene :=
  mkRefScene (JNum (Fin 0)) (Some "Attic")
    [sampleWall "wall0" 30] None 1.

(** A scene with a padding of one quarter. *)
Definition paddedScene : RefScene :=
  mkRefScene (JNum (Fin (1 # 4))) (Some "Cellar") [] None 0.

Definition noImages : nat -> string -> ImageEvent := fun _ _ => OnError.

(** Two hundred and fifty walls: three batches. *)
Definition bundle250 : list record := replicate 250 (sampleWall "abc" 10).

(** One hundred and fifty records of which number 120 is rejected. *)
Definition bundle150 : list record :=
  replicate 119 (sampleWall "abc" 10)
    ++ rejectedWall :: replicate 30 (sampleWall "abc" 10).

Definition wideTile : Tile := plainTile 0 0 16385 10 "wide.png".

(** Four image fates: drawn, not loaded, loaded but not drawable, and an
    exception while the tile is processed. *)
Definition fourFates : nat -> string -> ImageEvent :=
  fun n s =>
    match n with
    | 0 => OnLoad {| img_src := s; img_width := 64; img_height := 32 |} None
    | 1 => OnError
    | 2 => OnLoad {| img_src := s; img_width := 64; img_height := 32 |}
             (Some (ErrorObj "Error" "tainted canvas"))
    | _ => Raises (NonError "boom")
    end.

(** A tile that names its image in all four places. *)
Definition fourSources : Tile :=
  {| tile_width := Some 4%Q; tile_height := Some 4%Q;
     tile_x := Some 1%Q; tile_y := Some 1%Q;
     tile_texture := Some {| src := Some "direct.webp" |};
     tile_img := Some "direct.png";
     tile_document :=
       Some {| doc_width := None; doc_height := None;
               doc_x := None; doc_y := None;
               doc_texture := Some {| src := Some "nested.webp" |};
               doc_img := Some "nested.png" |} |}.

(** The same tile with an empty direct texture source. *)
Definition emptyDirectSource : Tile :=
  {| tile_width := Some 4%Q; tile_height := Some 4%Q;
     tile_x := Some 1%Q; tile_y := Some 1%Q;
     tile_texture := Some {| src := Some "" |};
     tile_img := Some "direct.png";
     tile_document :=
       Some {| doc_width := None; doc_height := None;
               doc_x := None; doc_y := None;
               doc_texture := Some {| src := Some "nested.webp" |};
               doc_img := Some "nested.png" |} |}.

(** A scene whose padding is not a number: the text "0". *)
Definition textPaddingScene : RefScene :=
  mkRefScene (JStr "0") (Some "Cellar") [] None 0.

(** A scene whose name has whitespace, and one without a name. *)
Definition millScene : RefScene :=
  mkRefScene (JNum (Fin 0))
    (Some ("Old" +:+ utf8 0xA0 +:+ " mill" +:+ utf8 0x3000 +:+ "yard"))
    [sampleWall "wall0" 30] None 1.

Definition namelessScene : RefScene :=
  mkRefScene (JNum (Fin 0)) None [sampleWall "wall0" 30] None 1.

(** Two tiles apart from each other. *)
Definition farTile : Tile := plainTile 10 20 5 5 "far.png".
Definition nearTile : Tile := plainTile 0 0 2 2 "near.png".

(** Single tiles for the size check: 16384 wide; 16384 wide at
    x = 16384.3; without extent at (1.2, 7); without extent at
    x = 2^53. *)
Definition exactTile : Tile := plainTile 0 0 16384 10 "exact.png".
Definition offsetTile : Tile :=
  plainTile (double (163843 # 10)) 0 16384 10 "offset.png".
Definition pointTile : Tile := plainTile (double (12 # 10)) 7 0 0 "point.png".
Definition hugeTile : Tile := plainTile 9007199254740992 0 0 0 "huge.png".

(** * Part IV: properties *)

(** ** The partition into batches *)

Lemma batchCount_0 : batchCount 0 = 0.
Proof. reflexivity. Qed.

Lemma batchCount_pos n : 0 < n -> batchCount n = S (batchCount (n - BATCH_SIZE)).
Proof.
  intros Hn. unfold batchCount, BATCH_SIZE. simpl Nat.sub at 1 3.
  destruct (decide (n < 100)) as [Hlt | Hge].
  - replace (n - 100) with 0 by lia.
    change ((0 + 99) / 100) with 0.
    symmetry. apply (Nat.div_unique _ _ _ (n - 1)); lia.
  - replace (n + 99) with ((n - 100 + 99) + 1 * 100) by lia.
    rewrite Nat.div_add by lia. lia.
Qed.

Lemma batchCount_bounds n :
  BATCH_SIZE * batchCount n < n + BATCH_SIZE /\ n <= BATCH_SIZE * batchCount n.
Proof.
  unfold batchCount, BATCH_SIZE. simpl Nat.sub.
  pose proof (Nat.div_mod_eq (n + 99) 100) as Hdm.
  pose proof (Nat.mod_upper_bound (n + 99) 100). lia.
Qed.

Lemma batchAt_shift wallData i j :
  batchAt wallData i (S j) = batchAt wallData (i + BATCH_SIZE) j.
Proof. unfold batchAt. f_equal; lia. Qed.

Lemma batchesFrom_done i wallData :
  ~ i < length wallData -> batchesFrom i wallData = [].
Proof.
  intros Hi. unfold batchesFrom.
  replace (length wallData - i) with 0 by lia. reflexivity.
Qed.

Lemma batchesFrom_step i wallData :
  i < length wallData ->
  batchesFrom i wallData =
    Array_slice i (i + BATCH_SIZE) wallData
      :: batchesFrom (i + BATCH_SIZE) wallData.
Proof.
  intros Hi. unfold batchesFrom.
  rewrite batchCount_pos by lia. cbn [seq fmap list_fmap].
  f_equal.
  - unfold batchAt. f_equal; lia.
  - rewrite <- fmap_S_seq, <- list_fmap_compose.
    replace (length wallData - i - BATCH_SIZE)
      with (length wallData - (i + BATCH_SIZE)) by lia.
    apply list_fmap_ext. intros _ j _. apply batchAt_shift.
Qed.

Lemma batchesFrom_nil_iff i wallData :
  batchesFrom i wallData = [] <-> ~ i < length wallData.
Proof.
  split.
  - intros Hnil Hi. rewrite batchesFrom_step in Hnil by done. discriminate.
  - apply batchesFrom_done.
Qed.

Lemma length_batches wallData :
  length (batches wallData) = batchCount (length wallData).
Proof.
  unfold batches, batchesFrom. rewrite length_fmap, length_seq. f_equal. lia.
Qed.

Lemma length_Array_slice {A} from to (l : list A) :
  length (Array_slice from to l) = (to - from) `min` (length l - from).
Proof. unfold Array_slice. rewrite length_take, length_drop. reflexivity. Qed.

Lemma batches_lookup wallData j :
  j < batchCount (length wallData) ->
  batches wallData !! j = Some (batchAt wallData 0 j).
Proof.
  intros Hj. unfold batches, batchesFrom.
  replace (length wallData - 0) with (length wallData) by lia.
  rewrite list_lookup_fmap, lookup_seq_lt by lia. reflexivity.
Qed.

Lemma batches_lookup_Some wallData j batch :
  batches wallData !! j = Some batch ->
  j < batchCount (length wallData) /\ batch = batchAt wallData 0 j.
Proof.
  intros Hj. pose proof (lookup_lt_Some _ _ _ Hj) as Hlt.
  rewrite length_batches in Hlt. rewrite batches_lookup in Hj by done.
  split; [done | congruence].
Qed.

Lemma batch_size_le wallData :
  Forall (fun batch => length batch <= BATCH_SIZE) (batches wallData).
Proof.
  apply Forall_lookup. intros j batch Hj.
  apply batches_lookup_Some in Hj as [_ ->].
  unfold batchAt. rewrite length_Array_slice. lia.
Qed.

(** Every batch but the last is full. *)
Lemma batch_full wallData j :
  S j < batchCount (length wallData) ->
  length (batchAt wallData 0 j) = BATCH_SIZE.
Proof.
  intros Hj. unfold batchAt. rewrite length_Array_slice.
  pose proof (batchCount_bounds (length wallData)) as [Hup _].
  unfold BATCH_SIZE in *. lia.
Qed.

Lemma concat_batchesFrom wallData i :
  concat (batchesFrom i wallData) = drop i wallData.
Proof.
  remember (length wallData - i) as n eqn:Hn.
  revert i Hn. induction (lt_wf n) as [n _ IH]. intros i ->.
  destruct (decide (i < length wallData)) as [Hi | Hi].
  - rewrite batchesFrom_step by done. cbn [concat].
    rewrite (IH (length wallData - (i + BATCH_SIZE)))
      by (unfold BATCH_SIZE; lia || reflexivity).
    unfold Array_slice.
    replace (i + BATCH_SIZE - i) with BATCH_SIZE by lia.
    rewrite <- drop_drop. apply take_drop.
  - rewrite batchesFrom_done by done. rewrite drop_ge by lia. reflexivity.
Qed.

Lemma concat_batches wallData : concat (batches wallData) = wallData.
Proof. apply (concat_batchesFrom wallData 0). Qed.

(** The first [j] batches hold [j * BATCH_SIZE] records when a batch
    number [j] exists. *)
Lemma length_concat_take_batches wallData j :
  j < batchCount (length wallData) ->
  length (concat (take j (batches wallData))) = j * BATCH_SIZE.
Proof.
  induction j as [| j IH]; intros Hj; [reflexivity |].
  rewrite (take_S_r _ _ (batchAt wallData 0 j))
    by (apply batches_lookup; lia).
  rewrite concat_app, length_app, IH by lia. cbn [concat].
  rewrite app_nil_r, batch_full by lia. lia.
Qed.

Lemma batches_Forall (P : record -> Prop) wallData :
  Forall P wallData -> Forall (Forall P) (batches wallData).
Proof.
  intros HP. apply Forall_lookup. intros j batch Hj.
  apply batches_lookup_Some in Hj as [_ ->].
  unfold batchAt, Array_slice. by apply Forall_take, Forall_drop.
Qed.

(** ** The batch loop *)

Section BatchLoop.
Context {Scene : Type} {host : Host Scene} {browser : Platform}.

(** The index loop of the source is this fold over [batchesFrom]. *)
Lemma batchLoop_createAll wallData totalWalls i count scene lg :
  batchLoop wallData totalWalls i count scene lg =
  createAll totalWalls (batchesFrom i wallData) count scene lg.
Proof.
  funelim (batchLoop wallData totalWalls i count scene lg).
  - rewrite batchesFrom_done by done. reflexivity.
  - rewrite batchesFrom_step by done. cbn [createAll].
    rewrite Heq. reflexivity.
  - rewrite batchesFrom_step by done. cbn [createAll].
    rewrite Heq.
    match goal with
    | IH : batchLoop _ _ _ _ _ _ = createAll _ _ _ _ _ |- _ => rewrite IH
    end.
    destruct (decide (i + BATCH_SIZE < length wallData)) as [Hlt | Hge].
    + rewrite (batchesFrom_step (i + BATCH_SIZE)) by done. reflexivity.
    + rewrite (batchesFrom_done (i + BATCH_SIZE)) by done. reflexivity.
Qed.

Lemma createCalls_app lg1 lg2 :
  createCalls (lg1 ++ lg2) = createCalls lg1 ++ createCalls lg2.
Proof. apply omap_app. Qed.

Lemma afterCalls_snoc bs batch scene :
  afterCalls (bs ++ [batch]) scene =
  (createEmbeddedDocuments "Wall" batch (afterCalls bs scene)).2.
Proof. unfold afterCalls. rewrite foldl_app. reflexivity. Qed.

(** The log is only ever appended to, and nothing else depends on it. *)
Lemma createAll_log total bs count scene lg :
  createAll total bs count scene lg =
  let out := createAll total bs count scene [] in
  mkLoopExit (thrown out) (createdCount out) (sceneAfter out)
    (lg ++ logAfter out).
Proof.
  revert count scene lg. induction bs as [| batch rest IH]; intros count scene lg.
  - cbn. rewrite app_nil_r. reflexivity.
  - cbn [createAll].
    destruct (createEmbeddedDocuments "Wall" batch scene) as [[e |] scene'].
    + reflexivity.
    + rewrite IH. rewrite (IH _ _ ([] ++ _)). cbn.
      rewrite <- !app_assoc. reflexivity.
Qed.

(** Whatever the host answers, the calls issued are the leading batches,
    in order. *)
Lemma createAll_prefix total bs count scene lg :
  exists calls,
    createCalls (logAfter (createAll total bs count scene lg))
    = createCalls lg ++ calls
    /\ calls.*1 `prefix_of` bs.
Proof.
  revert count scene lg. induction bs as [| batch rest IH]; intros count scene lg.
  - exists []. cbn. by rewrite app_nil_r.
  - cbn [createAll].
    destruct (createEmbeddedDocuments "Wall" batch scene) as [[e |] scene'].
    + exists [(batch, Some e)]. cbn [logAfter]. rewrite createCalls_app.
      split; [reflexivity |]. by exists rest.
    + destruct (IH (count + length batch) scene'
                  (lg ++ [CreateEmbeddedDocuments "Wall" batch None]
                      ++ (if rest is [] then []
                          else [Notify Info
                                  [Lit "Created ";
                                   Num (ofNat (count + length batch));
                                   Lit " of "; Num (ofNat total);
                                   Lit " walls..."]])))
        as (calls & -> & Hprefix).
      exists ((batch, None) :: calls). split.
      * rewrite !createCalls_app. cbn [createCalls omap list_omap createCall].
        replace (createCalls (if rest is [] then [] else _)) with
          (@nil (list record * option Thrown)) by (by destruct rest).
        rewrite app_nil_r, <- app_assoc. reflexivity.
      * cbn [fmap list_fmap fst]. by apply prefix_cons.
Qed.

(** A run in which every call succeeds. *)
Lemma createAll_success total bs count scene lg :
  thrown (createAll total bs count scene lg) = None ->
  createCalls (logAfter (createAll total bs count scene lg))
    = createCalls lg ++ (succeeded <$> bs)
  /\ createdCount (createAll total bs count scene lg)
    = count + length (concat bs)
  /\ sceneAfter (createAll total bs count scene lg) = afterCalls bs scene.
Proof.
  revert count scene lg. induction bs as [| batch rest IH]; intros count scene lg.
  - cbn. rewrite app_nil_r. intros _. split; [done | split; [lia | done]].
  - cbn [createAll]. unfold afterCalls. cbn [foldl].
    destruct (createEmbeddedDocuments "Wall" batch scene) as [[e |] scene'];
      [discriminate |].
    intros Hok. destruct (IH _ _ _ Hok) as (Hcalls & Hcount & Hscene).
    rewrite Hcalls, Hcount, Hscene. split; [| split].
    + rewrite !createCalls_app. cbn [fmap list_fmap].
      replace (createCalls (if rest is [] then [] else _)) with
        (@nil (list record * option Thrown)) by (by destruct rest).
      rewrite app_nil_r, <- app_assoc. reflexivity.
    + cbn [concat]. rewrite length_app. lia.
    + reflexivity.
Qed.

Lemma createAll_all_succeed total bs count scene lg :
  (forall j batch, bs !! j = Some batch ->
     (createEmbeddedDocuments "Wall" batch (afterCalls (take j bs) scene)).1
       = None) ->
  thrown (createAll total bs count scene lg) = None.
Proof.
  revert count scene lg.
  induction bs as [| b rest IH]; intros count scene lg Hall; [reflexivity |].
  cbn [createAll]. pose proof (Hall 0 b eq_refl) as Hfirst. cbn in Hfirst.
  destruct (createEmbeddedDocuments "Wall" b scene) as [[e |] scene'] eqn:Hcall;
    cbn in Hfirst; [discriminate |].
  apply IH. intros j batch Hj.
  specialize (Hall (S j) batch Hj). unfold afterCalls in *. cbn in Hall.
  by rewrite Hcall in Hall.
Qed.

(** A run whose call number [j] (counting from 0) is the first to fail. *)
Lemma createAll_failure total bs count scene lg j batch e :
  bs !! j = Some batch ->
  (forall i b, i < j -> bs !! i = Some b ->
     (createEmbeddedDocuments "Wall" b (afterCalls (take i bs) scene)).1 = None) ->
  (createEmbeddedDocuments "Wall" batch (afterCalls (take j bs) scene)).1
    = Some e ->
  let out := createAll total bs count scene lg in
  thrown out = Some e
  /\ createdCount out = count + length (concat (take j bs))
  /\ createCalls (logAfter out)
     = createCalls lg ++ (succeeded <$> take j bs) ++ [(batch, Some e)]
  /\ sceneAfter out = afterCalls (take (S j) bs) scene
  /\ exists before, logAfter out
       = before ++ [CreateEmbeddedDocuments "Wall" batch (Some e)].
Proof.
  revert bs count scene lg.
  induction j as [| j IH]; intros bs count scene lg Hj Hbefore Hfail.
  - destruct bs as [| b rest]; [discriminate |].
    injection Hj as ->. cbn in Hfail. cbn [createAll].
    destruct (createEmbeddedDocuments "Wall" batch scene) as [[e' |] scene']
      eqn:Hcall; cbn in Hfail; [| discriminate].
    injection Hfail as ->. cbn.
    rewrite createCalls_app. cbn. unfold afterCalls. cbn. rewrite Hcall.
    repeat split; try done; try lia. by eexists.
  - destruct bs as [| b rest]; [discriminate |].
    cbn in Hj. cbn [createAll].
    pose proof (Hbefore 0 b ltac:(lia) eq_refl) as Hfirst. cbn in Hfirst.
    destruct (createEmbeddedDocuments "Wall" b scene) as [[e' |] scene']
      eqn:Hcall; cbn in Hfirst; [discriminate |].
    assert (Hshift : forall l, afterCalls (b :: l) scene = afterCalls l scene').
    { intros l. unfold afterCalls. cbn. by rewrite Hcall. }
    edestruct (IH rest (count + length b) scene') as (H1 & H2 & H3 & H4 & H5);
      [exact Hj | | | ].
    + intros i b' Hi Hb'. rewrite <- Hshift.
      apply (Hbefore (S i) b'); [lia | exact Hb'].
    + rewrite <- Hshift. exact Hfail.
    + cbn zeta. rewrite H1, H2, H3, H4. repeat split.
      * cbn [take concat]. rewrite length_app. lia.
      * rewrite !createCalls_app. cbn [take fmap list_fmap].
        replace (createCalls (if rest is [] then [] else _)) with
          (@nil (list record * option Thrown)) by (by destruct rest).
        rewrite app_nil_r, <- app_assoc. reflexivity.
      * symmetry. apply (Hshift (take (S j) rest)).
      * exact H5.
Qed.

(** When the failing call is not the first, the progress line of the
    batches before it stands right in front of it in the log. *)
Lemma createAll_failure_progress total bs count scene lg j batch e :
  bs !! S j = Some batch ->
  (forall i b, i < S j -> bs !! i = Some b ->
     (createEmbeddedDocuments "Wall" b (afterCalls (take i bs) scene)).1 = None) ->
  (createEmbeddedDocuments "Wall" batch (afterCalls (take (S j) bs) scene)).1
    = Some e ->
  exists before,
    logAfter (createAll total bs count scene lg)
    = before
        ++ [Notify Info
              [Lit "Created ";
               Num (ofNat (count + length (concat (take (S j) bs))));
               Lit " of "; Num (ofNat total); Lit " walls..."];
            CreateEmbeddedDocuments "Wall" batch (Some e)].
Proof.
  revert bs count scene lg.
  induction j as [| j IH]; intros bs count scene lg Hj Hbefore Hfail.
  - destruct bs as [| b0 [| b1 rest]]; try discriminate.
    injection Hj as ->.
    pose proof (Hbefore 0 b0 ltac:(lia) eq_refl) as Hfirst.
    unfold afterCalls in Hfirst, Hfail. cbn in Hfirst, Hfail.
    cbn [createAll].
    destruct (createEmbeddedDocuments "Wall" b0 scene) as [[e0 |] scene0];
      cbn in Hfirst, Hfail; [discriminate |].
    destruct (createEmbeddedDocuments "Wall" batch scene0) as [[e1 |] scene1];
      cbn in Hfail; [| discriminate].
    injection Hfail as ->. cbn [logAfter take concat].
    rewrite app_nil_r. exists (lg ++ [CreateEmbeddedDocuments "Wall" b0 None]).
    rewrite <- !app_assoc. reflexivity.
  - destruct bs as [| b rest]; [discriminate |].
    cbn in Hj. cbn [createAll].
    pose proof (Hbefore 0 b ltac:(lia) eq_refl) as Hfirst. cbn in Hfirst.
    destruct (createEmbeddedDocuments "Wall" b scene) as [[e' |] scene']
      eqn:Hcall; cbn in Hfirst; [discriminate |].
    assert (Hshift : forall l, afterCalls (b :: l) scene = afterCalls l scene').
    { intros l. unfold afterCalls. cbn. by rewrite Hcall. }
    edestruct (IH rest (count + length b) scene') as (before & ->);
      [exact Hj | | | ].
    + intros i b' Hi Hb'. rewrite <- Hshift.
      apply (Hbefore (S i) b'); [lia | exact Hb'].
    + rewrite <- Hshift. exact Hfail.
    + exists before. cbn [take concat]. rewrite length_app.
      by rewrite Nat.add_assoc.
Qed.

Lemma createAll_no_dialog total bs count scene lg :
  Forall (fun e => isPaddingWarning e = false) lg ->
  Forall (fun e => isPaddingWarning e = false)
    (logAfter (createAll total bs count scene lg)).
Proof.
  revert count scene lg.
  induction bs as [| batch rest IH]; intros count scene lg Hlg; [done |].
  cbn [createAll].
  destruct (createEmbeddedDocuments "Wall" batch scene) as [[e |] scene'].
  - cbn. apply Forall_app. split; [done | by repeat constructor].
  - apply IH. rewrite !Forall_app. split; [done | split].
    + by repeat constructor.
    + destruct rest; by repeat constructor.
Qed.

End BatchLoop.

(** ** Runs of an import *)

Section ImportRuns.
Context {Scene : Type} {host : Host Scene} {browser : Platform}.

Lemma length_stripAll walls wallData :
  stripAll walls = inr wallData -> length wallData = length walls.
Proof.
  revert wallData. induction walls as [| wall rest IH]; intros wallData.
  - cbn. intros [= <-]. reflexivity.
  - cbn. destruct (stripIdentity wall); [discriminate |].
    destruct (stripAll rest); [discriminate |].
    intros [= <-]. cbn. f_equal. by apply IH.
Qed.

Lemma stripAll_objects (bundle : list record) :
  stripAll (JObj <$> bundle) = inr (delete "_id" <$> bundle).
Proof.
  induction bundle as [| r rest IH]; [reflexivity |].
  cbn. cbn in IH. rewrite IH. reflexivity.
Qed.

(** An import that gets past parsing, the scene lookup, the padding check
    and the stripping runs the batch loop. *)
Lemma processWallImport_run text walls wallData w scene :
  JSON_parse text = inr (JArr walls) ->
  stripAll walls = inr wallData ->
  current w = Some scene ->
  gatePasses "import" scene = true ->
  processWallImport text w =
  finishImport
    (batchLoop wallData (length wallData) 0 0 scene
       (log w ++ gateEvents "import" scene ++
          [Notify Info [Lit "Creating "; Num (ofNat (length wallData));
                        Lit " walls..."]])).
Proof.
  intros Hparse Hstrip Hscene Hgate.
  unfold processWallImport, processWallImport_try, finishImport.
  unfold gatePasses in Hgate. unfold gateEvents, showPaddingWarning.
  rewrite Hparse, Hscene.
  destruct (strictNeqZero (scene_padding scene)); cbn in Hgate.
  - rewrite Hgate. cbn [negb]. rewrite Hstrip.
    unfold notify, emit. cbn [log current]. rewrite <- app_assoc.
    destruct (thrown _); cbn [log current]; rewrite <- ?app_assoc; reflexivity.
  - cbn [negb]. rewrite Hstrip.
    unfold notify, emit. cbn [log current app].
    destruct (thrown _); cbn [log current]; rewrite <- ?app_assoc; reflexivity.
Qed.

(** An import the user declines stops at the dialog. *)
Lemma processWallImport_declined text walls w scene :
  JSON_parse text = inr (JArr walls) ->
  current w = Some scene ->
  gatePasses "import" scene = false ->
  processWallImport text w = emit (PaddingWarning "import" false) w.
Proof.
  intros Hparse Hscene Hgate.
  unfold processWallImport, processWallImport_try, showPaddingWarning.
  unfold gatePasses in Hgate. rewrite Hparse, Hscene.
  destruct (strictNeqZero (scene_padding scene)); [| discriminate].
  cbn in Hgate. rewrite Hgate. reflexivity.
Qed.

Lemma finishImport_log (out : LoopExit Scene) :
  exists closing,
    log (finishImport out) = logAfter out ++ closing
    /\ Forall (fun e => isPaddingWarning e = false) closing
    /\ createCalls closing = [].
Proof.
  unfold finishImport. destruct (thrown out); cbn [log];
    eexists; (split; [reflexivity | split; [by repeat constructor | done]]).
Qed.

End ImportRuns.

(** ** Batching and partial commit (C2, C3) *)

Section BatchClaims.
Context {Scene : Type} {host : Host Scene} {browser : Platform}.

(** C2.  An import whose payload holds N records partitions it into
    [batchCount N] = ceil(N/100) consecutive batches of at most 100
    records each.  The bulk-create calls it issues are always the leading
    batches, in order.  When every call succeeds they are all the
    batches, each call runs on the scene the previous call left, and the
    count reported at the end is N. *)
Theorem import_batching text walls wallData w scene :
  JSON_parse text = inr (JArr walls) ->
  stripAll walls = inr wallData ->
  current w = Some scene ->
  gatePasses "import" scene = true ->
  let N := length walls in
  let w' := processWallImport text w in
  length wallData = N
  /\ length (batches wallData) = batchCount N
  /\ (BATCH_SIZE * batchCount N < N + BATCH_SIZE
      /\ N <= BATCH_SIZE * batchCount N)
  /\ Forall (fun batch => length batch <= BATCH_SIZE) (batches wallData)
  /\ concat (batches wallData) = wallData
  /\ (exists calls,
        createCalls (log w') = createCalls (log w) ++ calls
        /\ calls.*1 `prefix_of` batches wallData)
  /\ ((forall j batch, batches wallData !! j = Some batch ->
        (createEmbeddedDocuments "Wall" batch
           (afterCalls (take j (batches wallData)) scene)).1 = None) ->
      createCalls (log w')
      = createCalls (log w) ++ (succeeded <$> batches wallData)
      /\ current w' = Some (afterCalls (batches wallData) scene)
      /\ last (log w')
         = Some (Notify Info [Lit "Successfully created "; Num (ofNat N);
                              Lit " walls!"])).
Proof.
  intros Hparse Hstrip Hscene Hgate N w'.
  pose proof (length_stripAll _ _ Hstrip) as Hlen. fold N in Hlen.
  assert (Hgate_calls : createCalls (gateEvents "import" scene) = []).
  { unfold gateEvents. by destruct (strictNeqZero _). }
  subst w'. rewrite (processWallImport_run _ _ _ _ _ Hparse Hstrip Hscene Hgate).
  rewrite batchLoop_createAll. fold (batches wallData).
  set (lg := log w ++ _).
  assert (Hlg : createCalls lg = createCalls (log w)).
  { subst lg. rewrite !createCalls_app, Hgate_calls. cbn.
    by rewrite !app_nil_r. }
  split; [exact Hlen |].
  split; [by rewrite length_batches, Hlen |].
  split; [apply batchCount_bounds |].
  split; [apply batch_size_le |].
  split; [apply concat_batches |].
  split.
  - destruct (createAll_prefix (length wallData) (batches wallData) 0 scene lg)
      as (calls & Hcalls & Hprefix).
    exists calls. split; [| exact Hprefix].
    destruct (finishImport_log
                (createAll (length wallData) (batches wallData) 0 scene lg))
      as (closing & -> & _ & Hclosing).
    rewrite createCalls_app, Hcalls, Hlg, Hclosing.
    by rewrite app_nil_r.
  - intros Hall.
    pose proof (createAll_all_succeed (length wallData) _ 0 scene lg Hall) as Hok.
    destruct (createAll_success _ _ _ _ _ Hok) as (Hcalls & Hcount & Hafter).
    unfold finishImport. rewrite Hok. cbn [log current].
    rewrite createCalls_app, Hcalls, Hcount, Hafter, concat_batches.
    rewrite last_snoc, Hlen, Hlg. cbn. by rewrite app_nil_r.
Qed.

(** C3.  When the call for batch number [k] (counting from 1) is the first
    to fail, the local count at that point is [(k - 1) * 100]; the log shows
    the [k - 1] earlier batches, each created once, then the failing
    call, and nothing creates or removes documents after it; the scene is
    the one those calls left; and the error's text ends the log, in an
    error notification and on the console. *)
Theorem import_partial_commit text walls wallData w scene k failing e :
  JSON_parse text = inr (JArr walls) ->
  stripAll walls = inr wallData ->
  current w = Some scene ->
  gatePasses "import" scene = true ->
  batches wallData !! (k - 1) = Some failing ->
  1 <= k ->
  (forall i batch, i < k - 1 -> batches wallData !! i = Some batch ->
     (createEmbeddedDocuments "Wall" batch
        (afterCalls (take i (batches wallData)) scene)).1 = None) ->
  (createEmbeddedDocuments "Wall" failing
     (afterCalls (take (k - 1) (batches wallData)) scene)).1 = Some e ->
  let w' := processWallImport text w in
  (forall lg,
     let out := batchLoop wallData (length wallData) 0 0 scene lg in
     thrown out = Some e /\ createdCount out = (k - 1) * BATCH_SIZE)
  /\ createCalls (log w')
     = createCalls (log w)
         ++ (succeeded <$> take (k - 1) (batches wallData))
         ++ [(failing, Some e)]
  /\ current w' = Some (afterCalls (take k (batches wallData)) scene)
  /\ (exists before,
        log w'
        = before
            ++ [CreateEmbeddedDocuments "Wall" failing (Some e);
                Notify Error [Lit "Error processing walls:";
                              Str (errorText e)];
                ConsoleError "Wall import error:" e])
  /\ (2 <= k ->
      exists before,
        log w'
        = before
            ++ [Notify Info
                  [Lit "Created "; Num (ofNat ((k - 1) * BATCH_SIZE));
                   Lit " of "; Num (ofNat (length wallData));
                   Lit " walls..."];
                CreateEmbeddedDocuments "Wall" failing (Some e);
                Notify Error [Lit "Error processing walls:";
                              Str (errorText e)];
                ConsoleError "Wall import error:" e]).
Proof.
  intros Hparse Hstrip Hscene Hgate Hk Hpos Hbefore Hfail w'.
  assert (Hrun : forall lg,
    let out := createAll (length wallData) (batches wallData) 0 scene lg in
    thrown out = Some e
    /\ createdCount out = (k - 1) * BATCH_SIZE
    /\ createCalls (logAfter out)
       = createCalls lg ++ (succeeded <$> take (k - 1) (batches wallData))
           ++ [(failing, Some e)]
    /\ sceneAfter out = afterCalls (take k (batches wallData)) scene
    /\ exists before, logAfter out
         = before ++ [CreateEmbeddedDocuments "Wall" failing (Some e)]).
  { intros lg.
    destruct (createAll_failure (length wallData) _ 0 scene lg _ _ _
                Hk Hbefore Hfail) as (H1 & H2 & H3 & H4 & H5).
    repeat split; try done.
    - rewrite H2, length_concat_take_batches; [lia |].
      apply batches_lookup_Some in Hk. lia.
    - replace k with (S (k - 1)) at 1 by lia. exact H4. }
  split.
  - intros lg. cbn zeta. rewrite batchLoop_createAll.
    destruct (Hrun lg) as (H1 & H2 & _). by split.
  - subst w'.
    rewrite (processWallImport_run _ _ _ _ _ Hparse Hstrip Hscene Hgate).
    rewrite batchLoop_createAll. fold (batches wallData).
    set (lg := log w ++ _).
    destruct (Hrun lg) as (H1 & _ & H3 & H4 & before & H5).
    unfold finishImport. rewrite H1. cbn [log current].
    rewrite createCalls_app, H3, H4.
    split; [| split; [reflexivity | split]].
    + subst lg. rewrite !createCalls_app. unfold gateEvents.
      destruct (strictNeqZero _); cbn; by rewrite !app_nil_r.
    + exists before. rewrite H5, <- app_assoc. reflexivity.
    + intros Hk2. destruct k as [| [| j]]; [lia | lia |].
      replace (S (S j) - 1) with (S j) in * by lia.
      destruct (createAll_failure_progress (length wallData)
                  (batches wallData) 0 scene lg j failing e Hk Hbefore Hfail)
        as (before' & ->).
      rewrite length_concat_take_batches
        by (apply batches_lookup_Some in Hk; lia).
      exists before'. rewrite <- app_assoc. reflexivity.
Qed.

End BatchClaims.

(** Two hundred and fifty walls imported into an empty scene of the
    reference host: three calls, all of which succeed. *)
Lemma import_batching_witness :
  let wallData := delete "_id" <$> bundle250 in
  let browser := session (inr (JArr (JObj <$> bundle250))) true noImages in
  let w' :=
    processWallImport (browser := browser) "[...]" (mkWorld (Some emptyScene) []) in
  createCalls (log w') = succeeded <$> batches wallData
  /\ length (batches wallData) = 3
  /\ Forall (fun batch => length batch <= BATCH_SIZE) (batches wallData)
  /\ last (log w')
     = Some (Notify Info [Lit "Successfully created "; Num (ofNat 250);
                          Lit " walls!"]).
Proof.
  cbn zeta.
  assert (Hall : forall j batch,
    batches (delete "_id" <$> bundle250) !! j = Some batch ->
    (createEmbeddedDocuments "Wall" batch
       (afterCalls (take j (batches (delete "_id" <$> bundle250)))
          emptyScene)).1 = None).
  { intros j batch Hj. apply batches_lookup_Some in Hj as [Hlt ->].
    change (batchCount _) with 3 in Hlt.
    destruct j as [| [| [| j]]]; [vm_compute; reflexivity .. | lia]. }
  destruct (import_batching (host := refHost)
              (browser := session (inr (JArr (JObj <$> bundle250))) true noImages)
              "[...]" (JObj <$> bundle250) (delete "_id" <$> bundle250)
              (mkWorld (Some emptyScene) []) emptyScene
              eq_refl (stripAll_objects bundle250) eq_refl
              ltac:(vm_compute; reflexivity))
    as (_ & Hcount & _ & Hsize & _ & _ & Hsuccess).
  destruct (Hsuccess Hall) as (Hcalls & _ & Hlast).
  split; [exact Hcalls |]. split; [exact Hcount |].
  split; [exact Hsize | exact Hlast].
Defined.

(** One hundred and fifty records of which the second batch holds one the
    reference host rejects: the second call fails with a hundred walls
    created. *)
Lemma import_partial_commit_witness :
  let wallData := delete "_id" <$> bundle150 in
  let browser := session (inr (JArr (JObj <$> bundle150))) true noImages in
  let w' :=
    processWallImport (browser := browser) "[...]" (mkWorld (Some emptyScene) []) in
  let e := ErrorObj "DataModelValidationError" "Wall validation errors" in
  (forall lg,
     thrown (batchLoop wallData (length wallData) 0 0 emptyScene lg) = Some e
     /\ createdCount (batchLoop wallData (length wallData) 0 0 emptyScene lg)
        = (2 - 1) * BATCH_SIZE)
  /\ current w' = Some (afterCalls (take 2 (batches wallData)) emptyScene)
  /\ exists before,
       log w'
       = before
           ++ [CreateEmbeddedDocuments "Wall" (batchAt wallData 0 1) (Some e);
               Notify Error [Lit "Error processing walls:";
                             Str "Wall validation errors"];
               ConsoleError "Wall import error:" e].
Proof.
  cbn zeta.
  assert (Hbefore : forall i batch, i < 2 - 1 ->
    batches (delete "_id" <$> bundle150) !! i = Some batch ->
    (createEmbeddedDocuments "Wall" batch
       (afterCalls (take i (batches (delete "_id" <$> bundle150)))
          emptyScene)).1 = None).
  { intros i batch Hi Hlook. apply batches_lookup_Some in Hlook as [_ ->].
    destruct i as [| i]; [vm_compute; reflexivity | lia]. }
  assert (Hk : batches (delete "_id" <$> bundle150) !! (2 - 1)
               = Some (batchAt (delete "_id" <$> bundle150) 0 1))
    by (apply batches_lookup; vm_compute; lia).
  assert (Hfail :
    (createEmbeddedDocuments "Wall" (batchAt (delete "_id" <$> bundle150) 0 1)
       (afterCalls (take (2 - 1) (batches (delete "_id" <$> bundle150)))
          emptyScene)).1
    = Some (ErrorObj "DataModelValidationError" "Wall validation errors"))
    by (vm_compute; reflexivity).
  destruct (import_partial_commit (host := refHost)
              (browser := session (inr (JArr (JObj <$> bundle150))) true noImages)
              "[...]" (JObj <$> bundle150) (delete "_id" <$> bundle150)
              (mkWorld (Some emptyScene) []) emptyScene 2 _ _
              eq_refl (stripAll_objects bundle150) eq_refl
              ltac:(vm_compute; reflexivity)
              Hk ltac:(lia) Hbefore Hfail)
    as (H1 & _ & H3 & H4 & _).
  split; [exact H1 |]. split; [exact H3 | exact H4].
Defined.

(** ** The padding check (C4) *)

Section PaddingGate.
Context {Scene : Type} {host : Host Scene} {browser : Platform}.

(** The test [padding !== 0] fails for the number zero and for nothing
    else. *)
Lemma strictNeqZero_zero (v : jsval) :
  strictNeqZero v = false <-> isZeroPadding v.
Proof.
  unfold isZeroPadding. split.
  - destruct v as [| | b | [| | q |] | s | l | m]; cbn; try done.
    intros Hq. apply negb_false_iff, Qeq_bool_iff in Hq. by exists q.
  - intros (q & -> & Hq). cbn. apply negb_false_iff. by apply Qeq_bool_iff.
Qed.

(** C4.  With a current scene: when its padding is not the number zero
    (another number, or no number at all), an import
    (of an array payload) and an export both open the padding dialog
    before anything else they log; a declined import logs nothing more
    and leaves the scene as it was, a declined export throws "Wall export
    cancelled." and neither export writes to the clipboard nor saves a
    file; a confirmed operation goes on.  When the padding is zero no
    dialog is opened and the operation goes on. *)
Theorem padding_gate w scene :
  current w = Some scene ->
  (~ isZeroPadding (scene_padding scene) ->
     (forall text walls, JSON_parse text = inr (JArr walls) ->
        exists rest,
          log (processWallImport text w)
          = log w ++ PaddingWarning "import" (dialogAnswer "import") :: rest
          /\ (dialogAnswer "import" = false ->
              rest = [] /\ current (processWallImport text w) = Some scene)
          /\ (dialogAnswer "import" = true ->
              forall wallData, stripAll walls = inr wallData ->
              exists rest',
                rest = Notify Info [Lit "Creating ";
                                    Num (ofNat (length wallData));
                                    Lit " walls..."] :: rest'))
     /\ (getWallsJson w).2
        = emit (PaddingWarning "export" (dialogAnswer "export")) w
     /\ (dialogAnswer "export" = false ->
         (getWallsJson w).1 = inl (ErrorObj "Error" "Wall export cancelled.")
         /\ exportWallsToClipboard w
            = mkWorld (Some scene)
                (log w ++
                   [PaddingWarning "export" false;
                    ConsoleError "Clipboard write error:"
                      (ErrorObj "Error" "Wall export cancelled.");
                    Notify Error [Lit "Failed to copy walls to clipboard."]])
         /\ exists new,
              exportWallsToFile w = mkWorld (Some scene) (log w ++ new)
              /\ Forall (fun e => isOutput e = false) new)
     /\ (dialogAnswer "export" = true ->
         (getWallsJson w).1
         = inr (JSON_stringify (JArr (exportedWalls scene)))))
  /\ (isZeroPadding (scene_padding scene) ->
      (forall text walls wallData,
         JSON_parse text = inr (JArr walls) ->
         stripAll walls = inr wallData ->
         exists rest,
           log (processWallImport text w)
           = log w ++
               Notify Info [Lit "Creating "; Num (ofNat (length wallData));
                            Lit " walls..."] :: rest
           /\ Forall (fun e => isPaddingWarning e = false) rest)
      /\ getWallsJson w
         = (inr (JSON_stringify (JArr (exportedWalls scene))), w)).
Proof.
  intros Hscene. split; intros Hvalue.
  - assert (Hpad : strictNeqZero (scene_padding scene) = true).
    { destruct (strictNeqZero (scene_padding scene)) eqn:Htest; [done |].
      by apply strictNeqZero_zero in Htest. }
    split; [| split; [| split]].
    + intros text walls Hparse.
      destruct (dialogAnswer "import") eqn:Hanswer.
      * destruct (stripAll walls) as [e | wallData] eqn:Hstrip.
        -- unfold processWallImport, processWallImport_try, showPaddingWarning.
           rewrite Hparse, Hscene, Hpad, Hanswer. cbn [negb]. rewrite Hstrip.
           unfold notify, emit. cbn [log current].
           eexists. split; [rewrite <- !app_assoc; reflexivity |].
           split; [discriminate | intros _ ? [=]].
        -- assert (Hgate : gatePasses "import" scene = true)
             by (unfold gatePasses; rewrite Hanswer; apply orb_true_r).
           rewrite (processWallImport_run _ _ _ _ _ Hparse Hstrip Hscene Hgate).
           match goal with
           | |- context [finishImport ?out] =>
               destruct (finishImport_log out) as (closing & -> & _ & _)
           end.
           rewrite batchLoop_createAll, createAll_log. cbn zeta.
           cbn [logAfter]. unfold gateEvents. rewrite Hpad, Hanswer.
           eexists. split; [rewrite <- !app_assoc; reflexivity |].
           split; [discriminate |].
           intros _ wallData' [= <-]. eexists. reflexivity.
      * assert (Hgate : gatePasses "import" scene = false)
          by (unfold gatePasses; rewrite Hpad, Hanswer; reflexivity).
        rewrite (processWallImport_declined _ _ _ _ Hparse Hscene Hgate).
        exists []. cbn. split; [reflexivity |].
        split; [by intros _ | discriminate].
    + unfold getWallsJson, showPaddingWarning. rewrite Hscene, Hpad.
      destruct (dialogAnswer "export"); reflexivity.
    + intros Hanswer.
      assert (Hjson : getWallsJson w
                = (inl (ErrorObj "Error" "Wall export cancelled."),
                   emit (PaddingWarning "export" false) w)).
      { unfold getWallsJson, showPaddingWarning.
        rewrite Hscene, Hpad, Hanswer. reflexivity. }
      split; [by rewrite Hjson |]. split.
      * unfold exportWallsToClipboard. rewrite Hjson.
        unfold notify, emit. cbn [log current].
        rewrite Hscene, <- !app_assoc. reflexivity.
      * unfold exportWallsToFile. rewrite Hscene.
        destruct (truthyString (scene_name scene)).
        -- rewrite Hjson. unfold notify, emit. cbn [log current].
           rewrite Hscene, <- !app_assoc. eexists.
           split; [reflexivity | by repeat constructor].
        -- unfold notify, emit. rewrite Hscene. eexists.
           split; [reflexivity | by repeat constructor].
    + intros Hanswer. unfold getWallsJson, showPaddingWarning.
      rewrite Hscene, Hpad, Hanswer. reflexivity.
  - assert (Hpad : strictNeqZero (scene_padding scene) = false)
      by (by apply strictNeqZero_zero).
    split.
    + intros text walls wallData Hparse Hstrip.
      assert (Hgate : gatePasses "import" scene = true)
        by (unfold gatePasses; rewrite Hpad; reflexivity).
      rewrite (processWallImport_run _ _ _ _ _ Hparse Hstrip Hscene Hgate).
      match goal with
      | |- context [finishImport ?out] =>
          destruct (finishImport_log out) as (closing & -> & Hclosing & _)
      end.
      rewrite batchLoop_createAll, createAll_log. cbn zeta. cbn [logAfter].
      unfold gateEvents. rewrite Hpad. cbn [app].
      eexists. split; [rewrite <- !app_assoc; reflexivity |].
      apply Forall_app. split; [| exact Hclosing].
      by apply createAll_no_dialog.
    + unfold getWallsJson. rewrite Hscene, Hpad. reflexivity.
Qed.

End PaddingGate.

(** A user who cancels, with a padding of one quarter and with a padding
    that is the text "0"; and a padding of zero, where nobody is asked. *)
Lemma padding_gate_witness :
  let browser := session (inr (JArr [])) false noImages in
  (~ isZeroPadding (scene_padding paddedScene)
   /\ processWallImport (browser := browser) "[...]"
        (mkWorld (Some paddedScene) [])
      = mkWorld (Some paddedScene) [PaddingWarning "import" false]
   /\ exportWallsToClipboard (browser := browser)
        (mkWorld (Some paddedScene) [])
      = mkWorld (Some paddedScene)
          [PaddingWarning "export" false;
           ConsoleError "Clipboard write error:"
             (ErrorObj "Error" "Wall export cancelled.");
           Notify Error [Lit "Failed to copy walls to clipboard."]])
  /\ (~ isZeroPadding (scene_padding textPaddingScene)
      /\ exportWallsToClipboard (browser := browser)
           (mkWorld (Some textPaddingScene) [])
         = mkWorld (Some textPaddingScene)
             [PaddingWarning "export" false;
              ConsoleError "Clipboard write error:"
                (ErrorObj "Error" "Wall export cancelled.");
              Notify Error [Lit "Failed to copy walls to clipboard."]])
  /\ (isZeroPadding (scene_padding emptyScene)
      /\ getWallsJson (browser := browser) (mkWorld (Some emptyScene) [])
         = (inr "[...]", mkWorld (Some emptyScene) [])).
Proof.
  cbn zeta.
  assert (Hquarter : ~ isZeroPadding (scene_padding paddedScene)).
  { intros (q & [= <-] & Hq). vm_compute in Hq. discriminate. }
  assert (Htext : ~ isZeroPadding (scene_padding textPaddingScene)).
  { intros (q & [=] & _). }
  assert (Hzero : isZeroPadding (scene_padding emptyScene)).
  { exists 0%Q. split; reflexivity. }
  split; [| split].
  - split; [exact Hquarter |].
    destruct (padding_gate (host := refHost)
                (browser := session (inr (JArr [])) false noImages)
                (mkWorld (Some paddedScene) []) paddedScene eq_refl)
      as [Hnonzero _].
    destruct (Hnonzero Hquarter) as (Himport & _ & Hdeclined & _).
    destruct (Hdeclined eq_refl) as (_ & Hclipboard & _).
    split; [| exact Hclipboard].
    destruct (Himport "[...]" [] eq_refl) as (rest & Hlog & Hrest & _).
    destruct (Hrest eq_refl) as [-> Hcurrent].
    destruct (processWallImport _ _) as [cur lg].
    cbn [log current] in Hlog, Hcurrent. by rewrite Hlog, Hcurrent.
  - split; [exact Htext |].
    destruct (padding_gate (host := refHost)
                (browser := session (inr (JArr [])) false noImages)
                (mkWorld (Some textPaddingScene) []) textPaddingScene eq_refl)
      as [Hnonzero _].
    destruct (Hnonzero Htext) as (_ & _ & Hdeclined & _).
    destruct (Hdeclined eq_refl) as (_ & Hclipboard & _).
    exact Hclipboard.
  - split; [exact Hzero |].
    destruct (padding_gate (host := refHost)
                (browser := session (inr (JArr [])) false noImages)
                (mkWorld (Some emptyScene) []) emptyScene eq_refl)
      as [_ Hnone].
    destruct (Hnone Hzero) as [_ Hjson]. exact Hjson.
Defined.

(** ** Round trip (C1) *)

Section RoundTrip.
Context {Scene : Type} {host : Host Scene} {browser : Platform}.

Lemma sameGeometry_delete (doc orig : record) :
  sameGeometry doc (delete "_id" orig) -> sameGeometry doc orig.
Proof.
  intros Hsame field Hfield. rewrite (Hsame field Hfield).
  by rewrite lookup_delete_ne.
Qed.

Lemma createAll_faithful wellFormed total bs count scene lg :
  createsFaithfully wellFormed ->
  Forall (Forall wellFormed) bs ->
  exists docs,
    thrown (createAll total bs count scene lg) = None
    /\ scene_walls (sceneAfter (createAll total bs count scene lg))
       = scene_walls scene ++ docs
    /\ Forall2 sameGeometry docs (concat bs).
Proof.
  intros Hhost. revert count scene lg.
  induction bs as [| batch rest IH]; intros count scene lg Hbs.
  - exists []. cbn. rewrite app_nil_r. by repeat split.
  - apply Forall_cons in Hbs as [Hbatch Hrest]. cbn [createAll].
    destruct (Hhost batch scene Hbatch) as (scene' & docs & -> & Hwalls & Hdocs).
    destruct (IH (count + length batch) scene'
                (lg ++ [CreateEmbeddedDocuments "Wall" batch None]
                    ++ (if rest is [] then []
                        else [Notify Info
                                [Lit "Created ";
                                 Num (ofNat (count + length batch));
                                 Lit " of "; Num (ofNat total);
                                 Lit " walls..."]])) Hrest)
      as (docs' & Hok & Hwalls' & Hdocs').
    exists (docs ++ docs'). split; [exact Hok |]. split.
    + rewrite Hwalls', Hwalls, <- app_assoc. reflexivity.
    + cbn [concat]. by apply Forall2_app.
Qed.

(** C1, amended.  Importing a bundle of N records the host accepts and
    then serializing the scene's walls yields the walls the scene already
    had followed by N records that agree with the originals on every
    field but [_id]; these N are all there is when the scene had no
    walls. *)
Theorem import_export_roundtrip wellFormed text (bundle : list record)
    w scene :
  createsFaithfully wellFormed ->
  JSON_parse text = inr (JArr (JObj <$> bundle)) ->
  Forall (fun r => wellFormed (delete "_id" r)) bundle ->
  current w = Some scene ->
  gatePasses "import" scene = true ->
  exists scene' docs,
    current (processWallImport text w) = Some scene'
    /\ exportedWalls scene' = exportedWalls scene ++ (JObj <$> docs)
    /\ length docs = length bundle
    /\ Forall2 sameGeometry docs bundle
    /\ (scene_walls scene = [] -> exportedWalls scene' = JObj <$> docs)
    /\ forall w2, current w2 = Some scene' ->
         gatePasses "export" scene' = true ->
         (getWallsJson w2).1
         = inr (JSON_stringify
                  (JArr (exportedWalls scene ++ (JObj <$> docs)))).
Proof.
  intros Hhost Hparse Hvalid Hscene Hgate.
  rewrite (processWallImport_run _ _ _ _ _ Hparse (stripAll_objects bundle)
             Hscene Hgate).
  rewrite batchLoop_createAll. fold (batches (delete "_id" <$> bundle)).
  set (lg := log w ++ _). set (N := length _).
  destruct (createAll_faithful wellFormed N
              (batches (delete "_id" <$> bundle)) 0 scene lg Hhost)
    as (docs & Hok & Hwalls & Hdocs).
  { apply batches_Forall. by apply Forall_fmap. }
  rewrite concat_batches in Hdocs.
  rewrite Forall2_fmap_r in Hdocs.
  assert (Hsame : Forall2 sameGeometry docs bundle).
  { eapply Forall2_impl; [exact Hdocs |].
    intros doc orig. apply sameGeometry_delete. }
  unfold finishImport. rewrite Hok. cbn [current].
  eexists _, docs. split; [reflexivity |].
  assert (Hexport : exportedWalls (sceneAfter
            (createAll N (batches (delete "_id" <$> bundle)) 0 scene lg))
          = exportedWalls scene ++ (JObj <$> docs)).
  { unfold exportedWalls. rewrite Hwalls, fmap_app. reflexivity. }
  split; [exact Hexport |]. split; [by eapply Forall2_length |].
  split; [exact Hsame |]. split.
  - intros Hempty. rewrite Hexport. unfold exportedWalls.
    rewrite Hempty. reflexivity.
  - intros w2 Hw2 Hgate2. unfold getWallsJson, showPaddingWarning.
    rewrite Hw2. unfold gatePasses in Hgate2.
    destruct (strictNeqZero _); cbn [negb orb] in Hgate2.
    + rewrite Hgate2. cbn [negb fst]. by rewrite Hexport.
    + cbn [negb fst]. by rewrite Hexport.
Qed.

End RoundTrip.

(** The reference host keeps its side of the round trip. *)
Lemma refHost_faithful :
  createsFaithfully (Scene := RefScene) (fun r => refValid r = true).
Proof.
  intros batch scene Hvalid.
  assert (Hall : forallb refValid batch = true).
  { apply forallb_forall. intros r Hr.
    rewrite Forall_forall in Hvalid. apply Hvalid, list_elem_of_In, Hr. }
  eexists _, (imap (refAssignId (ref_nextId scene)) batch).
  cbn [createEmbeddedDocuments refHost]. unfold refCreate. rewrite Hall.
  split; [reflexivity |]. split; [reflexivity |].
  assert (Hgen : forall (ids : nat -> nat) (l : list record),
    Forall2 sameGeometry
      (imap (fun i r => <["_id" := JStr ("wall" +:+ pretty (ids i))]> r) l) l).
  { intros ids l. revert ids. induction l as [| r rest IH]; intros ids.
    - constructor.
    - cbn [imap]. constructor; [| apply (IH (ids ∘ S))].
      intros field Hfield. by rewrite lookup_insert_ne. }
  exact (Hgen (fun i => ref_nextId scene + i) batch).
Qed.

(** C1 as stated fails on a scene that already has walls: one record is
    imported, and the scene serializes two. *)
Lemma roundtrip_counterexample :
  let bundle := [sampleWall "abc" 10] in
  let browser := session (inr (JArr (JObj <$> bundle))) true noImages in
  let w' :=
    processWallImport (browser := browser) "[...]" (mkWorld (Some furnishedScene) []) in
  Forall (fun r => refValid (delete "_id" r) = true) bundle
  /\ length bundle = 1
  /\ (length ∘ exportedWalls) <$> current w' = Some 2
  /\ ~ (exists scene', current w' = Some scene'
          /\ length (exportedWalls scene') = length bundle).
Proof.
  cbn zeta.
  assert (Hlen : (length ∘ exportedWalls) <$>
            current (processWallImport
                       (browser := session (inr (JArr (JObj <$> [sampleWall "abc" 10])))
                               true noImages)
                       "[...]" (mkWorld (Some furnishedScene) []))
          = Some 2) by (vm_compute; reflexivity).
  split; [by repeat constructor |]. split; [reflexivity |].
  split; [exact Hlen |].
  intros (scene' & Hscene' & Hcount). rewrite Hscene' in Hlen.
  cbn in Hlen. cbn in Hcount. congruence.
Qed.

(** The round trip on the reference host: one wall imported into a scene
    that has one. *)
Lemma import_export_roundtrip_witness :
  let bundle := [sampleWall "abc" 10] in
  let browser := session (inr (JArr (JObj <$> bundle))) true noImages in
  exists scene' docs,
    current (processWallImport (browser := browser) "[...]"
               (mkWorld (Some furnishedScene) [])) = Some scene'
    /\ exportedWalls scene'
       = exportedWalls furnishedScene ++ (JObj <$> docs)
    /\ length docs = length bundle
    /\ Forall2 sameGeometry docs bundle.
Proof.
  cbn zeta.
  assert (Hvalid : Forall (fun r => refValid (delete "_id" r) = true)
                     [sampleWall "abc" 10]) by (repeat constructor).
  destruct (import_export_roundtrip
              (browser := session (inr (JArr (JObj <$> [sampleWall "abc" 10])))
                      true noImages)
              (fun r => refValid r = true) "[...]" [sampleWall "abc" 10]
              (mkWorld (Some furnishedScene) []) furnishedScene
              refHost_faithful eq_refl Hvalid eq_refl eq_refl)
    as (scene' & docs & H1 & H2 & H3 & H4 & _).
  exists scene', docs. repeat split; assumption.
Defined.

(** ** Rounding to binary64 *)

(** Rounding depends on the value only. *)
Lemma round64_comp (q q' : Q) : (q == q')%Q -> round64 q = round64 q'.
Proof. intros Heq. unfold round64. by rewrite (Qred_complete _ _ Heq). Qed.

Lemma round64_not_NaN (q : Q) : round64 q <> NaN.
Proof.
  unfold round64, roundMagnitude. destruct (Qred q) as [n d].
  destruct (n =? 0)%Z; [done |].
  destruct (_ <=? _)%Z; [by destruct (n <? 0)%Z | done].
Qed.

(** The rounded quotient is within a half of the exact one and not below
    its floor. *)
Lemma roundHalfEven_spec (num den : Z) :
  (0 <= num)%Z -> (0 < den)%Z ->
  let m := roundHalfEven num den in
  (num / den <= m <= num / den + 1)%Z
  /\ (2 * (m * den - num) <= den)%Z
  /\ (2 * (num - m * den) <= den)%Z.
Proof.
  intros Hnum Hden. cbn zeta. unfold roundHalfEven.
  pose proof (Z.div_mod num den ltac:(lia)) as Hdm.
  pose proof (Z.mod_pos_bound num den Hden) as Hmod.
  destruct (Z.compare_spec (2 * (num mod den)) den) as [Heq | Hlt | Hgt].
  - destruct (Z.even (num / den)); nia.
  - nia.
  - nia.
Qed.

Lemma pow2_split (c a b : Z) :
  (0 <= a)%Z -> (0 <= b)%Z -> (c = a + b)%Z -> (2 ^ c = 2 ^ a * 2 ^ b)%Z.
Proof. intros ? ? ->. by apply Z.pow_add_r. Qed.

(** [2^e0 <= a / d < 2^(e0 + 1)] for [e0 = ilog2 a d], without
    fractions. *)
Lemma ilog2_spec (a d : Z) :
  (0 < a)%Z -> (0 < d)%Z ->
  let e0 := ilog2 a d in
  (d * 2 ^ Z.max e0 0 <= a * 2 ^ Z.max (- e0) 0)%Z
  /\ (a * 2 ^ Z.max (- (e0 + 1)) 0 < d * 2 ^ Z.max (e0 + 1) 0)%Z.
Proof.
  intros Ha Hd. cbn zeta. unfold ilog2.
  pose proof (Z.log2_spec a Ha) as [Hal Hau].
  pose proof (Z.log2_spec d Hd) as [Hdl Hdu].
  pose proof (Z.log2_nonneg a) as Hla. pose proof (Z.log2_nonneg d) as Hld.
  set (la := Z.log2 a) in *. set (ld := Z.log2 d) in *.
  assert (Hpa : (0 < 2 ^ la)%Z) by (apply Z.pow_pos_nonneg; lia).
  assert (Hpd : (0 < 2 ^ ld)%Z) by (apply Z.pow_pos_nonneg; lia).
  destruct (Z.leb_spec (d * 2 ^ Z.max (la - ld) 0)
              (a * 2 ^ Z.max (- (la - ld)) 0)) as [Hge | Hlt].
  - split; [exact Hge |].
    destruct (Z.le_gt_cases 0 (la - ld + 1)) as [Hk | Hk].
    + rewrite (Z.max_r (- (la - ld + 1)) 0), (Z.max_l (la - ld + 1) 0) by lia.
      change (2 ^ 0)%Z with 1%Z.
      rewrite (pow2_split (Z.succ la) (la - ld + 1) ld) in Hau by lia.
      assert (0 < 2 ^ (la - ld + 1))%Z by (apply Z.pow_pos_nonneg; lia).
      nia.
    + rewrite (Z.max_l (- (la - ld + 1)) 0), (Z.max_r (la - ld + 1) 0) by lia.
      change (2 ^ 0)%Z with 1%Z.
      rewrite (pow2_split ld (Z.succ la) (- (la - ld + 1))) in Hdl by lia.
      assert (0 < 2 ^ (- (la - ld + 1)))%Z by (apply Z.pow_pos_nonneg; lia).
      nia.
  - split.
    + destruct (Z.le_gt_cases 0 (la - ld - 1)) as [Hk | Hk].
      * rewrite (Z.max_l (la - ld - 1) 0), (Z.max_r (- (la - ld - 1)) 0) by lia.
        change (2 ^ 0)%Z with 1%Z.
        rewrite (pow2_split la (Z.succ ld) (la - ld - 1)) in Hal by lia.
        assert (0 < 2 ^ (la - ld - 1))%Z by (apply Z.pow_pos_nonneg; lia).
        nia.
      * rewrite (Z.max_r (la - ld - 1) 0), (Z.max_l (- (la - ld - 1)) 0) by lia.
        change (2 ^ 0)%Z with 1%Z.
        rewrite (pow2_split (Z.succ ld) la (- (la - ld - 1))) in Hdu by lia.
        assert (0 < 2 ^ (- (la - ld - 1)))%Z by (apply Z.pow_pos_nonneg; lia).
        nia.
    + replace (la - ld - 1 + 1)%Z with (la - ld)%Z by lia. exact Hlt.
Qed.

(** What [roundMagnitude] does below [2^53]: the unit in the last place
    is [1 / P] for a power of two [P], the result is [m / P] with [m]
    within a half of [a * P / d], nothing overflows, and from a half up
    the result is at least a half. *)
Lemma roundMagnitude_small (negative : bool) (a d : Z) :
  (0 < a)%Z -> (0 < d)%Z -> (a < 2 ^ 53 * d)%Z ->
  exists m P : Z,
    (0 < P)%Z
    /\ roundMagnitude negative a d
       = Fin (Qred ((if negative then - m else m) # Z.to_pos P))
    /\ (2 * (m * d - a * P) <= d)%Z
    /\ (2 * (a * P - m * d) <= d)%Z
    /\ (d <= 2 * a -> P <= 2 * m)%Z.
Proof.
  intros Ha Hd Hsmall. unfold roundMagnitude.
  pose proof (ilog2_spec a d Ha Hd) as [Hlow Hup]. cbn zeta in Hlow, Hup.
  set (e0 := ilog2 a d) in *.
  assert (He0 : (e0 <= 52)%Z).
  { destruct (Z.le_gt_cases e0 52) as [Hle | Hgt]; [done | exfalso].
    rewrite (Z.max_l e0 0), (Z.max_r (- e0) 0) in Hlow by lia.
    change (2 ^ 0)%Z with 1%Z in Hlow.
    assert (2 ^ 53 <= 2 ^ e0)%Z by (apply Z.pow_le_mono_r; lia).
    nia. }
  set (e := Z.max (e0 - 52) (-1074)).
  assert (He : (e <= 0)%Z) by lia.
  rewrite (Z.max_r e 0), (Z.max_l (- e) 0) by lia.
  change (2 ^ 0)%Z with 1%Z. rewrite !Z.mul_1_r.
  set (P := (2 ^ (- e))%Z).
  assert (HP : (0 < P)%Z) by (apply Z.pow_pos_nonneg; lia).
  assert (HaP : (a * P < 2 ^ 53 * d)%Z).
  { destruct (Z.le_gt_cases 0 (e0 + 1)) as [Hk | Hk].
    - rewrite (Z.max_r (- (e0 + 1)) 0), (Z.max_l (e0 + 1) 0) in Hup by lia.
      change (2 ^ 0)%Z with 1%Z in Hup.
      assert (Hle : (2 ^ (e0 + 1) * P <= 2 ^ 53)%Z).
      { subst P. rewrite <- Z.pow_add_r by lia.
        apply Z.pow_le_mono_r; lia. }
      assert (0 < 2 ^ (e0 + 1))%Z by (apply Z.pow_pos_nonneg; lia).
      nia.
    - rewrite (Z.max_l (- (e0 + 1)) 0), (Z.max_r (e0 + 1) 0) in Hup by lia.
      change (2 ^ 0)%Z with 1%Z in Hup.
      assert (Hle : (P <= 2 ^ (- (e0 + 1)) * 2 ^ 53)%Z).
      { subst P. rewrite <- Z.pow_add_r by lia.
        apply Z.pow_le_mono_r; lia. }
      assert (0 < 2 ^ (- (e0 + 1)))%Z by (apply Z.pow_pos_nonneg; lia).
      nia. }
  pose proof (roundHalfEven_spec (a * P) d ltac:(nia) Hd)
    as ([Hfloor Hceil] & Hhi & Hlo). cbn zeta in *.
  set (m := roundHalfEven (a * P) d) in *.
  assert (Hq : (a * P / d < 2 ^ 53)%Z).
  { apply Z.div_lt_upper_bound; [done | lia]. }
  assert (Hfin : (2 ^ 1024 <=? m)%Z = false).
  { apply Z.leb_gt.
    assert (2 ^ 53 < 2 ^ 1024)%Z by (apply Z.pow_lt_mono_r; lia). lia. }
  rewrite Hfin. exists m, P.
  split; [exact HP |]. split; [reflexivity |].
  split; [exact Hhi |]. split; [exact Hlo |].
  intros Hhalf.
  assert (He0' : (-1 <= e0)%Z).
  { destruct (Z.le_gt_cases (-1) e0) as [Hle | Hgt]; [done | exfalso].
    rewrite (Z.max_l (- (e0 + 1)) 0), (Z.max_r (e0 + 1) 0) in Hup by lia.
    change (2 ^ 0)%Z with 1%Z in Hup.
    assert (2 ^ 1 <= 2 ^ (- (e0 + 1)))%Z by (apply Z.pow_le_mono_r; lia).
    change (2 ^ 1)%Z with 2%Z in *. nia. }
  assert (HPeq : P = (2 ^ (52 - e0))%Z) by (subst P e; f_equal; lia).
  assert (Hnorm : (d * 2 ^ 52 <= a * P)%Z).
  { destruct (Z.le_gt_cases 0 e0) as [Hk | Hk].
    - rewrite (Z.max_l e0 0), (Z.max_r (- e0) 0) in Hlow by lia.
      change (2 ^ 0)%Z with 1%Z in Hlow.
      rewrite (pow2_split 52 e0 (52 - e0)) by lia.
      rewrite HPeq.
      assert (0 < 2 ^ (52 - e0))%Z by (apply Z.pow_pos_nonneg; lia).
      nia.
    - assert (e0 = -1)%Z as He0eq by lia.
      rewrite HPeq, He0eq. change (2 ^ (52 - -1))%Z with (2 * 2 ^ 52)%Z.
      nia. }
  assert (HP53 : (P <= 2 ^ 53)%Z)
    by (rewrite HPeq; apply Z.pow_le_mono_r; lia).
  assert (Hm : (2 ^ 52 <= a * P / d)%Z)
    by (apply Z.div_le_lower_bound; [done | lia]).
  change (2 ^ 53)%Z with (2 * 2 ^ 52)%Z in HP53. lia.
Qed.

(** Below [2^53] the rounded value is within a half of the exact one. *)
Lemma round64_near (q : Q) :
  (Qabs q < 9007199254740992)%Q ->
  exists v, round64 q = Fin v /\ (Qabs (v - q) <= 1 # 2)%Q.
Proof.
  intros Hsmall. unfold round64.
  pose proof (Qred_correct q) as Hred.
  destruct (Qred q) as [n dp].
  assert (Hsmall' : (Qabs (n # dp) < 9007199254740992)%Q)
    by (by rewrite Hred).
  clear Hsmall.
  destruct (Z.eqb_spec n 0) as [-> | Hn].
  { exists 0%Q. split; [reflexivity |]. rewrite <- Hred.
    apply Qabs_Qle_condition. unfold Qle, Qminus, Qplus, Qopp. cbn. lia. }
  apply Qabs_Qlt_condition in Hsmall' as [Hlo Hhi].
  unfold Qlt in Hlo, Hhi. cbn in Hlo, Hhi.
  destruct (roundMagnitude_small (n <? 0)%Z (Z.abs n) (Zpos dp))
    as (m & P & HP & -> & Hup & Hdown & _); [lia | lia | lia |].
  eexists. split; [reflexivity |].
  rewrite <- Hred, Qred_correct. apply Qabs_Qle_condition.
  unfold Qle, Qminus, Qplus, Qopp. cbn [Qnum Qden].
  rewrite !Pos2Z.inj_mul, Z2Pos.id by exact HP.
  destruct (Z.ltb_spec n 0); split; nia.
Qed.

(** From a half up, and below [2^53], the rounded value is at least a
    half. *)
Lemma round64_half (q : Q) :
  (1 # 2 <= q)%Q -> (q < 9007199254740992)%Q ->
  exists v, round64 q = Fin v /\ (1 # 2 <= v)%Q.
Proof.
  intros Hhalf Hsmall. unfold round64.
  pose proof (Qred_correct q) as Hred.
  destruct (Qred q) as [n dp].
  assert (Hhalf' : (1 # 2 <= n # dp)%Q) by (by rewrite Hred).
  assert (Hsmall' : (n # dp < 9007199254740992)%Q) by (by rewrite Hred).
  clear Hhalf Hsmall Hred.
  unfold Qle in Hhalf'. unfold Qlt in Hsmall'. cbn in Hhalf', Hsmall'.
  destruct (Z.eqb_spec n 0) as [-> | Hn]; [lia |].
  destruct (roundMagnitude_small (n <? 0)%Z (Z.abs n) (Zpos dp))
    as (m & P & HP & -> & _ & _ & Hm); [lia | lia | lia |].
  eexists. split; [reflexivity |].
  rewrite Qred_correct. unfold Qle. cbn [Qnum Qden].
  rewrite Z2Pos.id by exact HP.
  destruct (Z.ltb_spec n 0); [lia |].
  specialize (Hm ltac:(lia)). lia.
Qed.

(** ** The order of numbers *)

Lemma Qle_bool_false (a b : Q) : Qle_bool a b = false -> (b < a)%Q.
Proof.
  intros Hf. apply Qnot_le_lt. intros Hle.
  apply Qle_bool_iff in Hle. congruence.
Qed.

Lemma jsLe_refl (a : number) : a <> NaN -> jsLe a a = true.
Proof.
  destruct a as [| | q |]; try done. intros _. cbn.
  apply Qle_bool_iff, Qle_refl.
Qed.

Lemma jsLe_trans (a b c : number) :
  jsLe a b = true -> jsLe b c = true -> jsLe a c = true.
Proof.
  destruct a as [| | x |], b as [| | y |], c as [| | z |]; cbn; try done.
  rewrite !Qle_bool_iff. apply Qle_trans.
Qed.

Lemma jsLe_antisym (a b : number) :
  jsLe a b = true -> jsLe b a = true -> sameNumber a b.
Proof.
  destruct a as [| | x |], b as [| | y |]; cbn; try done.
  rewrite !Qle_bool_iff. apply Qle_antisym.
Qed.

Lemma jsGt_jsLe (a b : number) : jsGt a b = true -> jsLe a b = false.
Proof.
  destruct a as [| | x |], b as [| | y |]; cbn; try done.
  by intros ->%negb_true_iff.
Qed.

Lemma jsLe_comp (a a' b b' : number) :
  sameNumber a a' -> sameNumber b b' -> jsLe a b = jsLe a' b'.
Proof.
  destruct a as [| | x |], a' as [| | x' |]; try done;
    destruct b as [| | y |], b' as [| | y' |]; try done.
  cbn. intros Hx Hy.
  destruct (Qle_bool x y) eqn:H1, (Qle_bool x' y') eqn:H2; try done.
  - apply Qle_bool_iff in H1. apply Qle_bool_false in H2. lra.
  - apply Qle_bool_iff in H2. apply Qle_bool_false in H1. lra.
Qed.

(** [Math.max] returns the greater of two numbers. *)
Lemma Math_max_spec (a b : number) :
  a <> NaN -> b <> NaN ->
  (Math_max a b = a /\ jsLe b a = true)
  \/ (Math_max a b = b /\ jsLe a b = true).
Proof.
  destruct a as [| | x |], b as [| | y |]; cbn; try done; intros _ _;
    try (by left); try (by right).
  destruct (Qle_bool x y) eqn:Hcmp; [by right | left].
  split; [reflexivity |].
  apply Qle_bool_false in Hcmp. apply Qle_bool_iff. lra.
Qed.

Lemma Math_max_NegInf (a : number) : Math_max NegInf a = a.
Proof. by destruct a. Qed.

(** Folding [Math.min] from a finite start. *)
Lemma fold_min_Fin (f : Tile -> Q) tiles (q0 : Q) :
  exists m,
    fold_left (fun acc t => Math_min acc (Fin (f t))) tiles (Fin q0) = Fin m
    /\ (m <= q0)%Q
    /\ (forall t, t ∈ tiles -> (m <= f t)%Q)
    /\ (m = q0 \/ exists t, t ∈ tiles /\ m = f t).
Proof.
  revert q0. induction tiles as [| t rest IH]; intros q0.
  - exists q0. cbn. repeat split; [apply Qle_refl | | by left].
    intros t Ht. by apply elem_of_nil in Ht.
  - cbn [fold_left Math_min].
    destruct (Qle_bool q0 (f t)) eqn:Hcmp.
    + apply Qle_bool_iff in Hcmp.
      destruct (IH q0) as (m & -> & Hm0 & Hall & Hatt).
      exists m. repeat split; [done | |].
      * intros t' [-> | Ht']%elem_of_cons; [by eapply Qle_trans | by apply Hall].
      * destruct Hatt as [-> | (t' & Ht' & ->)]; [by left |].
        right. exists t'. split; [by apply elem_of_cons; right | done].
    + apply Qle_bool_false in Hcmp.
      destruct (IH (f t)) as (m & -> & Hm0 & Hall & Hatt).
      exists m. repeat split.
      * apply Qlt_le_weak. by eapply Qle_lt_trans.
      * intros t' [-> | Ht']%elem_of_cons; [done | by apply Hall].
      * right. destruct Hatt as [-> | (t' & Ht' & ->)].
        -- exists t. split; [by apply elem_of_cons; left | done].
        -- exists t'. split; [by apply elem_of_cons; right | done].
Qed.

(** Folding [Math.max] over numbers none of which is [NaN]. *)
Lemma fold_max_number (f : Tile -> number) tiles (m0 : number) :
  m0 <> NaN -> (forall t, f t <> NaN) ->
  let m := fold_left (fun acc t => Math_max acc (f t)) tiles m0 in
  m <> NaN
  /\ jsLe m0 m = true
  /\ (forall t, t ∈ tiles -> jsLe (f t) m = true)
  /\ (m = m0 \/ exists t, t ∈ tiles /\ m = f t).
Proof.
  intros Hm0 Hf. cbn zeta. revert m0 Hm0.
  induction tiles as [| t rest IH]; intros m0 Hm0.
  - cbn. split; [done |]. split; [by apply jsLe_refl |].
    split; [| by left]. intros t Ht. by apply elem_of_nil in Ht.
  - cbn [fold_left].
    destruct (Math_max_spec m0 (f t) Hm0 (Hf t)) as [[-> Hle] | [-> Hle]].
    + destruct (IH m0 Hm0) as (Hnan & Hstart & Hall & Hatt).
      split; [exact Hnan |]. split; [exact Hstart |]. split.
      * intros t' [-> | Ht']%elem_of_cons; [| by apply Hall].
        by eapply jsLe_trans.
      * destruct Hatt as [Heq | (t' & Ht' & Heq)]; [by left |].
        right. exists t'. split; [by apply elem_of_cons; right | done].
    + destruct (IH (f t) (Hf t)) as (Hnan & Hstart & Hall & Hatt).
      split; [exact Hnan |]. split; [by eapply jsLe_trans |]. split.
      * intros t' [-> | Ht']%elem_of_cons; [done | by apply Hall].
      * right. destruct Hatt as [Heq | (t' & Ht' & Heq)].
        -- exists t. split; [by apply elem_of_cons; left | done].
        -- exists t'. split; [by apply elem_of_cons; right | done].
Qed.

Lemma sameNumber_refl (a : number) : sameNumber a a.
Proof. destruct a; cbn; done. Qed.

Lemma tileRight_not_NaN t : tileRight t <> NaN.
Proof. apply round64_not_NaN. Qed.

Lemma tileBottom_not_NaN t : tileBottom t <> NaN.
Proof. apply round64_not_NaN. Qed.

(** ** Bounds *)

(** The four accumulators of the first pass are independent folds. *)
Lemma fold_extendBounds tiles b :
  fold_left extendBounds tiles b =
  mkBounds
    (fold_left (fun acc t => Math_min acc (Fin (tileX t))) tiles (minX b))
    (fold_left (fun acc t => Math_min acc (Fin (tileY t))) tiles (minY b))
    (fold_left (fun acc t => Math_max acc (tileRight t)) tiles (maxX b))
    (fold_left (fun acc t => Math_max acc (tileBottom t)) tiles (maxY b)).
Proof.
  revert b. induction tiles as [| t rest IH]; intros b.
  - by destruct b.
  - cbn [fold_left]. rewrite IH. reflexivity.
Qed.

(** After the first pass over a non-empty tile list the accumulators are
    the minima and maxima of the tile edges. *)
Lemma firstPass_tightest t ts : tightest (firstPass (t :: ts)) (t :: ts).
Proof.
  unfold firstPass. rewrite fold_extendBounds.
  cbn [fold_left initialBounds minX minY maxX maxY Math_min].
  fold (tileRight t) (tileBottom t). rewrite !Math_max_NegInf.
  destruct (fold_min_Fin tileX ts (tileX t)) as (x0 & -> & Hx0t & Hx0 & Hx0').
  destruct (fold_min_Fin tileY ts (tileY t)) as (y0 & -> & Hy0t & Hy0 & Hy0').
  destruct (fold_max_number tileRight ts (tileRight t)
              (tileRight_not_NaN t) tileRight_not_NaN)
    as (_ & Hx1t & Hx1 & Hx1').
  destruct (fold_max_number tileBottom ts (tileBottom t)
              (tileBottom_not_NaN t) tileBottom_not_NaN)
    as (_ & Hy1t & Hy1 & Hy1').
  eexists x0, y0, _, _. split; [reflexivity |].
  assert (Hmin : forall (f : Tile -> Q) m,
    (m = f t \/ exists t', t' ∈ ts /\ m = f t') ->
    exists t', t' ∈ t :: ts /\ (m == f t')%Q).
  { intros f m [-> | (t' & Ht' & ->)].
    - exists t. split; [by apply elem_of_cons; left | reflexivity].
    - exists t'. split; [by apply elem_of_cons; right | reflexivity]. }
  assert (Hmax : forall (f : Tile -> number) m,
    (m = f t \/ exists t', t' ∈ ts /\ m = f t') ->
    exists t', t' ∈ t :: ts /\ sameNumber m (f t')).
  { intros f m [-> | (t' & Ht' & ->)].
    - exists t. split; [by apply elem_of_cons; left | apply sameNumber_refl].
    - exists t'. split; [by apply elem_of_cons; right | apply sameNumber_refl]. }
  split; [split; [| by apply Hmin] |].
  { intros t' [-> | Ht']%elem_of_cons; auto. }
  split; [split; [| by apply Hmin] |].
  { intros t' [-> | Ht']%elem_of_cons; auto. }
  split; (split; [| by apply Hmax]);
    intros t' [-> | Ht']%elem_of_cons; auto.
Qed.

(** The bounds of a non-empty tile list: the first pass gives finite
    minima, and maxima that are finite or infinite; an axis whose
    maximum does not exceed its minimum gets the minimum plus one. *)
Lemma computeBounds_cons t ts :
  exists (x0 y0 : Q) (x1 y1 : number),
    tightest (mkBounds (Fin x0) (Fin y0) x1 y1) (t :: ts)
    /\ firstPass (t :: ts) = mkBounds (Fin x0) (Fin y0) x1 y1
    /\ computeBounds (t :: ts)
       = mkBounds (Fin x0) (Fin y0)
           (if jsLe x1 (Fin x0) then jsAdd (Fin x0) (Fin 1) else x1)
           (if jsLe y1 (Fin y0) then jsAdd (Fin y0) (Fin 1) else y1).
Proof.
  pose proof (firstPass_tightest t ts) as Htight.
  destruct Htight as (x0 & y0 & x1 & y1 & Hb & Hrest).
  exists x0, y0, x1, y1. split; [| split; [exact Hb |]].
  - exists x0, y0, x1, y1. by split.
  - unfold computeBounds. rewrite Hb. reflexivity.
Qed.

Lemma Qceiling_pos (q : Q) : (0 < q)%Q -> (1 <= Qceiling q)%Z.
Proof.
  intros Hq. pose proof (Qle_ceiling q) as Hc.
  assert (Hlt : (inject_Z 0 < inject_Z (Qceiling q))%Q)
    by (eapply Qlt_le_trans; [exact Hq | exact Hc]).
  rewrite <- Zlt_Qlt in Hlt. lia.
Qed.

(** The size check is the comparison with 16384. *)
Lemma jsGt_exceedsLimit (n : number) :
  jsGt n MAX_DIMENSION = true <-> exceedsLimit n.
Proof.
  destruct n as [| | q |]; cbn; try done.
  rewrite negb_true_iff. split.
  - intros Hcmp. apply Qle_bool_false in Hcmp. exact Hcmp.
  - intros Hlt. destruct (Qle_bool q (inject_Z 16384)) eqn:Hcmp; [| done].
    apply Qle_bool_iff in Hcmp. change (inject_Z 16384) with 16384%Q in Hcmp.
    lra.
Qed.

(** An axis on which a binary64 coordinate below [2^53 - 1] is the only
    one, without extent: it is widened, and [Math.ceil] of its extent is
    1 or 2. *)
Lemma widened_axis (lo ext : Q) :
  isDouble lo -> (Qabs lo < 9007199254740991)%Q -> (ext == 0)%Q ->
  exists c : Z,
    Math_ceil
      (jsSub (if jsLe (jsAdd (Fin lo) (Fin ext)) (Fin lo)
              then jsAdd (Fin lo) (Fin 1)
              else jsAdd (Fin lo) (Fin ext)) (Fin lo)) = ofZ c
    /\ (1 <= c <= 2)%Z.
Proof.
  intros (lo' & Hlo' & Hsame) Hsmall Hext.
  apply Qabs_Qlt_condition in Hsmall as [Hlow Hhigh].
  assert (Hsum : jsAdd (Fin lo) (Fin ext) = Fin lo').
  { cbn [jsAdd]. rewrite <- Hlo'. apply round64_comp. lra. }
  rewrite Hsum. cbn [jsLe].
  assert (Hle : Qle_bool lo' lo = true) by (apply Qle_bool_iff; lra).
  rewrite Hle. cbn [jsAdd].
  destruct (round64_near (lo + 1)) as (v & -> & Hv).
  { apply Qabs_Qlt_condition. split; lra. }
  apply Qabs_Qle_condition in Hv as [Hv1 Hv2].
  cbn [jsSub].
  destruct (round64_half (v - lo)) as (u & Hu & Hhalf); [lra | lra |].
  destruct (round64_near (v - lo)) as (u' & Hu' & Hnear).
  { apply Qabs_Qlt_condition. split; lra. }
  rewrite Hu in Hu'. injection Hu' as <-.
  apply Qabs_Qle_condition in Hnear as [Hu1 Hu2].
  rewrite Hu. cbn [Math_ceil]. exists (Qceiling u).
  split; [reflexivity |]. split.
  - apply Qceiling_pos. lra.
  - rewrite <- (Qceiling_Z 2). apply Qceiling_resp_le.
    change (inject_Z 2) with 2%Q. lra.
Qed.

(** A single binary64-placed tile without extent gets a canvas of at
    least 1 by 1 (and at most 2 by 2). *)
Lemma zero_tile_canvas t :
  isDouble (tileX t) -> isDouble (tileY t) ->
  (Qabs (tileX t) < 9007199254740991)%Q ->
  (Qabs (tileY t) < 9007199254740991)%Q ->
  (tileWidth t == 0)%Q -> (tileHeight t == 0)%Q ->
  exists cw ch : Z,
    canvasWidth (computeBounds [t]) = ofZ cw
    /\ canvasHeight (computeBounds [t]) = ofZ ch
    /\ (1 <= cw <= 2)%Z /\ (1 <= ch <= 2)%Z.
Proof.
  intros Hdx Hdy Hx Hy Hw Hh.
  destruct (widened_axis (tileX t) (tileWidth t) Hdx Hx Hw) as (cw & Hcw & ?).
  destruct (widened_axis (tileY t) (tileHeight t) Hdy Hy Hh) as (ch & Hch & ?).
  exists cw, ch. unfold canvasWidth, canvasHeight, computeBounds, firstPass.
  cbn [fold_left extendBounds initialBounds ensureValid
         minX minY maxX maxY Math_min].
  rewrite !Math_max_NegInf. by rewrite Hcw, Hch.
Qed.

(** The extent of an axis depends on the values of its minimum and
    maximum only. *)
Lemma axis_extent_comp (lo lo' : Q) (hi hi' : number) :
  (lo == lo')%Q -> sameNumber hi hi' ->
  Math_ceil (jsSub (if jsLe hi (Fin lo) then jsAdd (Fin lo) (Fin 1) else hi)
               (Fin lo))
  = Math_ceil (jsSub (if jsLe hi' (Fin lo') then jsAdd (Fin lo') (Fin 1)
                      else hi') (Fin lo')).
Proof.
  intros Hlo Hhi.
  rewrite (jsLe_comp hi hi' (Fin lo) (Fin lo') Hhi Hlo).
  assert (Hone : jsAdd (Fin lo) (Fin 1) = jsAdd (Fin lo') (Fin 1))
    by (apply round64_comp; by rewrite Hlo).
  rewrite Hone.
  assert (Hsub : forall a a', sameNumber a a' ->
            jsSub a (Fin lo) = jsSub a' (Fin lo')).
  { intros [| | x |] [| | x' |]; cbn; try done.
    intros Hx. apply round64_comp. by rewrite Hx, Hlo. }
  destruct (jsLe hi' (Fin lo')).
  - f_equal. apply Hsub, sameNumber_refl.
  - f_equal. by apply Hsub.
Qed.

(** ** Canvas allocation (C5, C6) *)

Section CompositorClaims.
Context {Scene : Type} {host : Host Scene} {browser : Platform}.

(** The second pass and the download step only append to the log. *)
Lemma drawTiles_log b n tiles st :
  exists new, drawLog (drawTiles b n tiles st) = drawLog st ++ new.
Proof.
  revert n st. induction tiles as [| tile rest IH]; intros n st.
  - exists []. cbn. by rewrite app_nil_r.
  - cbn [drawTiles]. destruct (IH (S n) (drawTile b n tile st)) as (new & ->).
    unfold drawTile.
    destruct (textureSrc tile) as [s |];
      [destruct (loadImage n s) as [img [err |] | | err] |];
      cbn [drawLog]; rewrite <- app_assoc; by eexists.
Qed.

Lemma saveComposite_log scene loaded lg :
  exists new, saveComposite scene loaded lg = lg ++ new.
Proof.
  unfold saveComposite. destruct toBlob; cbn [negb]; [| by eexists].
  destruct fileSaver; by eexists.
Qed.

(** The export of a non-empty tile list, up to the size check. *)
Lemma exportSceneTilesAsImage_sized w scene t ts :
  current w = Some scene ->
  scene_tiles scene = Some (t :: ts) ->
  getContext2d = true ->
  let cw := canvasWidth (computeBounds (t :: ts)) in
  let ch := canvasHeight (computeBounds (t :: ts)) in
  let opening :=
    [CreateCanvas;
     Notify Info [Lit "Preparing to export "; Num (ofNat (S (length ts)));
                  Lit " tiles..."]] in
  if jsGt cw MAX_DIMENSION || jsGt ch MAX_DIMENSION
  then exportSceneTilesAsImage w
       = mkWorld (Some scene)
           (log w ++ opening ++
              [Notify Error
                 [Lit "Canvas size too large ("; Num cw; Lit "x"; Num ch;
                  Lit "). Maximum supported dimensions are ";
                  Num MAX_DIMENSION; Lit "x"; Num MAX_DIMENSION; Lit "."]])
  else exists rest,
         log (exportSceneTilesAsImage w)
         = log w ++ opening ++
             [SetCanvasSize cw ch; ClearRect (Fin 0) (Fin 0) cw ch] ++ rest.
Proof.
  intros Hscene Htiles Hctx cw ch opening.
  unfold exportSceneTilesAsImage. rewrite Hscene, Htiles, Hctx.
  cbn [negb]. fold cw ch.
  destruct (jsGt cw MAX_DIMENSION || jsGt ch MAX_DIMENSION).
  - unfold notify, emit. cbn [log current length]. rewrite Hscene.
    rewrite <- !app_assoc. reflexivity.
  - unfold notify, emit. cbn [log current length].
    match goal with
    | |- context [saveComposite ?s ?l ?g] =>
        destruct (saveComposite_log s l g) as (new2 & ->)
    end.
    match goal with
    | |- context [drawTiles ?b ?n ?l ?st] =>
        destruct (drawTiles_log b n l st) as (new1 & Hdraw)
    end.
    cbn [drawLog] in Hdraw. rewrite Hdraw.
    destruct (decide _); rewrite <- !app_assoc; cbn [app]; by eexists.
Qed.

(** C5, amended.  An empty tile collection never reaches the bounds: the
    export warns and creates no canvas.  A collection of one tile of
    zero width and height, placed at binary64 coordinates of magnitude
    below [2^53 - 1], gets bounds whose width and height are whole
    numbers of at least 1, and the export sets them on the canvas. *)
Theorem degenerate_bounds :
  (forall w scene,
     current w = Some scene -> scene_tiles scene = Some [] ->
     exportSceneTilesAsImage w
     = notify Warn [Lit "The current scene has no tiles to export."] w)
  /\ (forall t,
        isDouble (tileX t) -> isDouble (tileY t) ->
        (Qabs (tileX t) < 9007199254740991)%Q ->
        (Qabs (tileY t) < 9007199254740991)%Q ->
        (tileWidth t == 0)%Q -> (tileHeight t == 0)%Q ->
        exists cw ch : Z,
          canvasWidth (computeBounds [t]) = ofZ cw
          /\ canvasHeight (computeBounds [t]) = ofZ ch
          /\ (1 <= cw)%Z /\ (1 <= ch)%Z
          /\ forall w scene,
               current w = Some scene -> scene_tiles scene = Some [t] ->
               getContext2d = true ->
               exists rest,
                 log (exportSceneTilesAsImage w)
                 = log w ++
                     [CreateCanvas;
                      Notify Info [Lit "Preparing to export "; Num (ofNat 1);
                                   Lit " tiles..."];
                      SetCanvasSize (ofZ cw) (ofZ ch);
                      ClearRect (Fin 0) (Fin 0) (ofZ cw) (ofZ ch)] ++ rest).
Proof.
  split.
  - intros w scene Hscene Htiles. unfold exportSceneTilesAsImage.
    by rewrite Hscene, Htiles.
  - intros t Hdx Hdy Hx Hy Hw Hh.
    destruct (zero_tile_canvas t Hdx Hdy Hx Hy Hw Hh)
      as (cw & ch & Hcw & Hch & [Hcw1 Hcw2] & [Hch1 Hch2]).
    exists cw, ch. split; [exact Hcw |]. split; [exact Hch |].
    split; [exact Hcw1 |]. split; [exact Hch1 |].
    intros w scene Hscene Htiles Hctx.
    pose proof (exportSceneTilesAsImage_sized w scene t [] Hscene Htiles Hctx)
      as Hrun. cbn zeta in Hrun. rewrite Hcw, Hch in Hrun.
    assert (Hfits : jsGt (ofZ cw) MAX_DIMENSION
                    || jsGt (ofZ ch) MAX_DIMENSION = false).
    { apply orb_false_iff. split; apply not_true_is_false;
        rewrite jsGt_exceedsLimit; unfold exceedsLimit, ofZ;
        change 16384%Q with (inject_Z 16384); rewrite <- Zlt_Qlt; lia. }
    rewrite Hfits in Hrun. destruct Hrun as (rest & ->).
    exists rest. reflexivity.
Qed.

(** C6, amended.  For a non-empty tile list (and a canvas context), with
    the canvas dimensions [cw] by [ch] the bounds give: when either is
    strictly greater than 16384 the export ends with the size error as a
    notification, after the canvas element was created, and without the
    canvas dimensions ever being set; when neither is, the dimensions
    are set to [cw] by [ch]. *)
Theorem size_ceiling w scene t ts :
  current w = Some scene ->
  scene_tiles scene = Some (t :: ts) ->
  getContext2d = true ->
  let cw := canvasWidth (computeBounds (t :: ts)) in
  let ch := canvasHeight (computeBounds (t :: ts)) in
  (exceedsLimit cw \/ exceedsLimit ch ->
     exportSceneTilesAsImage w
     = mkWorld (Some scene)
         (log w ++
            [CreateCanvas;
             Notify Info [Lit "Preparing to export ";
                          Num (ofNat (S (length ts))); Lit " tiles..."];
             Notify Error
               [Lit "Canvas size too large ("; Num cw; Lit "x"; Num ch;
                Lit "). Maximum supported dimensions are ";
                Num (ofZ 16384); Lit "x"; Num (ofZ 16384); Lit "."]]))
  /\ (~ exceedsLimit cw -> ~ exceedsLimit ch ->
      exists rest,
        log (exportSceneTilesAsImage w)
        = log w ++
            [CreateCanvas;
             Notify Info [Lit "Preparing to export ";
                          Num (ofNat (S (length ts))); Lit " tiles..."];
             SetCanvasSize cw ch;
             ClearRect (Fin 0) (Fin 0) cw ch] ++ rest).
Proof.
  intros Hscene Htiles Hctx cw ch.
  pose proof (exportSceneTilesAsImage_sized w scene t ts Hscene Htiles Hctx)
    as Hrun. cbn zeta in Hrun. fold cw ch in Hrun.
  split.
  - intros Hbig.
    assert (Hgt : jsGt cw MAX_DIMENSION || jsGt ch MAX_DIMENSION = true).
    { apply orb_true_iff. destruct Hbig as [Hbig | Hbig];
        [left | right]; by apply jsGt_exceedsLimit. }
    rewrite Hgt in Hrun. exact Hrun.
  - intros Hw Hh.
    assert (Hle : jsGt cw MAX_DIMENSION || jsGt ch MAX_DIMENSION = false).
    { apply orb_false_iff. split; apply not_true_is_false;
        by rewrite jsGt_exceedsLimit. }
    rewrite Hle in Hrun. exact Hrun.
Qed.

End CompositorClaims.

(** C5 as stated fails on the empty collection: no canvas is created, and
    the bounds of no tiles have no width or height at all. *)
Lemma empty_tiles_counterexample :
  let scene := mkRefScene (JNum (Fin 0)) (Some "Cellar") [] (Some []) 0 in
  let browser := session (inr JNull) true noImages in
  exportSceneTilesAsImage (browser := browser) (mkWorld (Some scene) [])
  = mkWorld (Some scene)
      [Notify Warn [Lit "The current scene has no tiles to export."]]
  /\ canvasWidth (computeBounds []) = NaN
  /\ canvasHeight (computeBounds []) = NaN
  /\ jsLe (ofZ 1) (canvasWidth (computeBounds [])) = false.
Proof. cbn zeta. repeat split; reflexivity. Qed.

(** A zero-size tile at x = 1.2, y = 7: the canvas is 2 by 1. *)
Lemma degenerate_bounds_witness :
  isDouble (tileX pointTile) /\ isDouble (tileY pointTile)
  /\ canvasWidth (computeBounds [pointTile]) = ofZ 2
  /\ canvasHeight (computeBounds [pointTile]) = ofZ 1.
Proof.
  assert (Hdx : isDouble (tileX pointTile))
    by (eexists; split; [vm_compute; reflexivity | reflexivity]).
  assert (Hdy : isDouble (tileY pointTile))
    by (eexists; split; [vm_compute; reflexivity | reflexivity]).
  split; [exact Hdx |]. split; [exact Hdy |].
  destruct (degenerate_bounds (host := refHost)
              (browser := session (inr JNull) true noImages)) as [_ Hzero].
  destruct (Hzero pointTile Hdx Hdy)
    as (cw & ch & Hcw & Hch & _); try (vm_compute; reflexivity).
  vm_compute in Hcw. injection Hcw as <-.
  vm_compute in Hch. injection Hch as <-.
  split; reflexivity.
Defined.

(** Beyond [2^53] adding one is lost to rounding: a zero-size tile at
    x = 2^53 gets a canvas without width. *)
Example huge_coordinate_canvas :
  canvasWidth (computeBounds [hugeTile]) = ofZ 0
  /\ canvasHeight (computeBounds [hugeTile]) = ofZ 1.
Proof. split; vm_compute; reflexivity. Qed.

(** C6 as stated fails: the canvas element exists before the size check,
    and the export ends with a notification, not an error. *)
Lemma size_error_counterexample :
  let scene := mkRefScene (JNum (Fin 0)) (Some "Cellar") [] (Some [wideTile]) 0 in
  let browser := session (inr JNull) true noImages in
  let w' := exportSceneTilesAsImage (browser := browser)
              (mkWorld (Some scene) []) in
  head (log w') = Some CreateCanvas
  /\ current w' = Some scene
  /\ last (log w')
     = Some (Notify Error
               [Lit "Canvas size too large ("; Num (ofZ 16385); Lit "x";
                Num (ofZ 10); Lit "). Maximum supported dimensions are ";
                Num (ofZ 16384); Lit "x"; Num (ofZ 16384); Lit "."]).
Proof. cbn zeta. repeat split; vm_compute; reflexivity. Qed.

(** Three single tiles: 16385 wide; 16384 wide; and 16384 wide at
    x = 16384.3, where the right edge is rounded up and the canvas comes
    out 16385 wide. *)
Lemma size_ceiling_witness :
  let sceneOf tile :=
    mkRefScene (JNum (Fin 0)) (Some "Cellar") [] (Some [tile]) 0 in
  let browser := session (inr JNull) true noImages in
  let refused (cw ch : Z) :=
    [CreateCanvas;
     Notify Info [Lit "Preparing to export "; Num (ofNat 1);
                  Lit " tiles..."];
     Notify Error
       [Lit "Canvas size too large ("; Num (ofZ cw); Lit "x";
        Num (ofZ ch); Lit "). Maximum supported dimensions are ";
        Num (ofZ 16384); Lit "x"; Num (ofZ 16384); Lit "."]] in
  log (exportSceneTilesAsImage (browser := browser)
         (mkWorld (Some (sceneOf wideTile)) [])) = refused 16385%Z 10%Z
  /\ SetCanvasSize (ofZ 16384) (ofZ 10)
       ∈ log (exportSceneTilesAsImage (browser := browser)
                (mkWorld (Some (sceneOf exactTile)) []))
  /\ log (exportSceneTilesAsImage (browser := browser)
            (mkWorld (Some (sceneOf offsetTile)) [])) = refused 16385%Z 10%Z.
Proof.
  cbn zeta.
  assert (Hrun : forall tile,
    let scene :=
      mkRefScene (JNum (Fin 0)) (Some "Cellar") [] (Some [tile]) 0 in
    let cw := canvasWidth (computeBounds [tile]) in
    let ch := canvasHeight (computeBounds [tile]) in
    (exceedsLimit cw \/ exceedsLimit ch ->
       exportSceneTilesAsImage (host := refHost)
         (browser := session (inr JNull) true noImages)
         (mkWorld (Some scene) [])
       = mkWorld (Some scene)
           ([] ++
              [CreateCanvas;
               Notify Info [Lit "Preparing to export "; Num (ofNat 1);
                            Lit " tiles..."];
               Notify Error
                 [Lit "Canvas size too large ("; Num cw; Lit "x"; Num ch;
                  Lit "). Maximum supported dimensions are ";
                  Num (ofZ 16384); Lit "x"; Num (ofZ 16384); Lit "."]]))
    /\ (~ exceedsLimit cw -> ~ exceedsLimit ch ->
        exists rest,
          log (exportSceneTilesAsImage (host := refHost)
                 (browser := session (inr JNull) true noImages)
                 (mkWorld (Some scene) []))
          = [] ++
              [CreateCanvas;
               Notify Info [Lit "Preparing to export "; Num (ofNat 1);
                            Lit " tiles..."];
               SetCanvasSize cw ch;
               ClearRect (Fin 0) (Fin 0) cw ch] ++ rest)).
  { intros tile.
    exact (size_ceiling (host := refHost)
             (browser := session (inr JNull) true noImages)
             (mkWorld
                (Some (mkRefScene (JNum (Fin 0)) (Some "Cellar") []
                         (Some [tile]) 0)) [])
             (mkRefScene (JNum (Fin 0)) (Some "Cellar") [] (Some [tile]) 0)
             tile [] eq_refl eq_refl eq_refl). }
  cbn zeta in Hrun.
  split; [| split].
  - destruct (Hrun wideTile) as [Hrefused _].
    rewrite Hrefused by (left; vm_compute; reflexivity).
    vm_compute. reflexivity.
  - destruct (Hrun exactTile) as [_ Hsized].
    destruct Hsized as (rest & ->);
      [vm_compute; discriminate | vm_compute; discriminate |].
    replace (canvasWidth (computeBounds [exactTile])) with (ofZ 16384)
      by (vm_compute; reflexivity).
    replace (canvasHeight (computeBounds [exactTile])) with (ofZ 10)
      by (vm_compute; reflexivity).
    cbn [app]. do 2 (apply elem_of_cons; right). apply elem_of_cons. by left.
  - destruct (Hrun offsetTile) as [Hrefused _].
    rewrite Hrefused by (left; vm_compute; reflexivity).
    vm_compute. reflexivity.
Defined.

(** ** Bounds and offsets (C7) *)

Section BoundsClaims.
Context {Scene : Type} {host : Host Scene} {browser : Platform}.

(** C7, amended.  For a non-empty tile list the first pass ends with the
    minima of the tiles' [x] and [y] and the maxima of their [x + width]
    and [y + height]; the bounds keep the minima, and keep a maximum
    unless it does not exceed the minimum of its axis, in which case the
    maximum becomes the minimum plus one.  A tile whose image loads is
    drawn whole at [(x - minX, y - minY)], scaled to [(width, height)].
    For the tiles (10, 20, 5, 5) and (0, 0, 2, 2) the bounds are
    0, 0, 15, 25 and the tiles are drawn at (10, 20) and (0, 0).  Sums
    and differences are the binary64 ones. *)
Theorem bounds_and_offsets :
  (forall t ts, exists (x0 y0 : Q) (x1 y1 : number),
     firstPass (t :: ts) = mkBounds (Fin x0) (Fin y0) x1 y1
     /\ isMinOf x0 tileX (t :: ts) /\ isMinOf y0 tileY (t :: ts)
     /\ isMaxOf x1 tileRight (t :: ts) /\ isMaxOf y1 tileBottom (t :: ts)
     /\ computeBounds (t :: ts)
        = mkBounds (Fin x0) (Fin y0)
            (if jsLe x1 (Fin x0) then jsAdd (Fin x0) (Fin 1) else x1)
            (if jsLe y1 (Fin y0) then jsAdd (Fin y0) (Fin 1) else y1)
     /\ (jsGt x1 (Fin x0) = true -> jsGt y1 (Fin y0) = true ->
         computeBounds (t :: ts) = firstPass (t :: ts)
         /\ tightest (computeBounds (t :: ts)) (t :: ts))
     /\ forall n tile s img st,
          textureSrc tile = Some s ->
          loadImage n s = OnLoad img None ->
          drawTile (computeBounds (t :: ts)) n tile st
          = mkDrawState (S (loadedCount st)) (failedCount st)
              (drawLog st ++
                 [DrawImage img (Fin 0) (Fin 0)
                    (Fin (img_width img)) (Fin (img_height img))
                    (jsSub (Fin (tileX tile)) (Fin x0))
                    (jsSub (Fin (tileY tile)) (Fin y0))
                    (Fin (tileWidth tile)) (Fin (tileHeight tile))]))
  /\ (let a := plainTile 10 20 5 5 "a.png" in
      let b := plainTile 0 0 2 2 "b.png" in
      computeBounds [a; b] = mkBounds (Fin 0) (Fin 0) (Fin 15) (Fin 25)
      /\ forall imgA imgB st,
           loadImage 0 "a.png" = OnLoad imgA None ->
           loadImage 1 "b.png" = OnLoad imgB None ->
           drawLog (drawTiles (computeBounds [a; b]) 0 [a; b] st)
           = drawLog st ++
               [DrawImage imgA (Fin 0) (Fin 0)
                  (Fin (img_width imgA)) (Fin (img_height imgA))
                  (Fin 10) (Fin 20) (Fin 5) (Fin 5);
                DrawImage imgB (Fin 0) (Fin 0)
                  (Fin (img_width imgB)) (Fin (img_height imgB))
                  (Fin 0) (Fin 0) (Fin 2) (Fin 2)]).
Proof.
  split.
  - intros t ts.
    destruct (computeBounds_cons t ts)
      as (x0 & y0 & x1 & y1 & Htight & Hfirst & Hbounds).
    destruct Htight as (x0' & y0' & x1' & y1' & [= <- <- <- <-]
                        & Hx0 & Hy0 & Hx1 & Hy1).
    exists x0, y0, x1, y1.
    split; [exact Hfirst |]. split; [exact Hx0 |]. split; [exact Hy0 |].
    split; [exact Hx1 |]. split; [exact Hy1 |]. split; [exact Hbounds |].
    split.
    + intros Hwide Hhigh.
      rewrite Hbounds, Hfirst, (jsGt_jsLe _ _ Hwide), (jsGt_jsLe _ _ Hhigh).
      split; [reflexivity |].
      exists x0, y0, x1, y1.
      exact (conj eq_refl (conj Hx0 (conj Hy0 (conj Hx1 Hy1)))).
    + intros n tile s img st Hsrc Hload. unfold drawTile.
      rewrite Hsrc, Hload, Hbounds. reflexivity.
  - cbn zeta.
    assert (Hb : computeBounds [plainTile 10 20 5 5 "a.png";
                                plainTile 0 0 2 2 "b.png"]
                 = mkBounds (Fin 0) (Fin 0) (Fin 15) (Fin 25))
      by (vm_compute; reflexivity).
    split; [exact Hb |].
    intros imgA imgB st HA HB. rewrite Hb. cbn [drawTiles]. unfold drawTile.
    replace (textureSrc (plainTile 10 20 5 5 "a.png")) with (Some "a.png")
      by reflexivity.
    replace (textureSrc (plainTile 0 0 2 2 "b.png")) with (Some "b.png")
      by reflexivity.
    rewrite HA. cbn [loadedCount failedCount drawLog]. rewrite HB.
    cbn [drawLog minX minY]. rewrite <- app_assoc.
    replace (jsSub (Fin (tileX (plainTile 10 20 5 5 "a.png"))) (Fin 0))
      with (Fin 10) by (vm_compute; reflexivity).
    replace (jsSub (Fin (tileY (plainTile 10 20 5 5 "a.png"))) (Fin 0))
      with (Fin 20) by (vm_compute; reflexivity).
    replace (jsSub (Fin (tileX (plainTile 0 0 2 2 "b.png"))) (Fin 0))
      with (Fin 0) by (vm_compute; reflexivity).
    replace (jsSub (Fin (tileY (plainTile 0 0 2 2 "b.png"))) (Fin 0))
      with (Fin 0) by (vm_compute; reflexivity).
    reflexivity.
Qed.

End BoundsClaims.

(** The maximum of a tile without extent is moved one unit past the
    minimum, so the bounds are not the tightest rectangle around it. *)
Lemma bounds_not_tightest :
  let t := plainTile 0 0 0 0 "a.png" in
  maxX (computeBounds [t]) = Fin 1
  /\ tileRight t = Fin 0
  /\ ~ tightest (computeBounds [t]) [t].
Proof.
  cbn zeta. split; [vm_compute; reflexivity |].
  split; [vm_compute; reflexivity |].
  intros (x0 & y0 & x1 & y1 & Hb & _ & _ & (_ & t' & Hin & Heq) & _).
  apply list_elem_of_singleton in Hin as ->.
  vm_compute in Hb. injection Hb as <- <- <- <-.
  vm_compute in Heq. discriminate.
Qed.

(** ** Sources and counters (C8, C9) *)

Section DrawClaims.
Context {Scene : Type} {host : Host Scene} {browser : Platform}.

(** One step of the priority list. *)
Lemma firstNonEmpty_cons (c : option string) rest :
  firstNonEmpty (c :: rest)
  = match truthyString c with
    | Some s => Some s
    | None => firstNonEmpty rest
    end.
Proof. by destruct c as [[| a s] |]. Qed.

Lemma firstNonEmpty_None (candidates : list (option string)) :
  firstNonEmpty candidates = None
  <-> Forall (fun c => c = None \/ c = Some EmptyString) candidates.
Proof.
  induction candidates as [| [[| a s] |] rest IH]; cbn.
  - split; [constructor | done].
  - rewrite IH. split.
    + intros Hrest. constructor; [by right | exact Hrest].
    + intros Hall. by apply Forall_cons in Hall as [_ Hall].
  - split; [discriminate |].
    intros Hall. apply Forall_cons in Hall as [[Hc | Hc] _]; discriminate.
  - rewrite IH. split.
    + intros Hrest. constructor; [by left | exact Hrest].
    + intros Hall. by apply Forall_cons in Hall as [_ Hall].
Qed.

(** C8.  The source of a tile is the first one that is there and not
    empty among the direct texture, the nested document's texture, the
    direct image and the nested document's image, in this order; so a
    non-empty direct texture wins whatever the other three hold; no
    source resolves exactly when each of the four is missing or empty;
    and then the tile is counted as failed, logged, and the pass goes on
    with the next tile. *)
Theorem source_resolution tile :
  textureSrc tile
  = firstNonEmpty [directTexture tile; nestedTexture tile;
                   directImage tile; nestedImage tile]
  /\ (forall s, directTexture tile = Some s -> s <> EmptyString ->
        textureSrc tile = Some s)
  /\ (textureSrc tile = None
      <-> Forall (fun c => c = None \/ c = Some EmptyString)
            [directTexture tile; nestedTexture tile;
             directImage tile; nestedImage tile])
  /\ (textureSrc tile = None ->
      forall b n rest st,
        drawTiles b n (tile :: rest) st
        = drawTiles b (S n) rest
            (mkDrawState (loadedCount st) (S (failedCount st))
               (drawLog st ++
                  [LoggerWarn
                     [Lit "Tile doesn't have a valid texture source"]]))).
Proof.
  assert (Hchain : textureSrc tile
                   = firstNonEmpty [directTexture tile; nestedTexture tile;
                                    directImage tile; nestedImage tile]).
  { rewrite !firstNonEmpty_cons. unfold textureSrc.
    replace (texture_src (tile_texture tile)) with (directTexture tile)
      by reflexivity.
    replace (texture_src (nested doc_texture tile)) with (nestedTexture tile)
      by (unfold nestedTexture, nested; by destruct (tile_document tile)).
    replace (nested doc_img tile) with (nestedImage tile)
      by (unfold nestedImage, nested; by destruct (tile_document tile)).
    unfold directImage.
    destruct (truthyString (directTexture tile)); [done |].
    destruct (truthyString (nestedTexture tile)); [done |].
    destruct (truthyString (tile_img tile)); [done |].
    destruct (truthyString (nestedImage tile)); done. }
  split; [exact Hchain |]. split; [| split].
  - intros s Hs Hne. rewrite Hchain, Hs. cbn [firstNonEmpty].
    by destruct (decide (s = EmptyString)).
  - rewrite Hchain. apply firstNonEmpty_None.
  - intros Hnone b n rest st. cbn [drawTiles]. unfold drawTile.
    by rewrite Hnone.
Qed.

Lemma drawTile_counts b n tile st :
  loadedCount (drawTile b n tile st)
  = loadedCount st + (if tileSucceeds n tile then 1 else 0)
  /\ failedCount (drawTile b n tile st)
     = failedCount st + (if tileSucceeds n tile then 0 else 1).
Proof.
  unfold drawTile, tileSucceeds.
  destruct (textureSrc tile) as [s |];
    [destruct (loadImage n s) as [img [err |] | | err] |];
    cbn [loadedCount failedCount]; lia.
Qed.

Lemma drawTiles_app b n tiles1 tiles2 st :
  drawTiles b n (tiles1 ++ tiles2) st
  = drawTiles b (n + length tiles1) tiles2 (drawTiles b n tiles1 st).
Proof.
  revert n st. induction tiles1 as [| tile rest IH]; intros n st.
  - cbn. by rewrite Nat.add_0_r.
  - cbn [app drawTiles length]. rewrite IH. f_equal. lia.
Qed.

Lemma drawTiles_counts b n tiles st :
  loadedCount (drawTiles b n tiles st)
    = loadedCount st + countSucceeding n tiles
  /\ failedCount (drawTiles b n tiles st)
    = failedCount st + (length tiles - countSucceeding n tiles)
  /\ countSucceeding n tiles <= length tiles.
Proof.
  revert n st. induction tiles as [| tile rest IH]; intros n st.
  - cbn. lia.
  - cbn [drawTiles countSucceeding length].
    destruct (IH (S n) (drawTile b n tile st)) as (Hl & Hf & Hle).
    destruct (drawTile_counts b n tile st) as [Hl1 Hf1].
    rewrite Hl, Hf, Hl1, Hf1.
    destruct (tileSucceeds n tile); lia.
Qed.

(** An export that gets as far as the download reports both counters:
    the warning carries [failedCount] and the closing line
    [loadedCount]. *)
Lemma exportSceneTilesAsImage_report w scene tiles :
  current w = Some scene ->
  scene_tiles scene = Some tiles ->
  tiles <> [] ->
  getContext2d = true ->
  jsGt (canvasWidth (computeBounds tiles)) MAX_DIMENSION = false ->
  jsGt (canvasHeight (computeBounds tiles)) MAX_DIMENSION = false ->
  toBlob = true ->
  fileSaver = None ->
  let drawn := countSucceeding 0 tiles in
  last (log (exportSceneTilesAsImage w))
  = Some (Notify Info [Lit "Scene tiles exported successfully (";
                       Num (ofNat drawn); Lit " tiles)."])
  /\ (drawn < length tiles ->
      Notify Warn [Num (ofNat (length tiles - drawn));
                   Lit " tiles could not be loaded or drawn."]
        ∈ log (exportSceneTilesAsImage w)).
Proof.
  intros Hscene Htiles Hne Hctx Hw Hh Hblob Hsaver drawn.
  unfold exportSceneTilesAsImage. rewrite Hscene, Htiles, Hctx.
  destruct tiles as [| t ts]; [done |].
  cbn [negb]. rewrite Hw, Hh. cbn [orb].
  unfold saveComposite. rewrite Hblob, Hsaver. cbn [negb log].
  set (b := computeBounds (t :: ts)).
  set (w1 := notify Info _ (emit _ (emit _ (notify Info _ (emit _ w))))).
  destruct (drawTiles_counts b 0 (t :: ts) (mkDrawState 0 0 (log w1)))
    as (Hl & Hf & Hle).
  cbn [loadedCount failedCount] in Hl, Hf. fold drawn in Hl, Hf, Hle.
  rewrite Hl, Hf. cbn [Nat.add].
  split.
  - destruct (decide _); rewrite last_app; reflexivity.
  - intros Hlt. destruct (decide _) as [_ | Hno]; [| lia].
    rewrite !elem_of_app. left. right. apply list_elem_of_singleton.
    reflexivity.
Qed.

(** C9.  Every tile moves exactly one of the two counters by exactly one,
    according to its own outcome only; so after the pass the counters
    have grown by the number of tiles, [loadedCount] by the tiles that
    were drawn and [failedCount] by the others; the tiles after any
    prefix are processed whatever happened in the prefix; and an export
    that reaches the download reports exactly these two counts. *)
Theorem tile_counters b n tiles st :
  let st' := drawTiles b n tiles st in
  loadedCount st' = loadedCount st + countSucceeding n tiles
  /\ failedCount st'
     = failedCount st + (length tiles - countSucceeding n tiles)
  /\ countSucceeding n tiles <= length tiles
  /\ loadedCount st' + failedCount st'
     = loadedCount st + failedCount st + length tiles
  /\ (forall tile,
        (loadedCount (drawTile b n tile st) = S (loadedCount st)
         /\ failedCount (drawTile b n tile st) = failedCount st)
        \/ (loadedCount (drawTile b n tile st) = loadedCount st
            /\ failedCount (drawTile b n tile st) = S (failedCount st)))
  /\ (forall before after, tiles = before ++ after ->
        st' = drawTiles b (n + length before) after
                (drawTiles b n before st))
  /\ (forall w scene,
        current w = Some scene ->
        scene_tiles scene = Some tiles ->
        tiles <> [] ->
        getContext2d = true ->
        jsGt (canvasWidth (computeBounds tiles)) MAX_DIMENSION = false ->
        jsGt (canvasHeight (computeBounds tiles)) MAX_DIMENSION = false ->
        toBlob = true ->
        fileSaver = None ->
        last (log (exportSceneTilesAsImage w))
        = Some (Notify Info [Lit "Scene tiles exported successfully (";
                             Num (ofNat (countSucceeding 0 tiles));
                             Lit " tiles)."])
        /\ (countSucceeding 0 tiles < length tiles ->
            Notify Warn [Num (ofNat (length tiles - countSucceeding 0 tiles));
                         Lit " tiles could not be loaded or drawn."]
              ∈ log (exportSceneTilesAsImage w))).
Proof.
  cbn zeta.
  destruct (drawTiles_counts b n tiles st) as (Hl & Hf & Hle).
  split; [exact Hl |]. split; [exact Hf |]. split; [exact Hle |].
  split; [lia |]. split; [| split].
  - intros tile. destruct (drawTile_counts b n tile st) as [Hl1 Hf1].
    destruct (tileSucceeds n tile); [left | right]; lia.
  - intros before after ->. apply drawTiles_app.
  - intros w scene. apply exportSceneTilesAsImage_report.
Qed.

End DrawClaims.

(** A tile with all four sources uses its direct texture; with an empty
    direct texture it uses the nested document's texture; a tile with no
    source at all is counted as failed and the next tile is drawn. *)
Lemma source_resolution_witness :
  let browser := session (inr JNull) true noImages in
  let bare := tileOver (Some 1%Q) (Some 1%Q) None None None None in
  textureSrc fourSources = Some "direct.webp"
  /\ textureSrc emptyDirectSource = Some "nested.webp"
  /\ textureSrc bare = None
  /\ drawTiles (browser := browser) (computeBounds [bare; fourSources]) 0
       [bare; fourSources] (mkDrawState 0 0 [])
     = drawTiles (browser := browser) (computeBounds [bare; fourSources]) 1
         [fourSources]
         (mkDrawState 0 1
            [LoggerWarn [Lit "Tile doesn't have a valid texture source"]]).
Proof.
  cbn zeta.
  pose (browser := session (inr JNull) true noImages).
  pose (bare := tileOver (Some 1%Q) (Some 1%Q) None None None None).
  destruct (source_resolution (browser := browser) fourSources)
    as (_ & Hdirect & _).
  destruct (source_resolution (browser := browser) emptyDirectSource)
    as (Hchain & _).
  destruct (source_resolution (browser := browser) bare)
    as (_ & _ & Hnone & Hskip).
  split; [apply Hdirect; [reflexivity | discriminate] |].
  split; [rewrite Hchain; reflexivity |].
  assert (Hbare : textureSrc bare = None)
    by (apply Hnone; repeat constructor).
  split; [exact Hbare |].
  apply (Hskip Hbare _ 0 [fourSources] (mkDrawState 0 0 [])).
Defined.

(** ** Falsy coordinates (C10) *)

Lemma orNestedOrZero_falsy direct nested :
  truthy direct = false ->
  orNestedOrZero direct nested = orNestedOrZero None nested
  /\ (orNestedOrZero direct nested == default 0%Q nested)%Q.
Proof.
  intros Hfalsy. unfold orNestedOrZero, jsOr. rewrite Hfalsy. cbn [truthy].
  split; [reflexivity |].
  destruct nested as [v |]; cbn [truthy default]; [| reflexivity].
  destruct (Qeq_bool v 0) eqn:Hv; cbn [negb default]; [| reflexivity].
  apply Qeq_bool_eq in Hv. by symmetry.
Qed.

Lemma truthy_zero (q : Q) : (q == 0)%Q -> truthy (Some q) = false.
Proof.
  intros Hq. cbn. apply Qeq_eq_bool in Hq. by rewrite Hq.
Qed.

(** C10.  A direct [x], [y], [width] or [height] that is 0 is treated as
    if the property were missing: the nested document's value is used
    instead, and 0 when there is none.  A tile with direct [x = 0] over a
    document with [x = 5] is placed at 5, in the bounds and when
    drawn. *)
Theorem zero_is_missing tile :
  (forall q, tile_x tile = Some q -> (q == 0)%Q ->
     (tileX tile == default 0%Q (nested doc_x tile))%Q
     /\ tileX tile = orNestedOrZero None (nested doc_x tile))
  /\ (forall q, tile_y tile = Some q -> (q == 0)%Q ->
        (tileY tile == default 0%Q (nested doc_y tile))%Q
        /\ tileY tile = orNestedOrZero None (nested doc_y tile))
  /\ (forall q, tile_width tile = Some q -> (q == 0)%Q ->
        (tileWidth tile == default 0%Q (nested doc_width tile))%Q
        /\ tileWidth tile = orNestedOrZero None (nested doc_width tile))
  /\ (forall q, tile_height tile = Some q -> (q == 0)%Q ->
        (tileHeight tile == default 0%Q (nested doc_height tile))%Q
        /\ tileHeight tile = orNestedOrZero None (nested doc_height tile))
  /\ tileX (tileOver (Some 0%Q) (Some 7%Q) (Some 2%Q) (Some 2%Q)
              (Some 5%Q) None) = 5%Q
  /\ minX (computeBounds
             [tileOver (Some 0%Q) (Some 7%Q) (Some 2%Q) (Some 2%Q)
                (Some 5%Q) None]) = Fin 5
  /\ tileX (tileOver (Some 0%Q) (Some 7%Q) (Some 2%Q) (Some 2%Q)
              (Some 5%Q) None)
     = tileX (tileOver None (Some 7%Q) (Some 2%Q) (Some 2%Q)
                (Some 5%Q) None).
Proof.
  assert (Hprop : forall (direct nested : option Q) q,
    direct = Some q -> (q == 0)%Q ->
    (orNestedOrZero direct nested == default 0%Q nested)%Q
    /\ orNestedOrZero direct nested = orNestedOrZero None nested).
  { intros direct nested q -> Hzero.
    destruct (orNestedOrZero_falsy (Some q) nested (truthy_zero q Hzero)).
    by split. }
  split; [intros q; apply Hprop |].
  split; [intros q; apply Hprop |].
  split; [intros q; apply Hprop |].
  split; [intros q; apply Hprop |].
  repeat split; reflexivity.
Qed.

(** ** Small runs *)

Example textureSrc_direct_first :
  textureSrc fourSources = Some "direct.webp"
  /\ textureSrc emptyDirectSource = Some "nested.webp"
  /\ textureSrc (tileOver (Some 1%Q) (Some 1%Q) None None None None) = None.
Proof. repeat split; reflexivity. Qed.

Example stripIdentity_object :
  let strip := stripIdentity (browser := session (inr JNull) true noImages) in
  strip (JObj (sampleWall "abc" 10))
  = inr (delete "_id" (sampleWall "abc" 10))
  /\ delete "_id" (sampleWall "abc" 10) !! "_id" = None
  /\ delete "_id" (sampleWall "abc" 10) !! "door" = Some (JNum (ofZ 0))
  /\ strip JNull
     = inl (ErrorObj "TypeError"
              "Cannot destructure property '_id' of 'wall' as it is null.")
  /\ strip JUndefined
     = inl (ErrorObj "TypeError"
              "Cannot destructure property '_id' of 'wall' as it is undefined.").
Proof. repeat split; reflexivity. Qed.

(** The letter a, U+00E9 and U+1F600 are four code units: the last is
    the surrogates U+D83D and U+DE00. *)
Example stripIdentity_string :
  let text :=
    "a" +:+ utf8 0xE9
    +:+ String "240" (String "159" (String "152" (String "128" ""))) in
  codeUnits text = ["a"; utf8 0xE9; utf8 0xD83D; utf8 0xDE00]
  /\ stripIdentity (browser := session (inr JNull) true noImages) (JStr text)
     = inr (list_to_map
              [("0", JStr "a"); ("1", JStr (utf8 0xE9));
               ("2", JStr (utf8 0xD83D)); ("3", JStr (utf8 0xDE00))]).
Proof. split; vm_compute; reflexivity. Qed.

Example batchCount_values :
  batchCount 0 = 0 /\ batchCount 1 = 1 /\ batchCount 100 = 1
  /\ batchCount 101 = 2 /\ batchCount 250 = 3.
Proof. repeat split; reflexivity. Qed.

Example drawTiles_four_fates :
  let tiles :=
    [plainTile 10 20 5 5 "a.png"; plainTile 0 0 2 2 "b.png";
     plainTile (-3) 4 (1 # 2) 2 "c.png"; plainTile 0 0 2 2 "d.png";
     tileOver (Some 0%Q) None None None (Some 5%Q) None] in
  let browser := session (inr JNull) true fourFates in
  let st :=
    drawTiles (browser := browser) (computeBounds tiles) 0 tiles
      (mkDrawState 0 0 []) in
  computeBounds tiles = mkBounds (Fin (-3)) (Fin 0) (Fin 15) (Fin 25)
  /\ loadedCount st = 1 /\ failedCount st = 4
  /\ drawLog st
     = [DrawImage {| img_src := "a.png"; img_width := 64; img_height := 32 |}
          (Fin 0) (Fin 0) (Fin 64) (Fin 32)
          (Fin 13) (Fin 20) (Fin 5) (Fin 5);
        LoggerWarn [Lit "Failed to load tile image: "; Str "b.png"];
        LoggerWarn [Lit "Error drawing tile image: ";
                    Str "Error: tainted canvas"];
        LoggerWarn [Lit "Error processing tile: "; Str "boom"];
        LoggerWarn [Lit "Tile doesn't have a valid texture source"]].
Proof. cbn zeta. repeat split; vm_compute; reflexivity. Qed.

Example export_zero_tile :
  let scene :=
    mkRefScene (JNum (Fin 0)) (Some "Old  mill") []
      (Some [plainTile 7 9 0 0 "dot.png"]) 0 in
  let browser := session (inr JNull) true fourFates in
  log (exportSceneTilesAsImage (browser := browser) (mkWorld (Some scene) []))
  = [CreateCanvas;
     Notify Info [Lit "Preparing to export "; Num (ofNat 1); Lit " tiles..."];
     SetCanvasSize (ofZ 1) (ofZ 1);
     ClearRect (Fin 0) (Fin 0) (ofZ 1) (ofZ 1);
     Notify Info [Lit "Loading tile images..."];
     DrawImage {| img_src := "dot.png"; img_width := 64; img_height := 32 |}
       (Fin 0) (Fin 0) (Fin 64) (Fin 32) (Fin 0) (Fin 0) (Fin 0) (Fin 0);
     SaveAs "Old_mill_tiles.png";
     Notify Info [Lit "Scene tiles exported successfully ("; Num (ofNat 1);
                  Lit " tiles)."]].
Proof. vm_compute. reflexivity. Qed.

Example import_not_an_array :
  let browser := session (inr (JObj (sampleWall "abc" 10))) true noImages in
  processWallImport (browser := browser) "{...}" (mkWorld (Some paddedScene) [])
  = mkWorld (Some paddedScene)
      [Notify Error
         [Lit "Invalid wall data format. Expected an array of walls."]].
Proof. reflexivity. Qed.

(** * Part V: further properties *)

(** ** Stripping the identity *)

Section Stripping.
Context {browser : Platform}.

(** X1.  Whatever value is destructured, the record that comes out has no
    [_id]; for an object it agrees with the object on every other field,
    and stripping it again changes nothing.  Only [null] and [undefined]
    fail, with the engine's TypeError. *)
Theorem stripIdentity_removes_only_id wall :
  match stripIdentity wall with
  | inr wallData =>
      wall <> JNull /\ wall <> JUndefined
      /\ wallData !! "_id" = None
      /\ stripIdentity (JObj wallData) = inr wallData
      /\ (forall m, wall = JObj m ->
            sameGeometry wallData m
            /\ (m !! "_id" = None -> wallData = m))
  | inl e =>
      (wall = JNull \/ wall = JUndefined)
      /\ e = ErrorObj "TypeError" (destructureMessage wall)
  end.
Proof.
  assert (Hdel : forall m : record,
    delete "_id" m !! "_id" = None
    /\ stripIdentity (JObj (delete "_id" m)) = inr (delete "_id" m)).
  { intros m. split; [apply lookup_delete_eq |].
    cbn. by rewrite delete_delete_eq. }
  destruct wall as [| | b | n | s | l | m]; cbn [stripIdentity].
  - split; [by left | reflexivity].
  - split; [by right | reflexivity].
  - do 2 (split; [done |]). split; [apply lookup_empty |].
    split; [| intros m [=]]. cbn. by rewrite delete_empty.
  - do 2 (split; [done |]). split; [apply lookup_empty |].
    split; [| intros m [=]]. cbn. by rewrite delete_empty.
  - destruct (Hdel (indexedProps (JStr <$> codeUnits s))) as [H1 H2].
    do 2 (split; [done |]).
    split; [exact H1 |]. split; [exact H2 | intros m [=]].
  - destruct (Hdel (indexedProps l)) as [H1 H2].
    do 2 (split; [done |]).
    split; [exact H1 |]. split; [exact H2 | intros m' [=]].
  - destruct (Hdel m) as [H1 H2].
    do 2 (split; [done |]).
    split; [exact H1 |]. split; [exact H2 |].
    intros m' [= <-]. split.
    + intros field Hfield. by rewrite lookup_delete_ne.
    + intros Hnone. by apply delete_id.
Qed.

Lemma stripIdentity_cases wall :
  match stripIdentity wall with
  | inl e =>
      (wall = JNull \/ wall = JUndefined)
      /\ e = ErrorObj "TypeError" (destructureMessage wall)
  | inr r => r !! "_id" = None /\ wall <> JNull /\ wall <> JUndefined
  end.
Proof.
  destruct wall; cbn [stripIdentity];
    try (split; [by (left + right) | reflexivity]);
    (split; [first [apply lookup_delete_eq | apply lookup_empty] | by split]).
Qed.

(** X2.  Stripping a payload fails exactly when one of its elements is
    [null] or [undefined], with the TypeError of the first such element;
    otherwise it yields one record per element, in order, each the
    element stripped of its identity. *)
Theorem stripAll_all_or_nothing walls :
  match stripAll walls with
  | inl e =>
      exists before wall after,
        walls = before ++ wall :: after
        /\ (wall = JNull \/ wall = JUndefined)
        /\ (JNull ∉ before) /\ (JUndefined ∉ before)
        /\ e = ErrorObj "TypeError" (destructureMessage wall)
  | inr wallData =>
      (JNull ∉ walls) /\ (JUndefined ∉ walls)
      /\ Forall2 (fun wall r => stripIdentity wall = inr r /\ r !! "_id" = None)
           walls wallData
  end.
Proof.
  induction walls as [| wall rest IH].
  - cbn. split; [apply not_elem_of_nil |].
    split; [apply not_elem_of_nil | constructor].
  - cbn [stripAll].
    pose proof (stripIdentity_cases wall) as Hwall.
    destruct (stripIdentity wall) as [e | r] eqn:Hstrip.
    + destruct Hwall as [Hnullish ->]. exists [], wall, rest.
      split; [reflexivity |]. split; [exact Hnullish |].
      split; [apply not_elem_of_nil |]. split; [apply not_elem_of_nil |].
      reflexivity.
    + destruct Hwall as (Hid & Hnull' & Hundef').
      destruct (stripAll rest) as [e | more].
      * destruct IH as (before & bad & after & -> & Hbad & Hn & Hu & ->).
        exists (wall :: before), bad, after.
        split; [reflexivity |]. split; [exact Hbad |].
        split; [| split; [| reflexivity]].
        -- intros Hin. apply elem_of_cons in Hin as [Heq | Hin]; congruence.
        -- intros Hin. apply elem_of_cons in Hin as [Heq | Hin]; congruence.
      * destruct IH as (Hnull & Hundef & Hall).
        split; [| split].
        -- intros Hin. apply elem_of_cons in Hin as [Heq | Hin]; congruence.
        -- intros Hin. apply elem_of_cons in Hin as [Heq | Hin]; congruence.
        -- constructor; [split; [exact Hstrip | exact Hid] | exact Hall].
Qed.

End Stripping.

(** ** File names *)

(** The encoding of every code point of [\s] is recognized at the head
    of a string. *)
Lemma whitespaceLength_utf8 cp rest :
  cp ∈ whiteSpaceCodePoints -> whitespaceLength (utf8 cp +:+ rest) <> 0.
Proof.
  unfold whiteSpaceCodePoints. intros Hcp.
  repeat (apply elem_of_cons in Hcp as [-> | Hcp]; [vm_compute; discriminate |]).
  by apply elem_of_nil in Hcp.
Qed.

(** And nothing else is. *)
Lemma whitespaceLength_inv s :
  whitespaceLength s <> 0 ->
  exists cp rest, cp ∈ whiteSpaceCodePoints /\ s = utf8 cp +:+ rest.
Proof.
  assert (Hin : forall cp rest s',
    s' = utf8 cp +:+ rest ->
    bool_decide (cp ∈ whiteSpaceCodePoints) = true ->
    exists cp rest, cp ∈ whiteSpaceCodePoints /\ s' = utf8 cp +:+ rest).
  { intros cp rest s' -> Hcp. exists cp, rest.
    split; [by apply bool_decide_eq_true in Hcp | reflexivity]. }
  destruct s as [| a rest]; [done |]. cbn [whitespaceLength].
  destruct (isWhitespace1 a) eqn:H1.
  { intros _. unfold isWhitespace1 in H1. apply existsb_exists in H1.
    destruct H1 as (x & Hx & ->%Ascii.eqb_eq).
    cbn in Hx.
    repeat (destruct Hx as [<- | Hx];
            [match goal with
             | |- context [String ?x rest] =>
                 apply (Hin (N_of_ascii x) rest);
                 [reflexivity | vm_compute; reflexivity]
             end |]).
    done. }
  destruct rest as [| b rest]; [done |].
  destruct (isWhitespace2 a b) eqn:H2.
  { intros _. unfold isWhitespace2 in H2.
    apply andb_true_iff in H2 as [->%Ascii.eqb_eq ->%Ascii.eqb_eq].
    apply (Hin 0xA0%N rest); [reflexivity | vm_compute; reflexivity]. }
  destruct rest as [| c rest]; [done |].
  destruct (isWhitespace3 a b c) eqn:H3; [| done].
  intros _. unfold isWhitespace3 in H3. apply existsb_exists in H3.
  destruct H3 as ([[x y] z] & Hx & Heq).
  apply andb_true_iff in Heq as [Heq ->%Ascii.eqb_eq].
  apply andb_true_iff in Heq as [->%Ascii.eqb_eq ->%Ascii.eqb_eq].
  cbn in Hx.
  repeat (destruct Hx as [[= <- <- <-] | Hx];
          [match goal with
           | |- context [String ?x (String ?y (String ?z rest))] =>
               apply (Hin ((N_of_ascii x - 0xE0) * 0x1000
                           + (N_of_ascii y - 0x80) * 0x40
                           + (N_of_ascii z - 0x80))%N rest);
               [reflexivity | vm_compute; reflexivity]
           end |]).
  done.
Qed.

Lemma noWhitespace_hasWhitespace s :
  noWhitespace s = true <-> ~ hasWhitespace s.
Proof.
  split.
  - intros Hno (cp & before & after & Hcp & ->).
    induction before as [| c before IH].
    + change (EmptyString +:+ utf8 cp +:+ after) with (utf8 cp +:+ after)
        in Hno.
      pose proof (whitespaceLength_utf8 cp after Hcp) as Hws.
      destruct (utf8 cp +:+ after) as [| a rest] eqn:Hs; [done |].
      cbn [noWhitespace] in Hno.
      apply andb_true_iff in Hno as [Hhead _].
      by apply bool_decide_eq_true in Hhead.
    + change (String c before +:+ utf8 cp +:+ after)
        with (String c (before +:+ utf8 cp +:+ after)) in Hno.
      cbn [noWhitespace] in Hno.
      apply andb_true_iff in Hno as [_ Hrest]. by apply IH.
  - intros Hnone. induction s as [| c rest IH]; [reflexivity |].
    cbn [noWhitespace]. apply andb_true_iff. split.
    + apply bool_decide_eq_true.
      destruct (decide (whitespaceLength (String c rest) = 0)) as [| Hws];
        [done | exfalso].
      apply whitespaceLength_inv in Hws as (cp & after & Hcp & Hs).
      apply Hnone. exists cp, EmptyString, after. by split.
    + apply IH. intros (cp & before & after & Hcp & ->).
      apply Hnone. exists cp, (String c before), after. by split.
Qed.

(** An underscore is no part of a white space character. *)
Lemma whitespaceLength_underscore rest :
  whitespaceLength (String "_" rest) = 0.
Proof. by destruct rest as [| b [| c rest]]. Qed.

Lemma isWhitespace2_underscore a : isWhitespace2 a "_" = false.
Proof. unfold isWhitespace2. cbn. apply andb_false_r. Qed.

Lemma isWhitespace3_underscore a b :
  isWhitespace3 a "_" b = false /\ isWhitespace3 a b "_" = false.
Proof.
  unfold isWhitespace3. cbn. rewrite ?andb_false_r. cbn.
  by rewrite ?andb_false_r.
Qed.

(** What the scan puts first: the byte it found, or an underscore. *)
Lemma replaceFrom_head c rest :
  (whitespaceLength (String c rest) = 0
   /\ replaceFrom 0 false (String c rest)
      = String c (replaceFrom 0 false rest))
  \/ exists out, replaceFrom 0 false (String c rest) = String "_" out.
Proof.
  cbn [replaceFrom].
  destruct (whitespaceLength (String c rest)); [by left | right; by eexists].
Qed.

(** Whether white space starts at a byte depends on the two bytes after
    it at most; an underscore among them cannot complete a character. *)
Lemma whitespaceLength_copy c rest :
  whitespaceLength (String c rest) = 0 ->
  whitespaceLength (String c (replaceFrom 0 false rest)) = 0.
Proof.
  intros Hws. cbn [whitespaceLength] in Hws |- *.
  destruct (isWhitespace1 c); [done |].
  destruct rest as [| b rest]; [done |].
  destruct (replaceFrom_head b rest) as [[Hb ->] | (out & ->)].
  2:{ rewrite isWhitespace2_underscore.
      destruct out as [| d out]; [done |].
      by rewrite (proj1 (isWhitespace3_underscore c d)). }
  destruct (isWhitespace2 c b); [done |].
  destruct rest as [| d rest]; [done |].
  destruct (replaceFrom_head d rest) as [[Hd ->] | (out & ->)].
  - exact Hws.
  - by rewrite (proj2 (isWhitespace3_underscore c b)).
Qed.

Lemma replaceFrom_noWhitespace skip inRun name :
  noWhitespace (replaceFrom skip inRun name) = true.
Proof.
  revert skip inRun. induction name as [| c rest IH]; intros skip inRun;
    [reflexivity |].
  cbn [replaceFrom]. destruct skip as [| k]; [| apply IH].
  destruct (whitespaceLength (String c rest)) as [| k] eqn:Hws.
  - cbn [noWhitespace]. rewrite IH, andb_true_r.
    apply bool_decide_eq_true. by apply whitespaceLength_copy.
  - destruct inRun; [apply IH |].
    cbn [noWhitespace]. rewrite IH, andb_true_r.
    apply bool_decide_eq_true. apply whitespaceLength_underscore.
Qed.

Lemma replaceFrom_id inRun name :
  noWhitespace name = true -> replaceFrom 0 inRun name = name.
Proof.
  revert inRun. induction name as [| c rest IH]; intros inRun; [done |].
  cbn [noWhitespace replaceFrom]. intros [Hc Hrest]%andb_true_iff.
  apply bool_decide_eq_true in Hc. cbn [whitespaceLength] in Hc |- *.
  rewrite Hc. by rewrite IH.
Qed.

Lemma replaceWhitespace_nonempty c rest :
  replaceWhitespace false (String c rest) <> EmptyString.
Proof.
  unfold replaceWhitespace. cbn [replaceFrom].
  by destruct (whitespaceLength (String c rest)).
Qed.

(** A name without white space stays without it when text that starts
    with an underscore is appended. *)
Lemma noWhitespace_app_underscore a b :
  noWhitespace a = true -> noWhitespace (String "_" b) = true ->
  noWhitespace (a +:+ String "_" b) = true.
Proof.
  intros Ha Hb. induction a as [| c rest IH]; [exact Hb |].
  change (String c rest +:+ String "_" b)
    with (String c (rest +:+ String "_" b)).
  cbn [noWhitespace] in Ha |- *.
  apply andb_true_iff in Ha as [Hc Hrest]. apply bool_decide_eq_true in Hc.
  rewrite (IH Hrest), andb_true_r. apply bool_decide_eq_true.
  cbn [whitespaceLength] in Hc |- *.
  destruct (isWhitespace1 c); [done |].
  destruct rest as [| d rest].
  - change (EmptyString +:+ String "_" b) with (String "_" b).
    cbv beta iota. rewrite isWhitespace2_underscore.
    destruct b as [| e b]; [done |].
    by rewrite (proj1 (isWhitespace3_underscore c e)).
  - change (String d rest +:+ String "_" b)
      with (String d (rest +:+ String "_" b)).
    cbv beta iota. destruct (isWhitespace2 c d); [done |].
    destruct rest as [| e rest].
    + change (EmptyString +:+ String "_" b) with (String "_" b).
      cbv beta iota. by rewrite (proj2 (isWhitespace3_underscore c d)).
    + change (String e rest +:+ String "_" b)
        with (String e (rest +:+ String "_" b)).
      cbv beta iota. exact Hc.
Qed.

(** X3.  Replacing the white space of a name leaves none of the code
    points of [\s] in it, keeps a non-empty name non-empty, leaves a name
    without white space as it is, and is idempotent. *)
Theorem replaceWhitespace_normalizes name :
  ~ hasWhitespace (replaceWhitespace false name)
  /\ (name <> EmptyString -> replaceWhitespace false name <> EmptyString)
  /\ (~ hasWhitespace name -> replaceWhitespace false name = name)
  /\ replaceWhitespace false (replaceWhitespace false name)
     = replaceWhitespace false name.
Proof.
  split; [apply noWhitespace_hasWhitespace, replaceFrom_noWhitespace |].
  split; [| split].
  - destruct name as [| c rest]; [done |]. intros _.
    apply replaceWhitespace_nonempty.
  - intros Hno. by apply replaceFrom_id, noWhitespace_hasWhitespace.
  - apply replaceFrom_id, replaceFrom_noWhitespace.
Qed.

(** Runs of white space of any kind become one underscore each; a code
    point outside [\s], such as the zero width space U+200B, stays. *)
Example replaceWhitespace_runs :
  replaceWhitespace false ("Great" +:+ utf8 0xA0 +:+ "Hall") = "Great_Hall"
  /\ replaceWhitespace false
       ("Old " +:+ utf8 0x3000 +:+ utf8 0x2028 +:+ "mill" +:+ utf8 0xFEFF)
     = "Old_mill_"
  /\ replaceWhitespace false ("a" +:+ utf8 0x200B +:+ "b")
     = "a" +:+ utf8 0x200B +:+ "b"
  /\ replaceWhitespace false " a  b " = "_a_b_".
Proof. repeat split; vm_compute; reflexivity. Qed.

(** X4.  The stem of the tile image's file name is never empty and has no
    white space: it is "scene" for a scene without a name or with an
    empty one, and otherwise the name with its white space replaced. *)
Theorem sceneFileStem_usable name :
  sceneFileStem name <> EmptyString
  /\ ~ hasWhitespace (sceneFileStem name)
  /\ (name = None \/ name = Some EmptyString -> sceneFileStem name = "scene")
  /\ (forall s, name = Some s -> s <> EmptyString ->
        sceneFileStem name = replaceWhitespace false s).
Proof.
  destruct name as [[| c rest] |]; cbn [sceneFileStem].
  - split; [done |]. split; [by apply noWhitespace_hasWhitespace |].
    split; [reflexivity |]. intros s [= <-] Hs. done.
  - pose proof (replaceWhitespace_nonempty c rest) as Hne.
    pose proof (replaceFrom_noWhitespace 0 false (String c rest)) as Hno.
    fold (replaceWhitespace false (String c rest)) in Hno.
    destruct (replaceWhitespace false (String c rest)) as [| c' rest'] eqn:Hr;
      [done |].
    cbn [truthyString default].
    split; [done |]. split; [by apply noWhitespace_hasWhitespace |]. split.
    + intros [[=] | [=]].
    + intros s [= <-] _. by rewrite Hr.
  - split; [done |]. split; [by apply noWhitespace_hasWhitespace |].
    split; [reflexivity |]. intros s [=].
Qed.

Section FileNames.
Context {Scene : Type} {host : Host Scene} {browser : Platform}.

(** X5.  Whenever [exportWallsToFile] saves a file, the scene has a
    non-empty name, the padding check was passed, the type is
    application/json, the data is the serialized walls of the scene, and
    the file name is the scene's name with its white space replaced,
    followed by "_walls.json": a name with none of the code points of
    [\s] in it. *)
Theorem exportWallsToFile_saves w data mime filename :
  SaveDataToFile data mime filename ∈ log (exportWallsToFile w) ->
  SaveDataToFile data mime filename ∈ log w
  \/ exists scene name,
       current w = Some scene
       /\ scene_name scene = Some name /\ name <> EmptyString
       /\ gatePasses "export" scene = true
       /\ mime = "application/json"
       /\ data = JSON_stringify (JArr (exportedWalls scene))
       /\ filename = replaceWhitespace false name +:+ "_walls.json"
       /\ ~ hasWhitespace filename.
Proof.
  unfold exportWallsToFile, getWallsJson, showPaddingWarning, gatePasses.
  destruct (current w) as [scene |] eqn:Hscene.
  2:{ unfold notify, emit. cbn [log].
      intros [Hin | Hin]%elem_of_app; [by left |].
      apply list_elem_of_singleton in Hin. discriminate. }
  destruct (scene_name scene) as [[| c rest] |] eqn:Hname; cbn [truthyString].
  1,3: unfold notify, emit; cbn [log];
       intros [Hin | Hin]%elem_of_app; [by left |];
       apply list_elem_of_singleton in Hin; discriminate.
  assert (Hgood : forall lg,
    SaveDataToFile data mime filename
      ∈ lg ++ [SaveDataToFile (JSON_stringify (JArr (exportedWalls scene)))
                 "application/json"
                 (replaceWhitespace false (String c rest) +:+ "_walls.json");
               Notify Info [Lit "Walls exported successfully."]] ->
    SaveDataToFile data mime filename ∈ lg
    \/ (mime = "application/json"
        /\ data = JSON_stringify (JArr (exportedWalls scene))
        /\ filename = replaceWhitespace false (String c rest) +:+ "_walls.json"
        /\ ~ hasWhitespace filename)).
  { assert (Hno : ~ hasWhitespace
              (replaceWhitespace false (String c rest) +:+ "_walls.json"))
      by (apply noWhitespace_hasWhitespace, noWhitespace_app_underscore;
          [apply replaceFrom_noWhitespace | reflexivity]).
    intros lg [Hin | Hin]%elem_of_app; [by left |]. right.
    apply elem_of_cons in Hin as [[= -> -> ->] | Hin].
    - split; [reflexivity |]. split; [reflexivity |].
      split; [reflexivity | exact Hno].
    - apply list_elem_of_singleton in Hin. discriminate. }
  destruct (strictNeqZero (scene_padding scene)) eqn:Hpad.
  - destruct (dialogAnswer "export") eqn:Hanswer; cbn [negb].
    + unfold notify, emit. cbn [log current]. intros Hin.
      destruct (Hgood (log w ++ [PaddingWarning "export" true]))
        as [Hold | (-> & -> & -> & Hno)].
      { revert Hin. rewrite <- !app_assoc. cbn [app]. done. }
      * apply elem_of_app in Hold as [Hold | Hold]; [by left |].
        apply list_elem_of_singleton in Hold. discriminate.
      * right. exists scene, (String c rest).
        split; [reflexivity |]. split; [exact Hname |]. split; [done |].
        split; [by rewrite Hpad |]. split; [reflexivity |].
        split; [reflexivity |]. split; [reflexivity | exact Hno].
    + unfold notify, emit. cbn [log current]. rewrite <- !app_assoc.
      intros [Hin | Hin]%elem_of_app; [by left |].
      repeat (apply elem_of_cons in Hin as [Hin | Hin]; [discriminate |]).
      by apply elem_of_nil in Hin.
  - cbn [negb]. unfold notify, emit. cbn [log current]. intros Hin.
    destruct (Hgood (log w)) as [Hold | (-> & -> & -> & Hno)]; [| by left |].
    { revert Hin. rewrite <- !app_assoc. cbn [app]. done. }
    right. exists scene, (String c rest).
    split; [reflexivity |]. split; [exact Hname |]. split; [done |].
    split; [by rewrite Hpad |]. split; [reflexivity |].
    split; [reflexivity |]. split; [reflexivity | exact Hno].
Qed.

(** X6.  A scene whose name is missing or empty cannot be exported to a
    file: the export ends with "No active scene found." before the
    padding check, and nothing is saved.  The same scene exports to the
    clipboard. *)
Theorem unnamed_scene_exports_to_clipboard_only w scene :
  current w = Some scene ->
  truthyString (scene_name scene) = None ->
  exportWallsToFile w = notify Error [Lit "No active scene found."] w
  /\ (gatePasses "export" scene = true ->
      clipboard_writeText (JSON_stringify (JArr (exportedWalls scene))) = None ->
      log (exportWallsToClipboard w)
      = log w ++ gateEvents "export" scene ++
          [ClipboardWriteText (JSON_stringify (JArr (exportedWalls scene)));
           Notify Info [Lit "Walls copied to clipboard successfully."]]).
Proof.
  intros Hscene Hname. split.
  - unfold exportWallsToFile. by rewrite Hscene, Hname.
  - intros Hgate Hwrite.
    unfold exportWallsToClipboard, getWallsJson, showPaddingWarning, gateEvents.
    unfold gatePasses in Hgate. rewrite Hscene.
    destruct (strictNeqZero (scene_padding scene)); cbn [negb orb] in Hgate.
    + rewrite Hgate. cbn [negb]. rewrite Hwrite.
      unfold notify, emit. cbn [log]. rewrite <- !app_assoc. reflexivity.
    + cbn [negb]. rewrite Hwrite.
      unfold notify, emit. cbn [log]. rewrite <- !app_assoc. reflexivity.
Qed.

End FileNames.

(** ** What an import creates *)

Section ImportSafety.
Context {Scene : Type} {host : Host Scene} {browser : Platform}.

(** An import either stops before the batch loop, adding only lines to
    the log, or passes every check on the way to it. *)
Lemma processWallImport_cases text w :
  (exists evs,
     processWallImport text w = mkWorld (current w) (log w ++ evs)
     /\ createCalls evs = [])
  \/ (exists walls wallData scene,
        JSON_parse text = inr (JArr walls)
        /\ stripAll walls = inr wallData
        /\ current w = Some scene
        /\ gatePasses "import" scene = true).
Proof.
  unfold processWallImport, processWallImport_try, showPaddingWarning,
    gatePasses.
  assert (Hstop : forall evs : list Event,
    createCalls evs = [] ->
    exists evs', mkWorld (current w) (log w ++ evs)
                 = mkWorld (current w) (log w ++ evs')
                 /\ createCalls evs' = []) by (intros evs ?; by exists evs).
  destruct (JSON_parse text) as [e | v] eqn:Hparse.
  { left. unfold notify, emit. cbn [log current]. rewrite <- !app_assoc.
    by apply Hstop. }
  destruct v as [| | b | n | s | walls | m];
    try (left; unfold notify, emit; cbn [log current]; by apply Hstop).
  destruct (current w) as [scene |] eqn:Hscene.
  2:{ left. unfold notify, emit. cbn [log current]. rewrite Hscene.
      by apply (Hstop [_]). }
  destruct (strictNeqZero (scene_padding scene)) eqn:Hpad.
  - destruct (dialogAnswer "import") eqn:Hanswer; cbn [negb].
    + destruct (stripAll walls) as [e | wallData] eqn:Hstrip.
      * left. unfold notify, emit. cbn [log current].
        rewrite Hscene, <- !app_assoc. by apply Hstop.
      * right. exists walls, wallData, scene. by rewrite Hpad.
    + left. unfold emit. cbn [log current]. rewrite Hscene.
      by apply (Hstop [_]).
  - cbn [negb]. destruct (stripAll walls) as [e | wallData] eqn:Hstrip.
    + left. unfold notify, emit. cbn [log current].
      rewrite Hscene, <- !app_assoc. by apply Hstop.
    + right. exists walls, wallData, scene. by rewrite Hpad.
Qed.

(** The calls of a run of the batches, whatever the host answers: they
    are the leading batches; the count is the number of records of the
    successful ones, which are a leading part of the payload; the run
    ends without an error exactly when every call succeeded; and the
    scene is the one the calls left. *)
Lemma createAll_calls total bs count scene lg :
  exists calls,
    createCalls (logAfter (createAll total bs count scene lg))
    = createCalls lg ++ calls
    /\ calls.*1 `prefix_of` bs
    /\ createdCount (createAll total bs count scene lg)
       = count + length (createdBy calls)
    /\ createdBy calls `prefix_of` concat bs
    /\ (thrown (createAll total bs count scene lg) = None
        <-> Forall (fun call => call.2 = None) calls)
    /\ (bs <> [] -> calls <> [])
    /\ sceneAfter (createAll total bs count scene lg)
       = afterCalls (calls.*1) scene.
Proof.
  revert count scene lg. induction bs as [| batch rest IH]; intros count scene lg.
  - exists []. cbn. rewrite app_nil_r.
    repeat split; try done; try lia.
  - cbn [createAll].
    destruct (createEmbeddedDocuments "Wall" batch scene) as [[e |] scene']
      eqn:Hcall.
    + exists [(batch, Some e)]. cbn [logAfter createdCount thrown sceneAfter].
      rewrite createCalls_app.
      split; [reflexivity |]. split; [by exists rest |].
      split; [cbn; lia |]. split; [by eexists |].
      split; [| split; [done |]].
      * split; [discriminate |].
        intros Hall. apply Forall_cons in Hall as [Hfalse _]. discriminate.
      * unfold afterCalls. cbn. by rewrite Hcall.
    + destruct (IH (count + length batch) scene'
                  (lg ++ [CreateEmbeddedDocuments "Wall" batch None]
                      ++ (if rest is [] then []
                          else [Notify Info
                                  [Lit "Created ";
                                   Num (ofNat (count + length batch));
                                   Lit " of "; Num (ofNat total);
                                   Lit " walls..."]])))
        as (calls & -> & Hprefix & -> & Hcreated & Hok & _ & ->).
      exists ((batch, None) :: calls).
      split; [| split; [| split; [| split; [| split; [| split]]]]].
      * rewrite !createCalls_app. cbn [createCalls omap list_omap createCall].
        replace (createCalls (if rest is [] then [] else _)) with
          (@nil (list record * option Thrown)) by (by destruct rest).
        rewrite app_nil_r, <- app_assoc. reflexivity.
      * cbn [fmap list_fmap fst]. by apply prefix_cons.
      * unfold createdBy. cbn [omap list_omap snd fst concat].
        rewrite length_app. fold (createdBy calls). lia.
      * unfold createdBy. cbn [omap list_omap snd fst concat].
        fold (createdBy calls). by apply prefix_app.
      * rewrite Hok. split; [by constructor |].
        intros Hall. by apply Forall_cons in Hall as [_ Hall].
      * done.
      * unfold afterCalls. cbn. by rewrite Hcall.
Qed.

(** X7.  The scene changes only through bulk-create calls, and those are
    issued only by an import that passed every check: the text parsed to
    an array, no element was [null] or [undefined], a scene was current,
    and the padding check was passed.  One bad element anywhere in the
    payload keeps every record out. *)
Theorem import_creates_only_after_checks text w :
  let w' := processWallImport text w in
  (createCalls (log w') <> createCalls (log w) ->
     exists walls wallData scene,
       JSON_parse text = inr (JArr walls)
       /\ stripAll walls = inr wallData /\ wallData <> []
       /\ current w = Some scene
       /\ gatePasses "import" scene = true)
  /\ (createCalls (log w') = createCalls (log w) -> current w' = current w).
Proof.
  cbn zeta.
  destruct (processWallImport_cases text w)
    as [(evs & -> & Hevs)
       | (walls & wallData & scene & Hparse & Hstrip & Hscene & Hgate)].
  { cbn [log current]. rewrite createCalls_app, Hevs, app_nil_r.
    split; [done | reflexivity]. }
  rewrite (processWallImport_run _ _ _ _ _ Hparse Hstrip Hscene Hgate).
  rewrite batchLoop_createAll. fold (batches wallData).
  set (lg := log w ++ _).
  assert (Hlg : createCalls lg = createCalls (log w)).
  { subst lg. rewrite !createCalls_app. unfold gateEvents.
    destruct (strictNeqZero _); cbn; by rewrite !app_nil_r. }
  destruct (createAll_calls (length wallData) (batches wallData) 0 scene lg)
    as (calls & Hcalls & _ & _ & _ & _ & Hne & Hafter).
  destruct (finishImport_log
              (createAll (length wallData) (batches wallData) 0 scene lg))
    as (closing & Hlog & _ & Hclosing).
  rewrite Hlog, createCalls_app, Hcalls, Hclosing, app_nil_r, Hlg.
  assert (Hcur : current (finishImport
              (createAll (length wallData) (batches wallData) 0 scene lg))
            = Some (afterCalls (calls.*1) scene)).
  { unfold finishImport. rewrite <- Hafter. by destruct (thrown _). }
  rewrite Hcur, Hscene. split.
  - intros Hdiff. exists walls, wallData, scene.
    repeat split; try done. intros ->. apply Hdiff.
    change (batches []) with (@nil (list record)) in Hcalls.
    cbn [createAll logAfter] in Hcalls. rewrite Hlg in Hcalls.
    rewrite <- (app_nil_r (createCalls (log w))) in Hcalls at 1.
    apply app_inv_head in Hcalls. subst calls. by rewrite app_nil_r.
  - intros Hsame.
    rewrite <- (app_nil_r (createCalls (log w))) in Hsame at 2.
    apply app_inv_head in Hsame. subst calls. reflexivity.
Qed.

(** X8.  However the host answers, the loop's [createdCount] is the
    number of records in the bulk-create calls that succeeded; those
    records are a leading part of the payload; the loop ends without an
    error exactly when every call it made succeeded; and the scene is
    the one these calls left. *)
Theorem createdCount_counts_committed wallData total scene lg :
  let out := batchLoop wallData total 0 0 scene lg in
  exists calls,
    createCalls (logAfter out) = createCalls lg ++ calls
    /\ calls.*1 `prefix_of` batches wallData
    /\ createdCount out = length (createdBy calls)
    /\ createdBy calls `prefix_of` wallData
    /\ (thrown out = None <-> Forall (fun call => call.2 = None) calls)
    /\ sceneAfter out = afterCalls (calls.*1) scene.
Proof.
  cbn zeta. rewrite batchLoop_createAll. fold (batches wallData).
  destruct (createAll_calls total (batches wallData) 0 scene lg)
    as (calls & Hcalls & Hprefix & Hcount & Hcreated & Hok & _ & Hafter).
  exists calls. rewrite concat_batches in Hcreated.
  repeat split; try done; by apply Hok.
Qed.

End ImportSafety.

(** ** Progress lines *)

Section Progress.
Context {Scene : Type} {host : Host Scene} {browser : Platform}.

Lemma progressLines_app lg1 lg2 :
  progressLines (lg1 ++ lg2) = progressLines lg1 ++ progressLines lg2.
Proof. apply omap_app. Qed.

(** A progress line follows every successful call but the one for the
    last batch, and carries the number of records sent so far. *)
Lemma createAll_progress total bs count scene lg :
  exists k,
    k <= length bs - 1
    /\ progressLines (logAfter (createAll total bs count scene lg))
       = progressLines lg
         ++ ((fun j => (ofNat (count + length (concat (take j bs))),
                        ofNat total)) <$> seq 1 k)
    /\ (thrown (createAll total bs count scene lg) = None ->
        k = length bs - 1)
    /\ (thrown (createAll total bs count scene lg) <> None ->
        createdCount (createAll total bs count scene lg)
        = count + length (concat (take k bs))).
Proof.
  revert count scene lg. induction bs as [| batch rest IH]; intros count scene lg.
  - exists 0. cbn. rewrite app_nil_r. repeat split; try done; lia.
  - cbn [createAll].
    destruct (createEmbeddedDocuments "Wall" batch scene) as [[e |] scene'].
    + exists 0. cbn [logAfter createdCount thrown seq fmap list_fmap take
        concat length].
      rewrite progressLines_app. cbn. rewrite !app_nil_r.
      repeat split; try done; lia.
    + destruct (decide (rest = [])) as [-> | Hrest].
      * exists 0. cbn. rewrite progressLines_app. cbn. rewrite !app_nil_r.
        repeat split; try done; lia.
      * replace (if rest is [] then [] else _) with
          [Notify Info [Lit "Created "; Num (ofNat (count + length batch));
                        Lit " of "; Num (ofNat total); Lit " walls..."]]
          by (by destruct rest).
        assert (Hlen : 1 <= length rest) by (destruct rest; [done | cbn; lia]).
        destruct (IH (count + length batch) scene'
                    (lg ++ [CreateEmbeddedDocuments "Wall" batch None]
                        ++ [Notify Info
                              [Lit "Created ";
                               Num (ofNat (count + length batch));
                               Lit " of "; Num (ofNat total);
                               Lit " walls..."]]))
          as (k & Hk & Hlines & Hok & Hfail).
        exists (S k). split; [cbn [length]; lia |].
        split; [| split].
        -- rewrite Hlines, !progressLines_app.
           cbn [progressLines omap list_omap progressLine app].
           rewrite <- app_assoc. f_equal.
           cbn [seq fmap list_fmap take concat app].
           rewrite app_nil_r. cbn [app]. f_equal.
           rewrite <- (fmap_S_seq 1), <- list_fmap_compose.
           apply list_fmap_ext. intros _ j _. cbn [compose take concat].
           rewrite length_app. do 2 f_equal. lia.
        -- intros Hnone. rewrite (Hok Hnone). cbn [length]. lia.
        -- intros Hsome. rewrite (Hfail Hsome). cbn [take concat].
           rewrite length_app. lia.
Qed.

(** X9.  The progress notifications of the batch loop: one after each
    successful call but the last batch's, reporting 100, 200, ... of the
    total, never the total itself; a successful import leaves one less
    than there are batches, and when a call fails the last one reported
    is the number of records created. *)
Theorem progress_lines wallData scene lg :
  let N := length wallData in
  let out := batchLoop wallData N 0 0 scene lg in
  exists k,
    k <= batchCount N - 1
    /\ progressLines (logAfter out)
       = progressLines lg
         ++ ((fun j => (ofNat (j * BATCH_SIZE), ofNat N)) <$> seq 1 k)
    /\ (thrown out = None -> k = batchCount N - 1)
    /\ (thrown out <> None -> createdCount out = k * BATCH_SIZE)
    /\ (forall j, 1 <= j <= k -> j * BATCH_SIZE < N).
Proof.
  cbn zeta. rewrite batchLoop_createAll. fold (batches wallData).
  destruct (createAll_progress (length wallData) (batches wallData) 0 scene lg)
    as (k & Hk & Hlines & Hok & Hfail).
  rewrite length_batches in Hk, Hok.
  exists k. split; [exact Hk |]. split; [| split; [exact Hok | split]].
  - rewrite Hlines. f_equal. apply list_fmap_ext. intros i j Hj.
    apply lookup_seq in Hj as [-> Hi].
    rewrite length_concat_take_batches by lia. reflexivity.
  - intros Hsome. rewrite (Hfail Hsome).
    destruct (decide (k = 0)) as [-> | Hpos]; [reflexivity |].
    rewrite length_concat_take_batches by lia. reflexivity.
  - intros j Hj.
    pose proof (batchCount_bounds (length wallData)) as [Hup Hlow].
    unfold BATCH_SIZE in *. lia.
Qed.

End Progress.

(** ** The wall exports *)

Section WallExports.
Context {Scene : Type} {host : Host Scene} {browser : Platform}.

(** What [getWallsJson] does to the world: at most the padding dialog is
    added to the log. *)
Lemma getWallsJson_world w :
  current (getWallsJson w).2 = current w
  /\ exists shown,
       log (getWallsJson w).2 = log w ++ shown
       /\ createCalls shown = []
       /\ forall e, e ∈ shown -> exists answer, e = PaddingWarning "export" answer.
Proof.
  unfold getWallsJson, showPaddingWarning.
  assert (Hnil : forall w0 : World Scene,
    exists shown, log w0 = log w0 ++ shown /\ createCalls shown = []
      /\ forall e, e ∈ shown -> exists answer, e = PaddingWarning "export" answer).
  { intros w0. exists []. rewrite app_nil_r. split; [done |]. split; [done |].
    intros e He. by apply elem_of_nil in He. }
  destruct (current w) as [scene |] eqn:Hscene; [| by split].
  destruct (strictNeqZero (scene_padding scene)); [| cbn [negb]; by split].
  assert (Hone : forall answer,
    exists shown,
      log w ++ [PaddingWarning "export" answer] = log w ++ shown
      /\ createCalls shown = []
      /\ forall e, e ∈ shown -> exists answer, e = PaddingWarning "export" answer).
  { intros answer. exists [PaddingWarning "export" answer].
    split; [done |]. split; [done |].
    intros e He. apply list_elem_of_singleton in He. by exists answer. }
  destruct (dialogAnswer "export"); cbn [negb snd emit log current];
    (split; [exact Hscene | apply Hone]).
Qed.

(** X10.  The wall exports only read: [getWallsJson],
    [exportWallsToClipboard] and [exportWallsToFile] leave the current
    scene as it is and add lines to the log, none of them a bulk-create
    call. *)
Theorem wall_exports_read_only w :
  Forall (fun w' : World Scene =>
            current w' = current w
            /\ exists new, log w' = log w ++ new /\ createCalls new = [])
    [(getWallsJson w).2; exportWallsToClipboard w; exportWallsToFile w].
Proof.
  destruct (getWallsJson_world w) as (Hcur & shown & Hlog & Hshown & _).
  assert (Hafter : forall closing : list Event,
    createCalls closing = [] ->
    exists new, (log (getWallsJson w).2 ++ closing) = log w ++ new
                /\ createCalls new = []).
  { intros closing Hclosing. exists (shown ++ closing).
    rewrite Hlog, <- app_assoc, createCalls_app, Hshown, Hclosing. done. }
  repeat apply Forall_cons_2; [| | | apply Forall_nil_2].
  - split; [exact Hcur |]. by exists shown.
  - unfold exportWallsToClipboard.
    destruct (getWallsJson w) as [[err | json] w1]; cbn [snd] in *.
    + unfold notify, emit. cbn [log current]. split; [exact Hcur |].
      rewrite <- app_assoc. by apply Hafter.
    + destruct (clipboard_writeText json); unfold notify, emit;
        cbn [log current]; (split; [exact Hcur |]);
        rewrite <- app_assoc; by apply Hafter.
  - unfold exportWallsToFile.
    assert (Hstop : current (notify Error [Lit "No active scene found."] w)
                    = current w
                    /\ exists new,
                         log (notify Error [Lit "No active scene found."] w)
                         = log w ++ new /\ createCalls new = []).
    { unfold notify, emit. cbn [log current]. split; [done |]. by eexists. }
    destruct (current w) as [scene |] eqn:Hscene; [| exact Hstop].
    destruct (truthyString (scene_name scene)) as [name |]; [| exact Hstop].
    destruct (getWallsJson w) as [[err | json] w1]; cbn [snd] in *;
      unfold notify, emit; cbn [log current]; (split; [exact Hcur |]);
      rewrite <- app_assoc; by apply Hafter.
Qed.

(** X11.  [exportWallsToClipboard] ends in one of two ways.  It writes
    the serialized walls and notifies the success, which needs a current
    scene, a passed padding check and a clipboard that accepts the text.
    Or it writes nothing and reports "Failed to copy walls to clipboard."
    with the console line "Clipboard write error:", and it does so for
    every failure alike: no current scene, a cancelled export, and a
    clipboard that rejects the text. *)
Theorem exportWallsToClipboard_outcome w :
  (exists scene,
     current w = Some scene
     /\ gatePasses "export" scene = true
     /\ clipboard_writeText (JSON_stringify (JArr (exportedWalls scene))) = None
     /\ log (exportWallsToClipboard w)
        = log w ++ gateEvents "export" scene ++
            [ClipboardWriteText (JSON_stringify (JArr (exportedWalls scene)));
             Notify Info [Lit "Walls copied to clipboard successfully."]])
  \/ (exists shown err,
        log (exportWallsToClipboard w)
        = log w ++ shown ++
            [ConsoleError "Clipboard write error:" err;
             Notify Error [Lit "Failed to copy walls to clipboard."]]
        /\ (forall e, e ∈ shown -> exists answer, e = PaddingWarning "export" answer)
        /\ match current w with
           | None => err = ErrorObj "Error" "No active scene found."
           | Some scene =>
               if gatePasses "export" scene
               then clipboard_writeText
                      (JSON_stringify (JArr (exportedWalls scene))) = Some err
               else err = ErrorObj "Error" "Wall export cancelled."
           end).
Proof.
  unfold exportWallsToClipboard, getWallsJson, showPaddingWarning,
    gatePasses, gateEvents.
  assert (Hshown : forall answer e,
    e ∈ [PaddingWarning "export" answer] ->
    exists answer, e = PaddingWarning "export" answer).
  { intros answer e He. apply list_elem_of_singleton in He. by exists answer. }
  assert (Hnone : forall e : Event, e ∈ [] ->
    exists answer, e = PaddingWarning "export" answer).
  { intros e He. by apply elem_of_nil in He. }
  destruct (current w) as [scene |] eqn:Hscene.
  2:{ right. exists [], (ErrorObj "Error" "No active scene found.").
      unfold notify, emit. cbn [log]. rewrite <- app_assoc.
      split; [reflexivity |]. split; [exact Hnone | reflexivity]. }
  destruct (strictNeqZero (scene_padding scene)) eqn:Hpad; cbn [negb orb].
  - destruct (dialogAnswer "export") eqn:Hanswer; cbn [negb].
    + destruct (clipboard_writeText _) as [err |] eqn:Hwrite.
      * right. exists [PaddingWarning "export" true], err.
        unfold notify, emit. cbn [log]. rewrite <- !app_assoc.
        split; [reflexivity |]. split; [apply Hshown | reflexivity].
      * left. exists scene. rewrite Hpad.
        unfold notify, emit. cbn [log]. rewrite <- !app_assoc.
        split; [reflexivity |]. split; [reflexivity |].
        split; [exact Hwrite | reflexivity].
    + right. exists [PaddingWarning "export" false],
        (ErrorObj "Error" "Wall export cancelled.").
      unfold notify, emit. cbn [log]. rewrite <- !app_assoc.
      split; [reflexivity |]. split; [apply Hshown | reflexivity].
  - destruct (clipboard_writeText _) as [err |] eqn:Hwrite.
    + right. exists [], err.
      unfold notify, emit. cbn [log]. rewrite <- !app_assoc.
      split; [reflexivity |]. split; [exact Hnone | reflexivity].
    + left. exists scene. rewrite Hpad.
      unfold notify, emit. cbn [log]. rewrite <- !app_assoc.
      split; [reflexivity |]. split; [reflexivity |].
      split; [exact Hwrite | reflexivity].
Qed.

End WallExports.

(** ** The second pass over the tiles *)

Section SecondPass.
Context {Scene : Type} {host : Host Scene} {browser : Platform}.

(** One tile adds one line to the log: its [drawImage] call when it
    succeeds, a warning of the logger when it does not. *)
Lemma drawTile_event b n tile st :
  exists e,
    drawLog (drawTile b n tile st) = drawLog st ++ [e]
    /\ ((isDrawImage e = true /\ isLoggerWarn e = false
         /\ drawEvent b n tile = Some e /\ tileSucceeds n tile = true)
        \/ (isDrawImage e = false /\ isLoggerWarn e = true
            /\ drawEvent b n tile = None /\ tileSucceeds n tile = false)).
Proof.
  unfold drawTile, drawEvent, tileSucceeds.
  destruct (textureSrc tile) as [s |];
    [destruct (loadImage n s) as [img [err |] | | err] |];
    cbn [drawLog]; eexists; (split; [reflexivity |]);
    first [by left | by right].
Qed.

(** The lines the second pass adds are [drawImage] calls and warnings of
    the logger. *)
Lemma drawTiles_events b n tiles st :
  exists new,
    drawLog (drawTiles b n tiles st) = drawLog st ++ new
    /\ Forall (fun e => isDrawImage e || isLoggerWarn e = true) new.
Proof.
  revert n st. induction tiles as [| tile rest IH]; intros n st.
  - exists []. cbn. by rewrite app_nil_r.
  - cbn [drawTiles].
    destruct (IH (S n) (drawTile b n tile st)) as (new & -> & Hnew).
    destruct (drawTile_event b n tile st) as (e & -> & He).
    exists (e :: new). rewrite <- app_assoc. split; [reflexivity |].
    constructor; [| exact Hnew].
    by destruct He as [(-> & _) | (-> & -> & _)].
Qed.

(** X12.  The second pass leaves one line per tile, in the order of the
    tile list: the [drawImage] call of a tile that succeeds, a warning
    for one that does not.  So the tiles are painted in list order, later
    ones over earlier ones, and a failing tile neither stops the pass nor
    changes what the others draw. *)
Theorem tiles_drawn_in_order b n tiles st :
  exists new,
    drawLog (drawTiles b n tiles st) = drawLog st ++ new
    /\ length new = length tiles
    /\ List.filter isDrawImage new = drawEvents b n tiles
    /\ length (drawEvents b n tiles) = countSucceeding n tiles
    /\ length (List.filter isLoggerWarn new) + countSucceeding n tiles
       = length tiles.
Proof.
  revert n st. induction tiles as [| tile rest IH]; intros n st.
  - exists []. cbn. by rewrite app_nil_r.
  - cbn [drawTiles].
    destruct (IH (S n) (drawTile b n tile st))
      as (new & -> & Hlen & Hdraws & Hcount & Hwarns).
    destruct (drawTile_event b n tile st) as (e & -> & He).
    exists (e :: new). rewrite <- app_assoc. split; [reflexivity |].
    cbn [length List.filter drawEvents countSucceeding].
    destruct He as [(-> & -> & -> & ->) | (-> & -> & -> & ->)];
      cbn [length]; rewrite Hdraws, Hlen;
      (split; [reflexivity |]); (split; [reflexivity |]); lia.
Qed.

End SecondPass.

(** ** The canvas and the tiles *)

Lemma isMinOf_unique m m' f tiles tiles' :
  (forall t, t ∈ tiles <-> t ∈ tiles') ->
  isMinOf m f tiles -> isMinOf m' f tiles' -> (m == m')%Q.
Proof.
  intros Hsame [Hle (t & Ht & Hm)] [Hle' (t' & Ht' & Hm')].
  apply Hsame in Ht. apply Hsame in Ht'.
  pose proof (Hle t' Ht'). pose proof (Hle' t Ht). lra.
Qed.

Lemma isMaxOf_unique m m' f tiles tiles' :
  (forall t, t ∈ tiles <-> t ∈ tiles') ->
  isMaxOf m f tiles -> isMaxOf m' f tiles' -> sameNumber m m'.
Proof.
  intros Hsame [Hle (t & Ht & Hm)] [Hle' (t' & Ht' & Hm')].
  apply Hsame in Ht. apply Hsame in Ht'.
  apply jsLe_antisym.
  - rewrite (jsLe_comp m (f t) m' m' Hm (sameNumber_refl m')).
    by apply Hle'.
  - rewrite (jsLe_comp m' (f t') m m Hm' (sameNumber_refl m)).
    by apply Hle.
Qed.

(** X14.  The canvas size depends only on which tiles the scene has, not
    on their order in the collection or on repetitions. *)
Theorem canvas_size_ignores_order tiles tiles' :
  (forall t, t ∈ tiles <-> t ∈ tiles') ->
  canvasWidth (computeBounds tiles) = canvasWidth (computeBounds tiles')
  /\ canvasHeight (computeBounds tiles) = canvasHeight (computeBounds tiles').
Proof.
  intros Hsame.
  destruct tiles as [| t ts], tiles' as [| t' ts'].
  - by split.
  - exfalso. eapply elem_of_nil, Hsame. by left.
  - exfalso. eapply elem_of_nil, Hsame. by left.
  - destruct (computeBounds_cons t ts)
      as (x0 & y0 & x1 & y1 & Htight & _ & ->).
    destruct (computeBounds_cons t' ts')
      as (x0' & y0' & x1' & y1' & Htight' & _ & ->).
    destruct Htight as (? & ? & ? & ? & [= <- <- <- <-]
                        & Hx0 & Hy0 & Hx1 & Hy1).
    destruct Htight' as (? & ? & ? & ? & [= <- <- <- <-]
                         & Hx0' & Hy0' & Hx1' & Hy1').
    unfold canvasWidth, canvasHeight. cbn [minX minY maxX maxY].
    split; apply axis_extent_comp;
      first [by eapply isMinOf_unique | by eapply isMaxOf_unique].
Qed.

(** ** What the tile export leaves behind *)

Section TileExport.
Context {Scene : Type} {host : Host Scene} {browser : Platform}.

Lemma drawn_lines_plain (new : list Event) :
  Forall (fun e => isDrawImage e || isLoggerWarn e = true) new ->
  createCalls new = [] /\ List.filter isSaveAs new = [].
Proof.
  induction 1 as [| e new He _ [IHc IHs]]; [done |].
  destruct e; try discriminate He; cbn; by rewrite ?IHc, ?IHs.
Qed.

(** X15.  The tile export only reads the scene, and it saves at most one
    file: exactly when a scene with tiles is current, the canvas has a
    context and is within the size limit, and encoding and saving work.
    The outcome of the tiles themselves plays no part: an export in
    which every tile fails still saves the (blank) image.  The file is
    named after the scene, "_tiles.png" appended. *)
Theorem tile_export_saves_once w :
  current (exportSceneTilesAsImage w) = current w
  /\ exists new,
       log (exportSceneTilesAsImage w) = log w ++ new
       /\ createCalls new = []
       /\ ((List.filter isSaveAs new = []
            /\ forall scene tiles, ~ reachesDownload w scene tiles)
           \/ (exists scene tiles,
                 reachesDownload w scene tiles
                 /\ List.filter isSaveAs new
                    = [SaveAs (sceneFileStem (scene_name scene)
                               +:+ "_tiles.png")])).
Proof.
  unfold exportSceneTilesAsImage, reachesDownload.
  destruct (current w) as [scene |] eqn:Hscene.
  2:{ unfold notify, emit. cbn [log current]. split; [exact Hscene |].
      eexists. split; [reflexivity |]. split; [reflexivity |]. left.
      split; [reflexivity |]. intros scene tiles (Hcur & _). discriminate. }
  destruct (scene_tiles scene) as [[| t ts] |] eqn:Htiles.
  1,3: unfold notify, emit; cbn [log current]; (split; [exact Hscene |]);
       eexists; (split; [reflexivity |]); (split; [reflexivity |]); left;
       (split; [reflexivity |]);
       intros scene' tiles' ([= <-] & Htiles' & Hne & _); congruence.
  set (tiles := t :: ts) in *.
  destruct getContext2d eqn:Hctx; cbn [negb].
  2:{ unfold notify, emit. cbn [log current]. split; [exact Hscene |].
      rewrite <- app_assoc.
      eexists. split; [reflexivity |]. split; [reflexivity |]. left.
      split; [reflexivity |]. intros scene' tiles' (_ & _ & _ & Hfalse & _).
      discriminate. }
  set (b := computeBounds tiles).
  destruct (jsGt (canvasWidth b) MAX_DIMENSION
            || jsGt (canvasHeight b) MAX_DIMENSION) eqn:Hsize.
  { unfold notify, emit. cbn [log current]. split; [exact Hscene |].
    rewrite <- !app_assoc.
    eexists. split; [reflexivity |]. split; [reflexivity |]. left.
    split; [reflexivity |].
    intros scene' tiles' ([= <-] & Htiles' & _ & _ & Hw & Hh & _).
    assert (tiles' = tiles) as -> by congruence. fold b in Hw, Hh.
    apply orb_true_iff in Hsize as [Hsize | Hsize];
      apply jsGt_exceedsLimit in Hsize; tauto. }
  apply orb_false_iff in Hsize as [Hw Hh].
  set (w1 := notify Info _ (emit _ (emit _ (notify Info _ (emit _ w))))).
  assert (Hw1 : exists opening,
    log w1 = log w ++ opening /\ createCalls opening = []
    /\ List.filter isSaveAs opening = [] /\ current w1 = Some scene).
  { subst w1. unfold notify, emit. cbn [log current].
    rewrite <- !app_assoc. eexists. split; [reflexivity |].
    split; [reflexivity |]. split; [reflexivity | exact Hscene]. }
  destruct Hw1 as (opening & Hopening & Hoc & Hos & Hcur).
  destruct (drawTiles_events b 0 tiles (mkDrawState 0 0 (log w1)))
    as (drawn & Hdrawn & Hplain).
  apply drawn_lines_plain in Hplain as [Hdc Hds].
  cbn [drawLog] in Hdrawn.
  set (st := drawTiles b 0 tiles (mkDrawState 0 0 (log w1))) in *.
  set (lg := if decide (0 < failedCount st) then _ else _).
  assert (Hlg : exists mid,
    lg = log w ++ mid /\ createCalls mid = []
    /\ List.filter isSaveAs mid = []).
  { subst lg. rewrite Hdrawn, Hopening. destruct (decide _).
    - rewrite <- !app_assoc. eexists. split; [reflexivity |].
      rewrite !createCalls_app, !List.filter_app, Hoc, Hdc, Hos, Hds.
      by split.
    - rewrite <- !app_assoc. eexists. split; [reflexivity |].
      rewrite !createCalls_app, !List.filter_app, Hoc, Hdc, Hos, Hds.
      by split. }
  destruct Hlg as (mid & -> & Hmc & Hms).
  cbn [current log]. split; [exact Hcur |].
  unfold saveComposite.
  destruct toBlob eqn:Hblob; cbn [negb].
  2:{ rewrite <- app_assoc. eexists. split; [reflexivity |].
      rewrite createCalls_app, List.filter_app, Hmc, Hms.
      split; [reflexivity |]. left. split; [reflexivity |].
      intros scene' tiles' (_ & _ & _ & _ & _ & _ & Hfalse & _).
      discriminate. }
  destruct fileSaver as [exportErr |] eqn:Hsaver.
  - rewrite <- app_assoc. eexists. split; [reflexivity |].
    rewrite createCalls_app, List.filter_app, Hmc, Hms.
    split; [reflexivity |]. left. split; [reflexivity |].
    intros scene' tiles' (_ & _ & _ & _ & _ & _ & _ & Hfalse).
    discriminate.
  - rewrite <- app_assoc. eexists. split; [reflexivity |].
    rewrite createCalls_app, List.filter_app, Hmc, Hms.
    split; [reflexivity |]. right. exists scene, tiles.
    split; [| reflexivity].
    split; [reflexivity |]. split; [exact Htiles |]. split; [done |].
    split; [reflexivity |].
    split.
    { intros Hover%jsGt_exceedsLimit.
      change (jsGt (canvasWidth b) MAX_DIMENSION = true) in Hover.
      congruence. }
    split.
    { intros Hover%jsGt_exceedsLimit.
      change (jsGt (canvasHeight b) MAX_DIMENSION = true) in Hover.
      congruence. }
    by split.
Qed.

End TileExport.

(** ** The module logger *)

Lemma jsLt_ofZ_mono (level : number) (a b : Z) :
  (a <= b)%Z -> jsLt level (ofZ a) = true -> jsLt level (ofZ b) = true.
Proof.
  intros Hab. destruct level as [| | q |]; cbn [jsLt ofZ]; try done.
  rewrite !negb_true_iff. intros Hlt. apply Qle_bool_false in Hlt.
  destruct (Qle_bool (inject_Z b) q) eqn:Hcmp; [| reflexivity].
  apply Qle_bool_iff in Hcmp. rewrite Zle_Qle in Hab. lra.
Qed.

(** X16.  The four severities are ordered: a level that lets [debug]
    print lets [info] print, one that lets [info] print lets [warn]
    print, and so for [error].  While the level cannot be read from the
    settings, every call first prints the "Settings not ready" warning
    and goes on with level 2, at which [warn] and [error] print their
    line and [debug] and [info] print nothing more. *)
Theorem logger_severity_order moduleId logLevel message args :
  length (ModuleLogger.debug moduleId logLevel message args)
  <= length (ModuleLogger.info moduleId logLevel message args)
  /\ length (ModuleLogger.info moduleId logLevel message args)
     <= length (ModuleLogger.warn moduleId logLevel message args)
  /\ length (ModuleLogger.warn moduleId logLevel message args)
     <= length (ModuleLogger.error moduleId logLevel message args)
  /\ (forall e, logLevel = inl e ->
        let notReady :=
          Console_warn
            (moduleId +:+ " | Settings not ready, using default log level")
            [] in
        let line := moduleId +:+ " | " +:+ message in
        ModuleLogger.debug moduleId logLevel message args = [notReady]
        /\ ModuleLogger.info moduleId logLevel message args = [notReady]
        /\ ModuleLogger.warn moduleId logLevel message args
           = [notReady; Console_warn line args]
        /\ ModuleLogger.error moduleId logLevel message args
           = [notReady; Console_error line args]).
Proof.
  unfold ModuleLogger.debug, ModuleLogger.info, ModuleLogger.warn,
    ModuleLogger.error, ModuleLogger.debugLevel, ModuleLogger.prefixed.
  destruct logLevel as [e | level].
  - cbv beta iota zeta.
    change (jsLt (ofZ 2) (ofZ 1)) with false.
    change (jsLt (ofZ 2) (ofZ 2)) with false.
    change (jsLt (ofZ 2) (ofZ 3)) with true.
    change (jsLt (ofZ 2) (ofZ 4)) with true.
    cbn [app length]. split; [lia |]. split; [lia |]. split; [lia |].
    by intros _ _.
  - pose proof (jsLt_ofZ_mono level 1 2 ltac:(lia)) as H12.
    pose proof (jsLt_ofZ_mono level 2 3 ltac:(lia)) as H23.
    pose proof (jsLt_ofZ_mono level 3 4 ltac:(lia)) as H34.
    destruct (jsLt level (ofZ 1)); [rewrite H12 in * by done |];
      (destruct (jsLt level (ofZ 2)); [rewrite H23 in * by done |]);
      (destruct (jsLt level (ofZ 3)); [rewrite H34 by done |]);
      try destruct (jsLt level (ofZ 4));
      cbn [app length]; (split; [lia |]); (split; [lia |]);
      (split; [lia |]); intros e [=].
Qed.

(** ** The scene control buttons *)

Lemma hasTool_app name tools more :
  hasTool name (tools ++ more) = hasTool name tools || hasTool name more.
Proof. apply existsb_app. Qed.

(** The tools the hook adds are those of its three that the group does
    not have yet; checking for the third only after the first two are
    pushed makes no difference. *)
Lemma addWallTools_added tools :
  addWallTools tools
  = tools ++ List.filter (fun t => negb (hasTool (tool_name t) tools))
               [wallManagementTool; copySceneImageTool; exportTilesTool].
Proof.
  unfold addWallTools. cbn [List.filter tool_name wallManagementTool
    copySceneImageTool exportTilesTool].
  destruct (hasTool "wall-management" tools),
    (hasTool "copy-scene-image" tools); cbn [negb];
    rewrite ?hasTool_app;
    change (hasTool "export-tiles" [wallManagementTool]) with false;
    change (hasTool "export-tiles" [copySceneImageTool]) with false;
    rewrite ?orb_false_r;
    destruct (hasTool "export-tiles" tools); cbn [negb];
    rewrite <- ?app_assoc; cbn [app]; by rewrite ?app_nil_r.
Qed.

Lemma addWallTools_has tools name :
  name ∈ ["wall-management"; "copy-scene-image"; "export-tiles"] ->
  hasTool name (addWallTools tools) = true.
Proof.
  intros Hname. rewrite addWallTools_added, hasTool_app.
  cbn [List.filter tool_name wallManagementTool copySceneImageTool
    exportTilesTool].
  repeat (apply elem_of_cons in Hname as [-> | Hname]);
    [| | | by apply elem_of_nil in Hname];
    destruct (hasTool "wall-management" tools) eqn:H1,
      (hasTool "copy-scene-image" tools) eqn:H2,
      (hasTool "export-tiles" tools) eqn:H3; reflexivity.
Qed.

Lemma addWallTools_idempotent tools :
  addWallTools (addWallTools tools) = addWallTools tools.
Proof.
  rewrite (addWallTools_added (addWallTools tools)).
  cbn [List.filter tool_name wallManagementTool copySceneImageTool
    exportTilesTool].
  rewrite !addWallTools_has by (rewrite !elem_of_cons; tauto).
  cbn [negb]. apply app_nil_r.
Qed.

(** X17.  The hook adds to the tools of the walls group exactly those of
    its three buttons the group does not have by name, after the tools
    that are there, in the order wall-management, copy-scene-image,
    export-tiles.  Afterwards the group has all three; tool names that
    were distinct stay distinct; and running the hook body again adds
    nothing. *)
Theorem addWallTools_adds_missing tools :
  addWallTools tools
  = tools ++ List.filter (fun t => negb (hasTool (tool_name t) tools))
               [wallManagementTool; copySceneImageTool; exportTilesTool]
  /\ (forall name,
        name ∈ ["wall-management"; "copy-scene-image"; "export-tiles"] ->
        hasTool name (addWallTools tools) = true)
  /\ (NoDup (tool_name <$> tools) ->
      NoDup (tool_name <$> addWallTools tools))
  /\ addWallTools (addWallTools tools) = addWallTools tools.
Proof.
  split; [apply addWallTools_added |].
  split; [intros name; apply addWallTools_has |].
  split; [| apply addWallTools_idempotent].
  intros Hnodup. rewrite addWallTools_added, fmap_app.
  assert (Hhas : forall name, hasTool name tools = false ->
                   name ∉ tool_name <$> tools).
  { intros name Hnone Hin. apply list_elem_of_fmap in Hin as (t & -> & Hin).
    assert (hasTool (tool_name t) tools = true); [| congruence].
    unfold hasTool. apply existsb_exists. exists t.
    split; [by apply list_elem_of_In | by apply bool_decide_eq_true]. }
  apply NoDup_app. split; [exact Hnodup |]. split.
  - intros name Hin Hadded.
    apply list_elem_of_fmap in Hadded as (t & -> & Ht).
    apply list_elem_of_In, List.filter_In in Ht as [_ Hneg].
    apply negb_true_iff in Hneg. by eapply Hhas.
  - cbn [List.filter].
    destruct (negb _), (negb _), (negb _); compute_done.
Qed.

(** X18.  The hook changes at most one control group: the first one
    named "walls", and only when it has tools; its tools become
    [addWallTools] of them.  Every other group, a later group named
    "walls" among them, is left as it is, the groups keep their names
    and order, and running the hook a second time changes nothing. *)
Theorem getSceneControlButtons_first_walls_group controls :
  control_name <$> getSceneControlButtons controls = control_name <$> controls
  /\ getSceneControlButtons (getSceneControlButtons controls)
     = getSceneControlButtons controls
  /\ forall i c,
       controls !! i = Some c ->
       getSceneControlButtons controls !! i = Some c
       \/ (control_name c = "walls"
           /\ (forall j c', j < i -> controls !! j = Some c' ->
                 control_name c' <> "walls")
           /\ exists tools,
                control_tools c = Some tools
                /\ getSceneControlButtons controls !! i
                   = Some (mkControl "walls" (Some (addWallTools tools)))).
Proof.
  induction controls as [| c rest (IHnames & IHidem & IHat)].
  - split; [reflexivity |]. split; [reflexivity |]. intros i c [=].
  - cbn [getSceneControlButtons].
    destruct (bool_decide (control_name c = "walls")) eqn:Hname.
    + apply bool_decide_eq_true in Hname.
      destruct (control_tools c) as [tools |] eqn:Htools.
      * split; [reflexivity |]. split.
        { cbn [getSceneControlButtons control_name control_tools].
          rewrite Hname. cbn [bool_decide decide_rel].
          rewrite bool_decide_eq_true_2 by reflexivity.
          by rewrite addWallTools_idempotent. }
        intros [| i] c0 Hlookup; cbn in Hlookup |- *; [| by left].
        injection Hlookup as <-. right. split; [exact Hname |].
        split; [intros j c' Hj; lia |].
        exists tools. by rewrite Hname.
      * split; [reflexivity |]. split.
        { cbn [getSceneControlButtons].
          rewrite bool_decide_eq_true_2 by exact Hname.
          by rewrite Htools. }
        intros i c0 Hlookup. by left.
    + apply bool_decide_eq_false in Hname.
      split; [cbn [fmap list_fmap] in *; by f_equal |]. split.
      { cbn [getSceneControlButtons].
        rewrite bool_decide_eq_false_2 by exact Hname. by f_equal. }
      intros [| i] c0 Hlookup; cbn in Hlookup |- *; [by left |].
      destruct (IHat i c0 Hlookup) as [Hsame | (Hwalls & Hfirst & Hnew)];
        [by left |].
      right. split; [exact Hwalls |]. split; [| exact Hnew].
      intros [| j] c' Hj Hc'; cbn in Hc'.
      * by injection Hc' as <-.
      * apply (Hfirst j c'); [lia | exact Hc'].
Qed.

(** ** Sample runs *)

(** The walls of the mill yard, whose name holds a no-break space, a
    space and an ideographic space, go to Old_mill_yard_walls.json. *)
Lemma exportWallsToFile_saves_witness :
  let browser := session (inr JNull) true noImages in
  let w := mkWorld (Some millScene) [] in
  SaveDataToFile "[...]" "application/json" "Old_mill_yard_walls.json"
    ∈ log (exportWallsToFile (browser := browser) w)
  /\ gatePasses (browser := browser) "export" millScene = true
  /\ ~ hasWhitespace "Old_mill_yard_walls.json".
Proof.
  cbn zeta.
  assert (Hin : SaveDataToFile "[...]" "application/json"
                  "Old_mill_yard_walls.json"
                ∈ log (exportWallsToFile (host := refHost)
                         (browser := session (inr JNull) true noImages)
                         (mkWorld (Some millScene) [])))
    by (vm_compute; left).
  split; [exact Hin |].
  destruct (exportWallsToFile_saves (host := refHost)
              (browser := session (inr JNull) true noImages)
              (mkWorld (Some millScene) []) _ _ _ Hin)
    as [Hold | (scene & name & Hcur & _ & _ & Hgate & _ & _ & _ & Hno)].
  - by apply elem_of_nil in Hold.
  - injection Hcur as <-. split; [exact Hgate | exact Hno].
Defined.

(** A scene without a name: no file, but the clipboard gets the walls. *)
Lemma unnamed_scene_exports_to_clipboard_only_witness :
  let browser := session (inr JNull) true noImages in
  let w := mkWorld (Some namelessScene) [] in
  exportWallsToFile (browser := browser) w
  = mkWorld (Some namelessScene) [Notify Error [Lit "No active scene found."]]
  /\ log (exportWallsToClipboard (browser := browser) w)
     = [ClipboardWriteText "[...]";
        Notify Info [Lit "Walls copied to clipboard successfully."]].
Proof.
  cbn zeta.
  destruct (unnamed_scene_exports_to_clipboard_only (host := refHost)
              (browser := session (inr JNull) true noImages)
              (mkWorld (Some namelessScene) []) namelessScene
              eq_refl eq_refl)
    as [Hfile Hclipboard].
  split; [exact Hfile | exact (Hclipboard eq_refl eq_refl)].
Defined.

(** The same two tiles in another order, one of them twice. *)
Lemma canvas_size_ignores_order_witness :
  canvasWidth (computeBounds [farTile; nearTile])
  = canvasWidth (computeBounds [nearTile; farTile; nearTile])
  /\ canvasHeight (computeBounds [farTile; nearTile])
     = canvasHeight (computeBounds [nearTile; farTile; nearTile]).
Proof.
  apply canvas_size_ignores_order. intros t. rewrite !elem_of_cons. tauto.
Defined.
